(** * Robotics Cape MPU-9250 driver: a shallow embedding of [mpu9250.c]

    The development follows [src/libraries/mpu9250/mpu9250.c].  C integers are
    modelled as [Z] with their wrap-around written out ([long] and [int] are
    32 bits wide on the BeagleBone target; the driver's own comment on
    [check_quaternion_validity] says the data is scaled down "to avoid long
    long math").  Bytes are [Z] values in [0, 256).  The I2C bus, the clock
    and the file system are collaborators outside the driver: they are
    modelled by a [world] holding the replies the environment will give, in
    order, and the log of what the driver asked of it.  Diagnostics printed
    with [printf] are not part of the model.

    Layout: Part I holds the embedding (definitions only), Part II the
    lemmas and the theorems about it. *)

From Stdlib Require Import ZArith QArith List Lia Bool.
Import ListNotations.
Local Open Scope Z_scope.

(** * Part I: the embedding *)

(** ** C integer types *)

Module CInt.

(** Conversion to a signed integer of [w] bits (two's complement). *)
Definition signed (w : Z) (x : Z) : Z :=
  (x + 2 ^ (w - 1)) mod 2 ^ w - 2 ^ (w - 1).

(** Conversion to an unsigned integer of [w] bits. *)
Definition unsigned (w : Z) (x : Z) : Z := x mod 2 ^ w.

Definition long_ (x : Z) : Z := signed 32 x.
Definition int32_t (x : Z) : Z := signed 32 x.
Definition int16_t (x : Z) : Z := signed 16 x.
Definition uint16_t (x : Z) : Z := unsigned 16 x.
Definition uint8_t (x : Z) : Z := unsigned 8 x.

Definition is_byte (b : Z) : Prop := 0 <= b < 256.

End CInt.

(** ** Byte buffers *)

(** [raw[k]] for a buffer held as a list; the buffers of the driver are
    zero-filled before use, and an index past the list reads as 0. *)
Definition raw_at (raw : list Z) (k : Z) : Z := nth (Z.to_nat k) raw 0.

(** A 16-bit big-endian field [(int16_t)((raw[k] << 8) | raw[k+1])]. *)
Definition be16 (raw : list Z) (k : Z) : Z :=
  CInt.int16_t (Z.lor (Z.shiftl (raw_at raw k) 8) (raw_at raw (k + 1))).

(** A 16-bit little-endian field [(int16_t)((raw[k+1] << 8) | raw[k])]. *)
Definition le16 (raw : list Z) (k : Z) : Z :=
  CInt.int16_t (Z.lor (Z.shiftl (raw_at raw (k + 1)) 8) (raw_at raw k)).

(** A 32-bit big-endian field, as both [read_dmp_fifo] and
    [check_quaternion_validity] assemble it into a [long]:
    [((long)raw[k] << 24) | ((long)raw[k+1] << 16) | ((long)raw[k+2] << 8)
     | raw[k+3]]. *)
Definition be32_long (raw : list Z) (k : Z) : Z :=
  Z.lor (Z.lor (Z.lor (CInt.long_ (Z.shiftl (raw_at raw k) 24))
                      (CInt.long_ (Z.shiftl (raw_at raw (k + 1)) 16)))
               (CInt.long_ (Z.shiftl (raw_at raw (k + 2)) 8)))
        (raw_at raw (k + 3)).

(** A buffer after [n] bytes were stored at its start: the bytes received
    replace the first cells, the others keep their contents. *)
Definition buf_store (buf got : list Z) : list Z :=
  map CInt.uint8_t got ++ skipn (length got) buf.

(** ** Quaternion validity check *)

Definition FIFO_LEN_NO_MAG : Z := 28.
Definition FIFO_LEN_MAG : Z := 35.

Definition QUAT_ERROR_THRESH : Z := Z.shiftl 1 16.
Definition QUAT_MAG_SQ_NORMALIZED : Z := Z.shiftl 1 28.
Definition QUAT_MAG_SQ_MIN : Z := QUAT_MAG_SQ_NORMALIZED - QUAT_ERROR_THRESH.
Definition QUAT_MAG_SQ_MAX : Z := QUAT_MAG_SQ_NORMALIZED + QUAT_ERROR_THRESH.
Definition GYRO_CAL_THRESH : Z := 50.
Definition GYRO_OFFSET_THRESH : Z := 500.

(** [quat_mag_sq]: the four fields shifted down by 16 bits, squared and
    summed in [long] arithmetic. *)
Definition quat_mag_sq (raw : list Z) (i : Z) : Z :=
  let quat0 := be32_long raw i in
  let quat1 := be32_long raw (i + 4) in
  let quat2 := be32_long raw (i + 8) in
  let quat3 := be32_long raw (i + 12) in
  let q0 := Z.shiftr quat0 16 in
  let q1 := Z.shiftr quat1 16 in
  let q2 := Z.shiftr quat2 16 in
  let q3 := Z.shiftr quat3 16 in
  CInt.long_ (CInt.long_ (CInt.long_ (CInt.long_ (q0 * q0)
                                       + CInt.long_ (q1 * q1))
                          + CInt.long_ (q2 * q2))
              + CInt.long_ (q3 * q3)).

Definition check_quaternion_validity (raw : list Z) (i : Z) : Z :=
  let m := quat_mag_sq raw i in
  if (m <? QUAT_MAG_SQ_MIN) || (m >? QUAT_MAG_SQ_MAX) then 0
  else if (m <? QUAT_MAG_SQ_MIN) || (m >? QUAT_MAG_SQ_MAX) then 0
  else 1.

(** The reading of a sub-record that the specification gives: a signed
    32-bit big-endian integer. *)
Definition be32_signed (b0 b1 b2 b3 : Z) : Z :=
  let u := b0 * 2 ^ 24 + b1 * 2 ^ 16 + b2 * 2 ^ 8 + b3 in
  if u <? 2 ^ 31 then u else u - 2 ^ 32.

Definition field_at (raw : list Z) (k : Z) : Z :=
  be32_signed (raw_at raw k) (raw_at raw (k + 1))
              (raw_at raw (k + 2)) (raw_at raw (k + 3)).

(** Sum of the squares of the four fields after the 16-bit right shift, as
    an unbounded integer. *)
Definition reduced_mag_sq (raw : list Z) (i : Z) : Z :=
  let q k := Z.shiftr (field_at raw (i + k)) 16 in
  q 0 * q 0 + q 4 * q 4 + q 8 * q 8 + q 12 * q 12.

(** ** The environment *)

(** What the environment answers to one request of the driver: a failure,
    or a success that may carry bytes (or, for a word read, the word). *)
Inductive reply :=
| Nak
| Ack (payload : list Z).

(** What the driver asks of its collaborators. *)
Inductive event :=
| I2cSetDeviceAddress (addr : Z)
| I2cGetInUseState
| I2cInit (addr : Z)
| I2cClaimBus
| I2cReleaseBus
| I2cWriteByte (reg val : Z)
| I2cWriteBytes (reg : Z) (data : list Z)
| I2cReadWord (reg : Z)
| I2cReadBytes (reg len : Z)
| Usleep (us : Z)
| Fopen
| Mkdir
| Fprintf (values : list Z)
| Fclose
| UserCallback.

(** [replies]: the answers still to come, in order.  [log]: the requests
    made so far, the newest first. *)
Record world := mkWorld { replies : list reply; log : list event }.

(** A request that has no answer the driver looks at. *)
Definition tell (e : event) (w : world) : world :=
  mkWorld (replies w) (e :: log w).

(** A request whose answer the driver uses; an environment that has nothing
    more to say answers with a failure. *)
Definition ask (e : event) (w : world) : reply * world :=
  match replies w with
  | [] => (Nak, mkWorld [] (e :: log w))
  | r :: rs => (r, mkWorld rs (e :: log w))
  end.

(** A request answered with an integer: [i2c_get_in_use_state] and
    [i2c_init]. *)
Definition query (e : event) (w : world) : Z * world :=
  match ask e w with
  | (Nak, w') => (-1, w')
  | (Ack p, w') => (hd 0 p, w')
  end.

(** [i2c_write_byte] and [i2c_write_bytes] return 0 on success and -1 on
    failure. *)
Definition i2c_write_byte (reg val : Z) (w : world) : Z * world :=
  match ask (I2cWriteByte reg val) w with
  | (Nak, w') => (-1, w')
  | (Ack _, w') => (0, w')
  end.

Definition i2c_write_bytes (reg : Z) (data : list Z) (w : world) : Z * world :=
  match ask (I2cWriteBytes reg data) w with
  | (Nak, w') => (-1, w')
  | (Ack _, w') => (0, w')
  end.

(** [i2c_read_word] returns -1 on failure, and 0 with the 16-bit word on
    success. *)
Definition i2c_read_word (reg : Z) (w : world) : Z * Z * world :=
  match ask (I2cReadWord reg) w with
  | (Nak, w') => (-1, 0, w')
  | (Ack p, w') => (0, CInt.uint16_t (hd 0 p), w')
  end.

(** [i2c_read_bytes] returns -1 on failure, and otherwise the number of
    bytes it received, at most [len], together with these bytes. *)
Definition i2c_read_bytes (reg len : Z) (w : world) : Z * list Z * world :=
  match ask (I2cReadBytes reg len) w with
  | (Nak, w') => (-1, [], w')
  | (Ack p, w') =>
      let got := firstn (Z.to_nat len) p in
      (Z.of_nat (length got), got, w')
  end.

(** The file-system requests of a log. *)
Definition is_disk (e : event) : bool :=
  match e with
  | Fopen | Mkdir | Fprintf _ | Fclose => true
  | _ => false
  end.

(** The log of [w] is the log [s] with more requests after it. *)
Definition grows (s : list event) (w : world) : Prop :=
  exists l, log w = l ++ s.

(** The file-system requests made so far, the newest first. *)
Definition disk_events (w : world) : list event := filter is_disk (log w).

(** ** Constants of the headers

    [mpu9250.c] takes its register addresses, bit masks, limits and the
    firmware image from [mpu9250_defs.h], [dmp_firmware.h], [dmpKey.h] and
    [roboticscape.h].  The development is parametric in them: whatever the
    headers define, the theorems hold. *)
Class Header := {
  IMU_ADDR : Z;
  INT_ENABLE : Z; FIFO_EN : Z; USER_CTRL : Z;
  FIFO_COUNTH : Z; FIFO_R_W : Z;
  PWR_MGMT_1 : Z; PWR_MGMT_2 : Z; I2C_MST_CTRL : Z;
  CONFIG : Z; SMPLRT_DIV : Z; GYRO_CONFIG : Z; ACCEL_CONFIG : Z;
  H_RESET : Z;
  BIT_FIFO_RST : Z; BIT_DMP_RST : Z; BIT_DMP_EN : Z; BIT_FIFO_EN : Z;
  I2C_MST_EN : Z; FIFO_SLV0_EN : Z; BIT_DMP_INT_EN : Z;
  FIFO_GYRO_X_EN : Z; FIFO_GYRO_Y_EN : Z; FIFO_GYRO_Z_EN : Z;
  GYRO_FSR_CFG_250 : Z; GYRO_FSR_CFG_500 : Z;
  GYRO_FSR_CFG_1000 : Z; GYRO_FSR_CFG_2000 : Z; FCHOICE_B_DLPF_EN : Z;
  ACCEL_FSR_CFG_2G : Z; ACCEL_FSR_CFG_4G : Z;
  ACCEL_FSR_CFG_8G : Z; ACCEL_FSR_CFG_16G : Z;
  MAX_FIFO_BUFFER : Z;
  MPU6500_BANK_SIZE : Z; MPU6500_BANK_SEL : Z; MPU6500_MEM_R_W : Z;
  MPU6500_PRGM_START_H : Z;
  DMP_CODE_SIZE : Z; DMP_LOAD_CHUNK : Z;
  dmp_firmware : list Z; dmp_start_addr : Z;
  DMP_MAX_RATE : Z; D_0_22 : Z; CFG_6 : Z;
  DINAFE : Z; DINAF2 : Z; DINAAB : Z; DINAAA : Z; DINAF1 : Z; DINADF : Z;
  TB_PITCH_X : nat; TB_ROLL_Y : nat; TB_YAW_Z : nat;
  QUAT_W : nat; QUAT_X : nat; QUAT_Y : nat; QUAT_Z : nat
}.

(** ** Floating point

    The driver computes with [float] and [double].  Their arithmetic is a
    parameter: the development fixes which operation is applied to which
    operands, not how the result rounds. *)
Class FloatOps (F : Type) := {
  F_of_Z : Z -> F;
  F_9_807 : F;
  MAG_RAW_TO_uT : F;
  PI : F;
  TWO_PI : F;
  F_add : F -> F -> F;
  F_sub : F -> F -> F;
  F_mul : F -> F -> F;
  F_div : F -> F -> F;
  F_neg : F -> F;
  F_eqb : F -> F -> bool;
  F_ltb : F -> F -> bool;
  atan2f : F -> F -> F;
  fmodf : F -> F -> F
}.

(** The vector, quaternion and filter routines of the library that the
    driver calls; they live outside [mpu9250.c]. *)
Class MathLib (F : Type) := {
  d_filter_t : Type;
  normalizeQuaternion : list F -> list F;
  quaternionToTaitBryan : list F -> list F;
  TaitBryanToQuaternion : list F -> list F;
  tilt_compensate : list F -> list F -> list F;
  create_first_order_lowpass : F -> F -> d_filter_t;
  create_first_order_highpass : F -> F -> d_filter_t;
  prefill_filter_inputs : d_filter_t -> F -> d_filter_t;
  prefill_filter_outputs : d_filter_t -> F -> d_filter_t;
  march_filter : d_filter_t -> F -> d_filter_t * F;
  standard_deviation : list F -> F
}.

(** ** The data model *)

(** The enumerations of [roboticscape.h].  A C enum variable can hold any
    value of its underlying integer type: the last constructor of each type
    stands for a value that is none of the enumerators (the [default] case
    of a [switch]). *)
Inductive gyro_fsr_t :=
| G_FSR_250DPS | G_FSR_500DPS | G_FSR_1000DPS | G_FSR_2000DPS
| G_FSR_other (v : Z).

Inductive accel_fsr_t :=
| A_FSR_2G | A_FSR_4G | A_FSR_8G | A_FSR_16G
| A_FSR_other (v : Z).

Inductive imu_orientation_t :=
| ORIENTATION_Z_UP | ORIENTATION_Z_DOWN
| ORIENTATION_X_UP | ORIENTATION_X_DOWN
| ORIENTATION_Y_UP | ORIENTATION_Y_DOWN
| ORIENTATION_X_FORWARD | ORIENTATION_X_BACK
| ORIENTATION_other (v : Z).

(** [imu_data_t], the sample record of the caller. *)
Record imu_data_t {F : Type} := mk_imu_data {
  accel : list F;
  gyro : list F;
  mag : list F;
  temp : F;
  raw_gyro : list Z;
  raw_accel : list Z;
  accel_to_ms2 : F;
  gyro_to_degs : F;
  dmp_quat : list F;
  dmp_TaitBryan : list F;
  fused_quat : list F;
  fused_TaitBryan : list F;
  compass_heading : F;
  compass_heading_raw : F
}.
Arguments imu_data_t : clear implicits.

(** [imu_config_t]. *)
Record imu_config_t {F : Type} := mk_imu_config {
  accel_fsr : accel_fsr_t;
  gyro_fsr : gyro_fsr_t;
  gyro_dlpf : Z;
  accel_dlpf : Z;
  enable_magnetometer : Z;
  dmp_sample_rate : Z;
  orientation : imu_orientation_t;
  compass_time_constant : F;
  dmp_interrupt_priority : Z;
  show_warnings : Z
}.
Arguments imu_config_t : clear implicits.

(** The [static] variables of [data_fusion] and the two filters it owns. *)
Record fusion_state {F : Type} {ml : MathLib F} := mk_fusion_state {
  newMagYaw : F;
  newDMPYaw : F;
  dmp_spin_counter : F;
  mag_spin_counter : F;
  fusion_first_run : Z;
  low_pass : d_filter_t;
  high_pass : d_filter_t
}.
Arguments fusion_state F {ml}.

(** The file-level variables of [mpu9250.c] that the sampler reads and
    writes; [data] is the record [data_ptr] points to, [fifo_first_run] the
    [static first_run] of [read_dmp_fifo]. *)
Record globals {F : Type} {ml : MathLib F} := mk_globals {
  config : imu_config_t F;
  dmp_en : Z;
  packet_len : Z;
  mag_factory_adjust : list F;
  mag_offsets : list F;
  mag_scales : list F;
  data : imu_data_t F;
  fifo_first_run : Z;
  fusion : fusion_state F
}.
Arguments globals F {ml}.

(** How the loop body of the firmware loader ends for one chunk. *)
Inductive chunk_result :=
| ChunkWriteFailed (w : world)
| ChunkReadFailed (w : world)
| ChunkCorrupted (w : world)
| ChunkVerified (cur : list Z) (w : world).

(** A call either returns, or divides by zero (which C leaves undefined). *)
Inductive c_result :=
| Returns (ret : Z) (w : world)
| DividesByZero (w : world).

Definition result_world (r : c_result) : world :=
  match r with
  | Returns _ w | DividesByZero w => w
  end.

Definition chunk_buffer (c : chunk_result) : list Z :=
  match c with
  | ChunkVerified cur _ => cur
  | _ => []
  end.

Definition chunk_world (c : chunk_result) : world :=
  match c with
  | ChunkWriteFailed w | ChunkReadFailed w | ChunkCorrupted w
  | ChunkVerified _ w => w
  end.

Section Driver.
Context {F : Type} {fl : FloatOps F} {ml : MathLib F} {hdr : Header}.

(** *** Field updates *)

Definition set_accel (v : list F) (d : imu_data_t F) : imu_data_t F :=
  mk_imu_data F v (gyro d) (mag d) (temp d) (raw_gyro d) (raw_accel d)
    (accel_to_ms2 d) (gyro_to_degs d) (dmp_quat d) (dmp_TaitBryan d)
    (fused_quat d) (fused_TaitBryan d) (compass_heading d)
    (compass_heading_raw d).

Definition set_gyro (v : list F) (d : imu_data_t F) : imu_data_t F :=
  mk_imu_data F (accel d) v (mag d) (temp d) (raw_gyro d) (raw_accel d)
    (accel_to_ms2 d) (gyro_to_degs d) (dmp_quat d) (dmp_TaitBryan d)
    (fused_quat d) (fused_TaitBryan d) (compass_heading d)
    (compass_heading_raw d).

Definition set_mag (v : list F) (d : imu_data_t F) : imu_data_t F :=
  mk_imu_data F (accel d) (gyro d) v (temp d) (raw_gyro d) (raw_accel d)
    (accel_to_ms2 d) (gyro_to_degs d) (dmp_quat d) (dmp_TaitBryan d)
    (fused_quat d) (fused_TaitBryan d) (compass_heading d)
    (compass_heading_raw d).

Definition set_raw_gyro (v : list Z) (d : imu_data_t F) : imu_data_t F :=
  mk_imu_data F (accel d) (gyro d) (mag d) (temp d) v (raw_accel d)
    (accel_to_ms2 d) (gyro_to_degs d) (dmp_quat d) (dmp_TaitBryan d)
    (fused_quat d) (fused_TaitBryan d) (compass_heading d)
    (compass_heading_raw d).

Definition set_raw_accel (v : list Z) (d : imu_data_t F) : imu_data_t F :=
  mk_imu_data F (accel d) (gyro d) (mag d) (temp d) (raw_gyro d) v
    (accel_to_ms2 d) (gyro_to_degs d) (dmp_quat d) (dmp_TaitBryan d)
    (fused_quat d) (fused_TaitBryan d) (compass_heading d)
    (compass_heading_raw d).

Definition set_accel_to_ms2 (v : F) (d : imu_data_t F) : imu_data_t F :=
  mk_imu_data F (accel d) (gyro d) (mag d) (temp d) (raw_gyro d) (raw_accel d)
    v (gyro_to_degs d) (dmp_quat d) (dmp_TaitBryan d)
    (fused_quat d) (fused_TaitBryan d) (compass_heading d)
    (compass_heading_raw d).

Definition set_gyro_to_degs (v : F) (d : imu_data_t F) : imu_data_t F :=
  mk_imu_data F (accel d) (gyro d) (mag d) (temp d) (raw_gyro d) (raw_accel d)
    (accel_to_ms2 d) v (dmp_quat d) (dmp_TaitBryan d)
    (fused_quat d) (fused_TaitBryan d) (compass_heading d)
    (compass_heading_raw d).

Definition set_dmp_quat (v : list F) (d : imu_data_t F) : imu_data_t F :=
  mk_imu_data F (accel d) (gyro d) (mag d) (temp d) (raw_gyro d) (raw_accel d)
    (accel_to_ms2 d) (gyro_to_degs d) v (dmp_TaitBryan d)
    (fused_quat d) (fused_TaitBryan d) (compass_heading d)
    (compass_heading_raw d).

Definition set_dmp_TaitBryan (v : list F) (d : imu_data_t F) : imu_data_t F :=
  mk_imu_data F (accel d) (gyro d) (mag d) (temp d) (raw_gyro d) (raw_accel d)
    (accel_to_ms2 d) (gyro_to_degs d) (dmp_quat d) v
    (fused_quat d) (fused_TaitBryan d) (compass_heading d)
    (compass_heading_raw d).

Definition set_fused_quat (v : list F) (d : imu_data_t F) : imu_data_t F :=
  mk_imu_data F (accel d) (gyro d) (mag d) (temp d) (raw_gyro d) (raw_accel d)
    (accel_to_ms2 d) (gyro_to_degs d) (dmp_quat d) (dmp_TaitBryan d)
    v (fused_TaitBryan d) (compass_heading d) (compass_heading_raw d).

Definition set_fused_TaitBryan (v : list F) (d : imu_data_t F)
  : imu_data_t F :=
  mk_imu_data F (accel d) (gyro d) (mag d) (temp d) (raw_gyro d) (raw_accel d)
    (accel_to_ms2 d) (gyro_to_degs d) (dmp_quat d) (dmp_TaitBryan d)
    (fused_quat d) v (compass_heading d) (compass_heading_raw d).

Definition set_compass_heading (v : F) (d : imu_data_t F) : imu_data_t F :=
  mk_imu_data F (accel d) (gyro d) (mag d) (temp d) (raw_gyro d) (raw_accel d)
    (accel_to_ms2 d) (gyro_to_degs d) (dmp_quat d) (dmp_TaitBryan d)
    (fused_quat d) (fused_TaitBryan d) v (compass_heading_raw d).

Definition set_compass_heading_raw (v : F) (d : imu_data_t F)
  : imu_data_t F :=
  mk_imu_data F (accel d) (gyro d) (mag d) (temp d) (raw_gyro d) (raw_accel d)
    (accel_to_ms2 d) (gyro_to_degs d) (dmp_quat d) (dmp_TaitBryan d)
    (fused_quat d) (fused_TaitBryan d) (compass_heading d) v.

Definition with_data (d : imu_data_t F) (g : globals F) : globals F :=
  mk_globals F ml (config g) (dmp_en g) (packet_len g) (mag_factory_adjust g)
    (mag_offsets g) (mag_scales g) d (fifo_first_run g) (fusion g).

Definition with_mag_scales (v : list F) (g : globals F) : globals F :=
  mk_globals F ml (config g) (dmp_en g) (packet_len g) (mag_factory_adjust g)
    (mag_offsets g) v (data g) (fifo_first_run g) (fusion g).

Definition with_fifo_first_run (v : Z) (g : globals F) : globals F :=
  mk_globals F ml (config g) (dmp_en g) (packet_len g) (mag_factory_adjust g)
    (mag_offsets g) (mag_scales g) (data g) v (fusion g).

Definition with_fusion (v : fusion_state F) (g : globals F) : globals F :=
  mk_globals F ml (config g) (dmp_en g) (packet_len g) (mag_factory_adjust g)
    (mag_offsets g) (mag_scales g) (data g) (fifo_first_run g) v.

(** [a[k]] and [a[k] = v] on an array of [float]. *)
Definition fnth (k : nat) (a : list F) : F := nth k a (F_of_Z 0).

Fixpoint fset (k : nat) (v : F) (a : list F) : list F :=
  match a, k with
  | [], _ => []
  | _ :: t, O => v :: t
  | h :: t, S k' => h :: fset k' v t
  end.

(** A C truth value. *)
Definition truthy (x : Z) : bool := negb (x =? 0).

(** *** Full-scale ranges *)

(** [set_gyro_fsr]: the result is the return value, the sample record and
    the world. *)
Definition set_gyro_fsr (fsr : gyro_fsr_t) (d : imu_data_t F) (w : world)
  : Z * imu_data_t F * world :=
  let go (c : Z) (range : Z) :=
    let d' := set_gyro_to_degs (F_div (F_of_Z range) (F_of_Z 32768)) d in
    let '(r, w') := i2c_write_byte GYRO_CONFIG (CInt.uint8_t c) w in
    (r, d', w') in
  match fsr with
  | G_FSR_250DPS => go (Z.lor GYRO_FSR_CFG_250 FCHOICE_B_DLPF_EN) 250
  | G_FSR_500DPS => go (Z.lor GYRO_FSR_CFG_500 FCHOICE_B_DLPF_EN) 500
  | G_FSR_1000DPS => go (Z.lor GYRO_FSR_CFG_1000 FCHOICE_B_DLPF_EN) 1000
  | G_FSR_2000DPS => go (Z.lor GYRO_FSR_CFG_2000 FCHOICE_B_DLPF_EN) 2000
  | G_FSR_other _ => (-1, d, w)
  end.

Definition set_accel_fsr (fsr : accel_fsr_t) (d : imu_data_t F) (w : world)
  : Z * imu_data_t F * world :=
  let go (c : Z) (range : Z) :=
    let d' := set_accel_to_ms2
                (F_div (F_mul F_9_807 (F_of_Z range)) (F_of_Z 32768)) d in
    let '(r, w') := i2c_write_byte ACCEL_CONFIG (CInt.uint8_t c) w in
    (r, d', w') in
  match fsr with
  | A_FSR_2G => go ACCEL_FSR_CFG_2G 2
  | A_FSR_4G => go ACCEL_FSR_CFG_4G 4
  | A_FSR_8G => go ACCEL_FSR_CFG_8G 8
  | A_FSR_16G => go ACCEL_FSR_CFG_16G 16
  | A_FSR_other _ => (-1, d, w)
  end.

(** The range each valid enumerator stands for. *)
Definition gyro_range (fsr : gyro_fsr_t) : option Z :=
  match fsr with
  | G_FSR_250DPS => Some 250
  | G_FSR_500DPS => Some 500
  | G_FSR_1000DPS => Some 1000
  | G_FSR_2000DPS => Some 2000
  | G_FSR_other _ => None
  end.

Definition accel_range (fsr : accel_fsr_t) : option Z :=
  match fsr with
  | A_FSR_2G => Some 2
  | A_FSR_4G => Some 4
  | A_FSR_8G => Some 8
  | A_FSR_16G => Some 16
  | A_FSR_other _ => None
  end.

(** *** FIFO reset *)

Definition mpu_reset_fifo (g : globals F) (w : world) : Z * world :=
  let w := tell (I2cSetDeviceAddress IMU_ADDR) w in
  let '(r, w) := i2c_write_byte INT_ENABLE 0 w in
  if truthy r then (-1, w) else
  let '(r, w) := i2c_write_byte FIFO_EN 0 w in
  if truthy r then (-1, w) else
  let '(r, w) :=
    i2c_write_byte USER_CTRL (CInt.uint8_t (Z.lor BIT_FIFO_RST BIT_DMP_RST)) w in
  if truthy r then (-1, w) else
  let w := tell (Usleep 1000) w in
  let data0 := CInt.uint8_t (Z.lor BIT_DMP_EN BIT_FIFO_EN) in
  let data1 := if truthy (enable_magnetometer (config g))
               then CInt.uint8_t (Z.lor data0 I2C_MST_EN) else data0 in
  let '(r, w) := i2c_write_byte USER_CTRL data1 w in
  if truthy r then (-1, w) else
  let '(_, w) := if truthy (enable_magnetometer (config g))
                 then i2c_write_byte FIFO_EN FIFO_SLV0_EN w
                 else i2c_write_byte FIFO_EN 0 w in
  let '(_, w) := if truthy (dmp_en g)
                 then i2c_write_byte INT_ENABLE BIT_DMP_INT_EN w
                 else i2c_write_byte INT_ENABLE 0 w in
  (0, w).

(** *** Sensor fusion *)

(** The magnetometer vector laid out for the configured orientation; [None]
    is the [default] case. *)
Definition oriented_mag (o : imu_orientation_t) (m : list F)
  : option (F * F * F) :=
  let mx := fnth TB_PITCH_X m in
  let my := fnth TB_ROLL_Y m in
  let mz := fnth TB_YAW_Z m in
  match o with
  | ORIENTATION_Z_UP => Some (mx, my, mz)
  | ORIENTATION_Z_DOWN => Some (F_neg mx, my, F_neg mz)
  | ORIENTATION_X_UP => Some (mz, my, mx)
  | ORIENTATION_X_DOWN => Some (F_neg mz, my, F_neg mx)
  | ORIENTATION_Y_UP => Some (mx, F_neg mz, my)
  | ORIENTATION_Y_DOWN => Some (mx, mz, F_neg my)
  | ORIENTATION_X_FORWARD => Some (my, F_neg mx, mz)
  | ORIENTATION_X_BACK => Some (F_neg my, mx, mz)
  | ORIENTATION_other _ => None
  end.

Definition zeros (n : nat) : list F := repeat (F_of_Z 0) n.

Definition data_fusion (g : globals F) : Z * globals F :=
  let d := data g in
  let fs := fusion g in
  let fusedEuler :=
    fset TB_YAW_Z (F_of_Z 0)
      (fset TB_ROLL_Y (fnth TB_ROLL_Y (dmp_TaitBryan d))
         (fset TB_PITCH_X (fnth TB_PITCH_X (dmp_TaitBryan d)) (zeros 3))) in
  let unfusedQuat := TaitBryanToQuaternion fusedEuler in
  match oriented_mag (orientation (config g)) (mag d) with
  | None => (-1, g)
  | Some (qx, qy, qz) =>
      let magQuat :=
        fset QUAT_Z qz (fset QUAT_Y qy (fset QUAT_X qx
          (fset QUAT_W (F_of_Z 0) (zeros 4)))) in
      let magQuat := tilt_compensate magQuat unfusedQuat in
      let lastMagYaw := newMagYaw fs in
      let newMag := F_neg (atan2f (fnth QUAT_Y magQuat) (fnth QUAT_X magQuat)) in
      let fs := mk_fusion_state F ml newMag (newDMPYaw fs)
                  (dmp_spin_counter fs) (mag_spin_counter fs)
                  (fusion_first_run fs) (low_pass fs) (high_pass fs) in
      if negb (F_eqb newMag newMag) then (-1, with_fusion fs g) else
      let d := set_compass_heading_raw newMag d in
      let lastDMPYaw := newDMPYaw fs in
      let newDMP := fnth TB_YAW_Z (dmp_TaitBryan d) in
      let mag_spin :=
        if F_ltb (F_sub newMag lastMagYaw) (F_neg PI)
        then F_add (mag_spin_counter fs) (F_of_Z 1)
        else if F_ltb PI (F_sub newMag lastMagYaw)
             then F_sub (mag_spin_counter fs) (F_of_Z 1)
             else mag_spin_counter fs in
      let dmp_spin :=
        if F_ltb (F_sub newDMP lastDMPYaw) (F_neg PI)
        then F_add (dmp_spin_counter fs) (F_of_Z 1)
        else if F_ltb PI (F_sub newDMP lastDMPYaw)
             then F_sub (dmp_spin_counter fs) (F_of_Z 1)
             else dmp_spin_counter fs in
      let '(mag_spin, dmp_spin, lp, hp) :=
        if truthy (fusion_first_run fs) then
          let dt := F_div (F_of_Z 1) (F_of_Z (dmp_sample_rate (config g))) in
          let lp := create_first_order_lowpass dt
                      (compass_time_constant (config g)) in
          let hp := create_first_order_highpass dt
                      (compass_time_constant (config g)) in
          let lp := prefill_filter_inputs lp newMag in
          let lp := prefill_filter_outputs lp newMag in
          let hp := prefill_filter_inputs hp newDMP in
          let hp := prefill_filter_outputs hp (F_of_Z 0) in
          (F_of_Z 0, F_of_Z 0, lp, hp)
        else (mag_spin, dmp_spin, low_pass fs, high_pass fs) in
      let '(lp, lo) := march_filter lp (F_add newMag (F_mul TWO_PI mag_spin)) in
      let '(hp, hi) := march_filter hp (F_add newDMP (F_mul TWO_PI dmp_spin)) in
      let newYaw := fmodf (F_add lo hi) TWO_PI in
      let newYaw := if F_ltb PI newYaw then F_sub newYaw TWO_PI
                    else if F_ltb newYaw (F_neg PI) then F_add newYaw TWO_PI
                    else newYaw in
      let d := set_compass_heading newYaw d in
      let tb := fset TB_YAW_Z newYaw (fused_TaitBryan d) in
      let tb := fset TB_PITCH_X (fnth TB_PITCH_X (dmp_TaitBryan d)) tb in
      let tb := fset TB_ROLL_Y (fnth TB_ROLL_Y (dmp_TaitBryan d)) tb in
      let d := set_fused_TaitBryan tb d in
      let d := set_fused_quat (TaitBryanToQuaternion tb) d in
      let fs := mk_fusion_state F ml newMag newDMP dmp_spin mag_spin 0 lp hp in
      (0, with_fusion fs (with_data d g))
  end.

(** *** Draining the FIFO *)

(** What the chain of tests on [fifo_count] decides: return at once on an
    empty FIFO, jump to [READ_FIFO] with the offset [i] and the two
    availability flags set, or fall through to the reset. *)
Inductive fifo_class :=
| FifoEmpty
| FifoRead (i : Z) (mag_data_available dmp_data_available : bool)
| FifoWeird.

Definition classify_fifo_count (fifo_count : Z) : fifo_class :=
  if fifo_count =? 0 then FifoEmpty
  else if fifo_count =? FIFO_LEN_NO_MAG then FifoRead 0 false true
  else if fifo_count =? FIFO_LEN_MAG then FifoRead 0 true true
  else if fifo_count =? 42 then FifoRead 7 false true
  else if fifo_count =? 63 then FifoRead 28 false true
  else if fifo_count =? 77 then FifoRead 42 false true
  else if fifo_count =? 2 * FIFO_LEN_NO_MAG
       then FifoRead FIFO_LEN_NO_MAG false true
  else if fifo_count =? 2 * FIFO_LEN_MAG
       then FifoRead FIFO_LEN_MAG true true
  else if (fifo_count =? 7) || (fifo_count =? 14) || (fifo_count =? 21)
       then FifoRead (fifo_count - 7) true false
  else FifoWeird.

(** Where the DMP data starts: [DmpAt j i] gives the offset [j] of the
    quaternion and the offset [i] of the magnetometer bytes. *)
Inductive dmp_location :=
| DmpAt (j i : Z)
| DmpOutOfBounds.

Definition locate_dmp (g : globals F) (raw : list Z) (i : Z) : dmp_location :=
  if truthy (enable_magnetometer (config g))
     && truthy (check_quaternion_validity raw (i + 7))
  then DmpAt (i + 7) i
  else if truthy (check_quaternion_validity raw i)
       then DmpAt i (i + FIFO_LEN_NO_MAG)
       else DmpOutOfBounds.

(** The three 16-bit fields that follow offset [k]. *)
Definition be16_triplet (raw : list Z) (k : Z) : list Z :=
  [be16 raw k; be16 raw (k + 2); be16 raw (k + 4)].

(** The part of [read_dmp_fifo] that stores quaternion, Tait-Bryan angles,
    accelerometer and gyroscope values read at offset [j]. *)
Definition store_dmp_data (raw : list Z) (j : Z) (d : imu_data_t F)
  : imu_data_t F :=
  let quat := [be32_long raw j; be32_long raw (j + 4);
               be32_long raw (j + 8); be32_long raw (j + 12)] in
  let d := set_dmp_quat (map F_of_Z quat) d in
  let d := set_dmp_quat (normalizeQuaternion (dmp_quat d)) d in
  let d := set_dmp_TaitBryan (quaternionToTaitBryan (dmp_quat d)) d in
  let j := j + 16 in
  let d := set_raw_accel (be16_triplet raw j) d in
  let d := set_accel
             (map (fun r => F_mul (F_of_Z r) (accel_to_ms2 d)) (raw_accel d))
             d in
  let j := j + 6 in
  let d := set_raw_gyro (be16_triplet raw j) d in
  set_gyro (map (fun r => F_mul (F_of_Z r) (gyro_to_degs d)) (raw_gyro d)) d.

(** [mag_adc], the three little-endian fields at offset [i]. *)
Definition mag_adc (raw : list Z) (i : Z) : list Z :=
  [le16 raw i; le16 raw (i + 2); le16 raw (i + 4)].

Definition mag_adc_nonzero (raw : list Z) (i : Z) : bool :=
  negb (le16 raw i =? 0) || negb (le16 raw (i + 2) =? 0)
  || negb (le16 raw (i + 4) =? 0).

(** [if(mag_scales[k]==0.0) mag_scales[k]=1.0;] for the three axes. *)
Definition fix_mag_scales (s : list F) : list F :=
  let fix1 (k : nat) (s : list F) :=
    if F_eqb (fnth k s) (F_of_Z 0) then fset k (F_of_Z 1) s else s in
  fix1 2%nat (fix1 1%nat (fix1 0%nat s)).

(** The part of [read_dmp_fifo] that reads the magnetometer bytes at
    offset [i]. *)
Definition store_mag_data (raw : list Z) (i : Z) (g : globals F) : globals F :=
  if mag_adc_nonzero raw i then
    let adc0 := le16 raw i in
    let adc1 := le16 raw (i + 2) in
    let adc2 := le16 raw (i + 4) in
    let adj := mag_factory_adjust g in
    let f0 := F_mul (F_mul (F_of_Z adc1) (fnth 1 adj)) MAG_RAW_TO_uT in
    let f1 := F_mul (F_mul (F_of_Z adc0) (fnth 0 adj)) MAG_RAW_TO_uT in
    let f2 := F_mul (F_mul (F_of_Z (- adc2)) (fnth 2 adj)) MAG_RAW_TO_uT in
    let g := with_mag_scales (fix_mag_scales (mag_scales g)) g in
    let off := mag_offsets g in
    let sc := mag_scales g in
    let m := fset 2 (F_mul (F_sub f2 (fnth 2 off)) (fnth 2 sc))
              (fset 1 (F_mul (F_sub f1 (fnth 1 off)) (fnth 1 sc))
                (fset 0 (F_mul (F_sub f0 (fnth 0 off)) (fnth 0 sc))
                   (mag (data g)))) in
    with_data (set_mag m (data g)) g
  else g.

(** The end of [READ_FIFO], once the quaternion is found at [j] and the
    magnetometer bytes at [i]: the DMP data is stored, then the magnetometer
    data, then the fusion runs; [is_new_dmp_data] decides the return
    value. *)
Definition parse_packet (g : globals F) (raw : list Z) (j i : Z)
  (mag_data_available dmp_data_available : bool) : Z * globals F :=
  let is_new_dmp_data := dmp_data_available in
  let g := if dmp_data_available
           then with_data (store_dmp_data raw j (data g)) g else g in
  let g := if mag_data_available then store_mag_data raw i g else g in
  let g := if is_new_dmp_data && truthy (enable_magnetometer (config g))
           then snd (data_fusion g) else g in
  let g := if is_new_dmp_data then with_fifo_first_run 0 g else g in
  (if is_new_dmp_data then 0 else -1, g).

(** The start of [READ_FIFO]: the buffer is cleared and the FIFO is read,
    a second time if the first read failed.  The result is the last value
    of [ret], the buffer and the world. *)
Definition fetch_fifo (fifo_count : Z) (w : world) : Z * list Z * world :=
  let raw := repeat 0 (Z.to_nat MAX_FIFO_BUFFER) in
  let '(ret, got, w) := i2c_read_bytes FIFO_R_W fifo_count w in
  let raw := buf_store raw got in
  if ret <? 0 then
    let '(ret, got, w) := i2c_read_bytes FIFO_R_W fifo_count w in
    (ret, buf_store raw got, w)
  else (ret, raw, w).

(** The code from the label [READ_FIFO] to the end of the function. *)
Definition READ_FIFO (g : globals F) (w : world) (fifo_count i : Z)
  (mag_data_available dmp_data_available : bool) : Z * globals F * world :=
  let '(ret, raw, w) := fetch_fifo fifo_count w in
  if negb (ret =? fifo_count) then (-1, g, w) else
  let located :=
    if dmp_data_available then locate_dmp g raw i else DmpAt 0 i in
  match located with
  | DmpOutOfBounds =>
      let '(_, w) := mpu_reset_fifo g w in (-1, g, w)
  | DmpAt j i =>
      let '(ret, g) :=
        parse_packet g raw j i mag_data_available dmp_data_available in
      (ret, g, w)
  end.

Definition read_dmp_fifo (g : globals F) (w : world)
  : Z * globals F * world :=
  if negb (truthy (dmp_en g)) then (-1, g, w) else
  if negb (packet_len g =? FIFO_LEN_NO_MAG)
     && negb (packet_len g =? FIFO_LEN_MAG) then (-1, g, w) else
  let w := tell (I2cSetDeviceAddress IMU_ADDR) w in
  let '(r, fifo_count, w) := i2c_read_word FIFO_COUNTH w in
  if r <? 0 then (-1, g, w) else
  match classify_fifo_count fifo_count with
  | FifoEmpty => (-1, g, w)
  | FifoRead i mag_data_available dmp_data_available =>
      READ_FIFO g w fifo_count i mag_data_available dmp_data_available
  | FifoWeird =>
      let '(_, w) := mpu_reset_fifo g w in (-1, g, w)
  end.

(** *** The interrupt thread *)

(** What the rest of the system shows to one turn of the loop of
    [imu_interrupt_handler]: whether the loop test and the test after
    [poll] see the program exiting or the thread shut down, whether [poll]
    reported the interrupt, and the value of [interrupt_func_set] (which
    [set_imu_interrupt_func] and [stop_imu_interrupt_func] change from other
    threads) when the handler reads it. *)
Record tick := mk_tick {
  stop_at_loop_test : bool;
  stop_after_poll : bool;
  revents_POLLPRI : bool;
  interrupt_func_set : Z
}.

(** What one turn did: nothing (time-out of [poll]), or a drain of the FIFO
    with the value [read_dmp_fifo] returned, the value of
    [interrupt_func_set] at that turn, and whether the user function was
    called. *)
Inductive turn :=
| TimedOut
| Drained (ret : Z) (func_set : Z) (called : bool).

(** The loop, run over the turns that the list describes.  The result is
    what each turn did, the value of [last_read_successful], and the state
    left.  The handling of the GPIO descriptor ([lseek], [read], the close
    at the end) and the time stamp of the interrupt are left out. *)
Fixpoint interrupt_loop (ticks : list tick) (first_run : Z)
  (last_read_successful : Z) (g : globals F) (w : world)
  : list turn * Z * globals F * world :=
  match ticks with
  | [] => ([], last_read_successful, g, w)
  | t :: ts =>
      if stop_at_loop_test t then ([], last_read_successful, g, w)
      else if stop_after_poll t then ([], last_read_successful, g, w)
      else if revents_POLLPRI t then
        let '(_, w) := query I2cGetInUseState w in
        let w := tell I2cClaimBus w in
        let '(ret, g, w) := read_dmp_fifo g w in
        let w := tell I2cReleaseBus w in
        let last := if ret =? 0 then 1 else 0 in
        if first_run =? 1 then
          let '(rest, l, g, w) := interrupt_loop ts 0 last g w in
          (Drained ret (interrupt_func_set t) false :: rest, l, g, w)
        else if truthy (interrupt_func_set t) && truthy last then
          let w := tell UserCallback w in
          let '(rest, l, g, w) := interrupt_loop ts first_run last g w in
          (Drained ret (interrupt_func_set t) true :: rest, l, g, w)
        else
          let '(rest, l, g, w) := interrupt_loop ts first_run last g w in
          (Drained ret (interrupt_func_set t) false :: rest, l, g, w)
      else
        let '(rest, l, g, w) :=
          interrupt_loop ts first_run last_read_successful g w in
        (TimedOut :: rest, l, g, w)
  end.

(** [imu_interrupt_handler] once the GPIO descriptor is open: [first_run]
    starts at 1 and the FIFO is reset before the loop. *)
Definition imu_interrupt_handler (ticks : list tick)
  (last_read_successful : Z) (g : globals F) (w : world)
  : list turn * Z * globals F * world :=
  let '(_, w) := mpu_reset_fifo g w in
  interrupt_loop ticks 1 last_read_successful g w.

(** The drains among the turns, in order. *)
Fixpoint drains (ts : list turn) : list (Z * Z * bool) :=
  match ts with
  | [] => []
  | TimedOut :: r => drains r
  | Drained ret func_set called :: r => (ret, func_set, called) :: drains r
  end.

(** Whether the user function was called at the first drain that
    succeeded, if there is one. *)
Definition called_at_first_success (ds : list (Z * Z * bool)) : option bool :=
  option_map snd (find (fun d => fst (fst d) =? 0) ds).

(** The turns in the result of the loop. *)
Definition turns_of (x : list turn * Z * globals F * world) : list turn :=
  fst (fst (fst x)).

(** The rule for a drain that is not the first one: the user function is
    called exactly when it is set and the drain succeeded. *)
Definition called_as_set (d : Z * Z * bool) : Prop :=
  snd d = truthy (snd (fst d)) && (fst (fst d) =? 0).

(** *** DMP memory and firmware *)

Definition mpu_write_mem (mem_addr length : Z) (data : list Z) (w : world)
  : Z * world :=
  let tmp0 := CInt.uint8_t (Z.shiftr mem_addr 8) in
  let tmp1 := CInt.uint8_t (Z.land mem_addr 255) in
  if tmp1 + length >? MPU6500_BANK_SIZE then (-1, w) else
  let '(r, w) := i2c_write_bytes MPU6500_BANK_SEL [tmp0; tmp1] w in
  if truthy r then (-1, w) else
  let '(r, w) :=
    i2c_write_bytes MPU6500_MEM_R_W (firstn (Z.to_nat length) data) w in
  if truthy r then (-1, w) else
  (0, w).

(** The third component is the buffer that receives the bytes. *)
Definition mpu_read_mem (mem_addr length : Z) (data : list Z) (w : world)
  : Z * list Z * world :=
  let tmp0 := CInt.uint8_t (Z.shiftr mem_addr 8) in
  let tmp1 := CInt.uint8_t (Z.land mem_addr 255) in
  if tmp1 + length >? MPU6500_BANK_SIZE then (-1, data, w) else
  let '(r, w) := i2c_write_bytes MPU6500_BANK_SEL [tmp0; tmp1] w in
  if truthy r then (-1, data, w) else
  let '(n, got, w) := i2c_read_bytes MPU6500_MEM_R_W length w in
  let data := buf_store data got in
  if negb (n =? length) then (-1, data, w) else
  (0, data, w).

(** [memcmp]: 0 when the first [n] bytes agree, the difference of the first
    two bytes that differ otherwise. *)
Fixpoint memcmp (a b : list Z) (n : nat) : Z :=
  match n with
  | O => 0
  | S n' =>
      if hd 0 a =? hd 0 b then memcmp (tl a) (tl b) n'
      else hd 0 a - hd 0 b
  end.

(** [&dmp_firmware[ii]] *)
Definition firmware_from (ii : Z) : list Z := skipn (Z.to_nat ii) dmp_firmware.

(** [this_write] for the chunk that starts at [ii]. *)
Definition this_write (ii : Z) : Z :=
  CInt.uint16_t (Z.min DMP_LOAD_CHUNK (DMP_CODE_SIZE - ii)).

(** The body of the [for] loop for the chunk at [ii]: write, read back,
    compare. *)
Definition firmware_chunk (ii : Z) (cur : list Z) (w : world) : chunk_result :=
  let '(r, w) := mpu_write_mem ii (this_write ii) (firmware_from ii) w in
  if truthy r then ChunkWriteFailed w else
  let '(r, cur, w) := mpu_read_mem ii (this_write ii) cur w in
  if truthy r then ChunkReadFailed w else
  if truthy (memcmp (firmware_from ii) cur (Z.to_nat (this_write ii)))
  then ChunkCorrupted w
  else ChunkVerified cur w.

(** The [for] loop of [dmp_load_motion_driver_firmware]; [fuel] bounds the
    number of turns, and [None] is a loop that has not ended within it.
    A loop that ends gives [inl] of the value returned from inside the loop,
    or [inr] when it ran to its end. *)
Fixpoint firmware_loop (fuel : nat) (ii : Z) (cur : list Z) (w : world)
  : option ((Z + unit) * world) :=
  match fuel with
  | O => None
  | S fuel' =>
      if ii <? DMP_CODE_SIZE then
        match firmware_chunk ii cur w with
        | ChunkWriteFailed w => Some (inl (-1), w)
        | ChunkReadFailed w => Some (inl (-1), w)
        | ChunkCorrupted w => Some (inl (-2), w)
        | ChunkVerified cur w =>
            firmware_loop fuel' (CInt.uint16_t (ii + this_write ii)) cur w
        end
      else Some (inr tt, w)
  end.

Definition dmp_load_motion_driver_firmware_fuel (fuel : nat) (w : world)
  : option (Z * world) :=
  let w := tell (I2cSetDeviceAddress IMU_ADDR) w in
  match firmware_loop fuel 0 (repeat 0 (Z.to_nat DMP_LOAD_CHUNK)) w with
  | None => None
  | Some (inl r, w) => Some (r, w)
  | Some (inr _, w) =>
      let tmp0 := CInt.uint8_t (Z.shiftr dmp_start_addr 8) in
      let tmp1 := CInt.uint8_t (Z.land dmp_start_addr 255) in
      let '(r, w) := i2c_write_bytes MPU6500_PRGM_START_H [tmp0; tmp1] w in
      if truthy r then Some (-1, w) else Some (0, w)
  end.

(** One turn per byte of the image is enough whenever the loop advances. *)
Definition dmp_load_motion_driver_firmware (w : world) : option (Z * world) :=
  dmp_load_motion_driver_firmware_fuel (S (Z.to_nat DMP_CODE_SIZE)) w.

(** The loader run from the world [w0] gets to the chunk at [ii], with the
    buffer [cur] and the world [w], after verifying every chunk before. *)
Inductive verified_upto (w0 : world) : Z -> list Z -> world -> Prop :=
| verified_start :
    verified_upto w0 0 (repeat 0 (Z.to_nat DMP_LOAD_CHUNK))
      (tell (I2cSetDeviceAddress IMU_ADDR) w0)
| verified_next (ii : Z) (cur : list Z) (w : world)
    (cur' : list Z) (w' : world) :
    verified_upto w0 ii cur w ->
    ii < DMP_CODE_SIZE ->
    firmware_chunk ii cur w = ChunkVerified cur' w' ->
    verified_upto w0 (CInt.uint16_t (ii + this_write ii)) cur' w'.

(** Some byte among the first [n] differs. *)
Definition differ_within (n : nat) (a b : list Z) : Prop :=
  exists k, (k < n)%nat /\ nth k a 0 <> nth k b 0.

(** *** FIFO rate *)

Definition regs_end : list Z :=
  [DINAFE; DINAF2; DINAAB; 196; DINAAA; DINAF1; DINADF; DINADF;
   187; 175; DINADF; DINADF].

Definition dmp_set_fifo_rate (rate : Z) (w : world) : c_result :=
  if rate >? DMP_MAX_RATE then Returns (-1) w else
  if rate =? 0 then DividesByZero w else
  let div := CInt.uint16_t (Z.quot DMP_MAX_RATE rate - 1) in
  let tmp0 := CInt.uint8_t (Z.land (Z.shiftr div 8) 255) in
  let tmp1 := CInt.uint8_t (Z.land div 255) in
  let '(r, w) := mpu_write_mem (CInt.uint16_t D_0_22) 2 [tmp0; tmp1] w in
  if truthy r then Returns (-1) w else
  let '(r, w) := mpu_write_mem (CInt.uint16_t CFG_6) 12 regs_end w in
  if truthy r then Returns (-1) w else
  Returns 0 w.

(** *** Gyroscope calibration *)

(** [reset_mpu9250]; its first statement, [shutdown_interrupt_thread = 1],
    is seen by the interrupt thread through [stop_at_loop_test] and
    [stop_after_poll]. *)
Definition reset_mpu9250 (w : world) : Z * world :=
  let w := tell (I2cSetDeviceAddress IMU_ADDR) w in
  let '(r, w) := i2c_write_byte PWR_MGMT_1 H_RESET w in
  let '(r, w) :=
    if truthy r then i2c_write_byte PWR_MGMT_1 H_RESET (tell (Usleep 10000) w)
    else (0, w) in
  if truthy r then (-1, w) else
  let '(r, w) := i2c_write_byte PWR_MGMT_1 0 w in
  let '(r, w) :=
    if truthy r then i2c_write_byte PWR_MGMT_1 0 (tell (Usleep 10000) w)
    else (0, w) in
  if truthy r then (-1, w) else
  (0, tell (Usleep 100000) w).

Definition write_gyro_offets_to_disk (offsets : list Z) (w : world)
  : Z * world :=
  let '(cal, w) := ask Fopen w in
  let '(cal, w) :=
    match cal with
    | Nak => ask Fopen (tell Mkdir w)
    | Ack _ => (cal, w)
    end in
  match cal with
  | Nak => (-1, w)
  | Ack _ =>
      match ask (Fprintf offsets) w with
      | (Nak, w) => (-1, tell Fclose w)
      | (Ack _, w) => (0, tell Fclose w)
      end
  end.

(** What one pass over the FIFO collected: the number of samples computed
    from the FIFO count, the samples of each axis, and the three sums. *)
Record dataset := mk_dataset {
  samples : Z;
  vx : list Z;
  vy : list Z;
  vz : list Z;
  gyro_sum : list Z
}.

(** The [for] loop that reads the samples; [None] is the [return -1] on a
    failed read.  The lists are built newest first. *)
Fixpoint read_samples (n : nat) (ds : dataset) (data : list Z) (w : world)
  : option dataset * list Z * world :=
  match n with
  | O => (Some ds, data, w)
  | S n' =>
      let '(r, got, w) := i2c_read_bytes FIFO_R_W 6 w in
      let data := buf_store data got in
      if r <? 0 then (None, data, w) else
      let x := be16 data 0 in
      let y := be16 data 2 in
      let z := be16 data 4 in
      let sum := [CInt.int32_t (nth 0 (gyro_sum ds) 0 + x);
                  CInt.int32_t (nth 1 (gyro_sum ds) 0 + y);
                  CInt.int32_t (nth 2 (gyro_sum ds) 0 + z)] in
      read_samples n'
        (mk_dataset (samples ds) (x :: vx ds) (y :: vy ds) (z :: vz ds) sum)
        data w
  end.

(** From the label [COLLECT_DATA] to the end of the [for] loop. *)
Definition collect_data (data : list Z) (w : world)
  : option dataset * list Z * world :=
  let '(_, w) := i2c_write_byte USER_CTRL 64 w in
  let c := CInt.uint8_t
             (Z.lor (Z.lor FIFO_GYRO_X_EN FIFO_GYRO_Y_EN) FIFO_GYRO_Z_EN) in
  let '(_, w) := i2c_write_byte FIFO_EN c w in
  let w := tell (Usleep 400000) w in
  let '(_, w) := i2c_write_byte FIFO_EN 0 w in
  let '(_, got, w) := i2c_read_bytes FIFO_COUNTH 2 w in
  let data := buf_store data got in
  let fifo_count :=
    CInt.int16_t (Z.lor (Z.shiftl (raw_at data 0) 8) (raw_at data 1)) in
  let samples := Z.quot fifo_count 6 in
  read_samples (Z.to_nat samples) (mk_dataset samples [] [] [] [0; 0; 0])
    data w.

Definition deviations (ds : dataset) : list F :=
  [standard_deviation (map F_of_Z (rev (vx ds)));
   standard_deviation (map F_of_Z (rev (vy ds)));
   standard_deviation (map F_of_Z (rev (vz ds)))].

(** [dev_x>GYRO_CAL_THRESH||dev_y>GYRO_CAL_THRESH||dev_z>GYRO_CAL_THRESH] *)
Definition too_noisy (ds : dataset) : bool :=
  existsb (fun dev => F_ltb (F_of_Z GYRO_CAL_THRESH) dev) (deviations ds).

Definition mean_offsets (ds : dataset) : list Z :=
  map (fun s => CInt.int16_t (Z.quot s (CInt.int32_t (samples ds))))
      (gyro_sum ds).

(** [abs(offsets[k])>GYRO_OFFSET_THRESH] for some axis [k]. *)
Definition out_of_bounds (offsets : list Z) : bool :=
  existsb (fun o => Z.abs o >? GYRO_OFFSET_THRESH) offsets.

(** The routine from the label [COLLECT_DATA] on; [fuel] bounds the number
    of passes, and [None] is a routine still re-sampling after them. *)
Fixpoint calibrate_from_COLLECT_DATA (fuel : nat) (data : list Z) (w : world)
  : option c_result :=
  match fuel with
  | O => None
  | S fuel' =>
      match collect_data data w with
      | (None, _, w) => Some (Returns (-1) w)
      | (Some ds, data, w) =>
          if too_noisy ds then calibrate_from_COLLECT_DATA fuel' data w
          else if CInt.int32_t (samples ds) =? 0 then Some (DividesByZero w)
          else
            let offsets := mean_offsets ds in
            if out_of_bounds offsets
            then calibrate_from_COLLECT_DATA fuel' data w
            else
              let w := tell I2cReleaseBus w in
              let '(r, w) := write_gyro_offets_to_disk offsets w in
              if r <? 0 then Some (Returns (-1) w) else Some (Returns 0 w)
      end
  end.

(** The routine up to the label [COLLECT_DATA]: [Some r] is a return of
    [r] before the label, [None] is an arrival at the label. *)
Definition calibration_setup (w : world) : option Z * world :=
  let '(r, w) := query I2cGetInUseState w in
  if truthy r then (Some (-1), w) else
  let '(r, w) := query (I2cInit IMU_ADDR) w in
  if truthy r then (Some (-1), w) else
  let w := tell I2cClaimBus w in
  let '(r, w) := reset_mpu9250 w in
  if r <? 0 then (Some (-1), w) else
  let '(_, w) := i2c_write_byte PWR_MGMT_1 1 w in
  let '(_, w) := i2c_write_byte PWR_MGMT_2 0 w in
  let w := tell (Usleep 200000) w in
  let '(_, w) := i2c_write_byte INT_ENABLE 0 w in
  let '(_, w) := i2c_write_byte FIFO_EN 0 w in
  let '(_, w) := i2c_write_byte PWR_MGMT_1 0 w in
  let '(_, w) := i2c_write_byte I2C_MST_CTRL 0 w in
  let '(_, w) := i2c_write_byte USER_CTRL 0 w in
  let '(_, w) := i2c_write_byte USER_CTRL 12 w in
  let w := tell (Usleep 15000) w in
  let '(_, w) := i2c_write_byte CONFIG 1 w in
  let '(_, w) := i2c_write_byte SMPLRT_DIV 4 w in
  let '(_, w) := i2c_write_byte GYRO_CONFIG 0 w in
  let '(_, w) := i2c_write_byte ACCEL_CONFIG 0 w in
  (None, w).

(** [data] is the initial content of the local array [data[6]], which the
    routine does not initialise. *)
Definition calibrate_gyro_routine (fuel : nat) (data : list Z) (w : world)
  : option c_result :=
  match calibration_setup w with
  | (Some r, w) => Some (Returns r w)
  | (None, w) => calibrate_from_COLLECT_DATA fuel data w
  end.

(** A dataset that sends the routine back to [COLLECT_DATA]. *)
Definition resampled (ds : dataset) : bool :=
  too_noisy ds
  || (negb (CInt.int32_t (samples ds) =? 0)
      && out_of_bounds (mean_offsets ds)).

(** From the state [s] at the label [COLLECT_DATA] the routine comes back
    to the label in the state [s'] after collecting, and discarding, some
    datasets. *)
Inductive resamples : list Z * world -> list Z * world -> Prop :=
| resamples_here (s : list Z * world) : resamples s s
| resamples_again (data : list Z) (w : world) (ds : dataset)
    (data' : list Z) (w' : world) (s : list Z * world) :
    collect_data data w = (Some ds, data', w') ->
    resampled ds = true ->
    resamples (data', w') s ->
    resamples (data, w) s.

(** No axis deviates by more than [GYRO_CAL_THRESH]. *)
Definition quiet (ds : dataset) : Prop :=
  Forall (fun dev => F_ltb (F_of_Z GYRO_CAL_THRESH) dev = false)
         (deviations ds).

(** No mean offset is larger than [GYRO_OFFSET_THRESH] in magnitude. *)
Definition centred (ds : dataset) : Prop :=
  Forall (fun o => Z.abs o <= GYRO_OFFSET_THRESH) (mean_offsets ds).

(** The run of [calibrate_gyro_routine] from [w] that ended in [res]
    collected, after any number of discarded datasets, a dataset that is
    quiet and centred, and then wrote the mean offsets of that dataset, and
    no other values, to the disk. *)
Definition persists_a_quiet_dataset (data : list Z) (w : world)
  (res : c_result) : Prop :=
  exists (w0 : world) (data1 : list Z) (w1 : world) (ds : dataset)
         (data2 : list Z) (w2 : world),
    calibration_setup w = (None, w0) /\
    resamples (data, w0) (data1, w1) /\
    collect_data data1 w1 = (Some ds, data2, w2) /\
    quiet ds /\ centred ds /\
    result_world res =
      snd (write_gyro_offets_to_disk (mean_offsets ds)
             (tell I2cReleaseBus w2)) /\
    forall v, In (Fprintf v) (disk_events (result_world res)) ->
              v = mean_offsets ds \/ In (Fprintf v) (disk_events w).

(** *** Names for the steps of a cycle *)

(** [read_dmp_fifo] goes on to read the FIFO count only in DMP mode and
    with a packet length of 28 or 35. *)
Definition ready (g : globals F) : bool :=
  truthy (dmp_en g)
  && ((packet_len g =? FIFO_LEN_NO_MAG) || (packet_len g =? FIFO_LEN_MAG)).

(** The read of the FIFO count at the start of a cycle. *)
Definition read_fifo_count (w : world) : Z * Z * world :=
  i2c_read_word FIFO_COUNTH (tell (I2cSetDeviceAddress IMU_ADDR) w).

End Driver.

(** ** A bench to run the driver on

    Concrete parameters for test runs: exact rational arithmetic for the
    floating-point operations, the register addresses of the MPU-9250 data
    sheet, and a 40-byte image loaded in chunks of 16.  The functions the C
    library computes with [sqrt] and [atan2] are replaced by stand-ins; the
    runs below do not depend on them. *)
Module Bench.

Definition q_float : FloatOps Q := {|
  F_of_Z := inject_Z;
  F_9_807 := Qmake 9807 1000;
  MAG_RAW_TO_uT := Qmake 4912 32760;
  PI := Qmake 355 113;
  TWO_PI := Qmake 710 113;
  F_add := fun a b => Qred (Qplus a b);
  F_sub := fun a b => Qred (Qminus a b);
  F_mul := fun a b => Qred (Qmult a b);
  F_div := fun a b => Qred (Qdiv a b);
  F_neg := fun a => Qred (Qopp a);
  F_eqb := Qeq_bool;
  F_ltb := fun a b => negb (Qle_bool b a);
  atan2f := fun _ _ => inject_Z 0;
  fmodf := fun a _ => a
|}.

(** The mean of the squared distances to the mean, and the integer part of
    its square root as the deviation. *)
Definition q_mean (v : list Q) : Q :=
  Qdiv (fold_right Qplus (inject_Z 0) v) (inject_Z (Z.of_nat (length v))).

Definition q_deviation (v : list Q) : Q :=
  let m := q_mean v in
  let var := q_mean (map (fun x => Qmult (Qminus x m) (Qminus x m)) v) in
  inject_Z (Z.sqrt (Qnum var / Z.pos (Qden var))).

Definition q_math : MathLib Q := {|
  d_filter_t := Q;
  normalizeQuaternion := fun q => q;
  quaternionToTaitBryan := fun q => firstn 3 q;
  TaitBryanToQuaternion := fun t => inject_Z 0 :: t;
  tilt_compensate := fun m _ => m;
  create_first_order_lowpass := fun _ _ => inject_Z 0;
  create_first_order_highpass := fun _ _ => inject_Z 0;
  prefill_filter_inputs := fun f _ => f;
  prefill_filter_outputs := fun _ x => x;
  march_filter := fun f x => (f, x);
  standard_deviation := q_deviation
|}.

Definition image : list Z := map (fun k => Z.of_nat k * 5 + 1) (seq 0 40).

Definition header : Header := {|
  IMU_ADDR := 104;
  INT_ENABLE := 56; FIFO_EN := 35; USER_CTRL := 106;
  FIFO_COUNTH := 114; FIFO_R_W := 116;
  PWR_MGMT_1 := 107; PWR_MGMT_2 := 108; I2C_MST_CTRL := 36;
  CONFIG := 26; SMPLRT_DIV := 25; GYRO_CONFIG := 27; ACCEL_CONFIG := 28;
  H_RESET := 128;
  BIT_FIFO_RST := 4; BIT_DMP_RST := 8; BIT_DMP_EN := 128; BIT_FIFO_EN := 64;
  I2C_MST_EN := 32; FIFO_SLV0_EN := 1; BIT_DMP_INT_EN := 2;
  FIFO_GYRO_X_EN := 64; FIFO_GYRO_Y_EN := 32; FIFO_GYRO_Z_EN := 16;
  GYRO_FSR_CFG_250 := 0; GYRO_FSR_CFG_500 := 8;
  GYRO_FSR_CFG_1000 := 16; GYRO_FSR_CFG_2000 := 24; FCHOICE_B_DLPF_EN := 0;
  ACCEL_FSR_CFG_2G := 0; ACCEL_FSR_CFG_4G := 8;
  ACCEL_FSR_CFG_8G := 16; ACCEL_FSR_CFG_16G := 24;
  MAX_FIFO_BUFFER := 128;
  MPU6500_BANK_SIZE := 256; MPU6500_BANK_SEL := 109; MPU6500_MEM_R_W := 111;
  MPU6500_PRGM_START_H := 112;
  DMP_CODE_SIZE := 40; DMP_LOAD_CHUNK := 16;
  dmp_firmware := image; dmp_start_addr := 1024;
  DMP_MAX_RATE := 200; D_0_22 := 534; CFG_6 := 2753;
  DINAFE := 254; DINAF2 := 242; DINAAB := 171; DINAAA := 170;
  DINAF1 := 241; DINADF := 223;
  TB_PITCH_X := 0; TB_ROLL_Y := 1; TB_YAW_Z := 2;
  QUAT_W := 0; QUAT_X := 1; QUAT_Y := 2; QUAT_Z := 3
|}.

Definition q0 : Q := inject_Z 0.

Definition sample0 : imu_data_t Q :=
  mk_imu_data Q [q0; q0; q0] [q0; q0; q0] [q0; q0; q0] q0
    [0; 0; 0] [0; 0; 0] (Qmake 9807 16384000) (Qmake 2000 32768)
    [q0; q0; q0; q0] [q0; q0; q0] [q0; q0; q0; q0] [q0; q0; q0] q0 q0.

Definition config0 (enable_mag : Z) : imu_config_t Q :=
  mk_imu_config Q A_FSR_4G G_FSR_1000DPS 2 2 enable_mag 100
    ORIENTATION_Z_UP (inject_Z 5) 98 0.

Definition fusion0 : fusion_state Q (ml := q_math) :=
  mk_fusion_state Q q_math q0 q0 q0 q0 1 q0 q0.

(** The globals as [initialize_imu_dmp] leaves them, with the magnetometer
    enabled or not. *)
Definition globals0 (enable_mag : Z) : globals Q (ml := q_math) :=
  mk_globals Q q_math (config0 enable_mag) 1
    (if enable_mag =? 0 then 28 else 35)
    [inject_Z 1; inject_Z 1; inject_Z 1] [q0; q0; q0] [q0; q0; q0]
    sample0 1 fusion0.

(** A packet without magnetometer bytes: the quaternion [2^30, 0, 0, 0],
    accelerometer [1, 2, 3], gyroscope [4, 5, 6]. *)
Definition packet28 : list Z :=
  [64; 0; 0; 0; 0; 0; 0; 0; 0; 0; 0; 0; 0; 0; 0; 0;
   0; 1; 0; 2; 0; 3; 0; 4; 0; 5; 0; 6].

(** Seven magnetometer bytes: the fields [1, 2, 3] and a status byte. *)
Definition mag7 : list Z := [1; 0; 2; 0; 3; 0; 0].

(** Seven magnetometer bytes whose three fields are zero. *)
Definition mag7_zero : list Z := [0; 0; 0; 0; 0; 0; 16].

(** 28 bytes that hold no valid quaternion at offset 0 or 7. *)
Definition garbage28 : list Z := repeat 255 28.

(** The answers to the six register writes of [mpu_reset_fifo]. *)
Definition reset_acks : list reply := repeat (Ack []) 6.

(** Two interrupts after start-up with a user function set: at the first
    the FIFO is still empty, at the second it holds one packet. *)
Definition two_interrupts : list tick :=
  [mk_tick false false true 1; mk_tick false false true 1].

Definition empty_then_packet : world :=
  mkWorld (reset_acks ++ [Ack [0]; Ack [0]; Ack [0]; Ack [28]; Ack packet28])
          [].

(** The answers of a device that takes every write and returns the image
    on read-back, for the chunks at 0, 16 and 32; [flip] is added to the
    byte at [pos] of the read-back of the chunk at 16. *)
Definition chunk_replies (ii len : nat) (pos : nat) (flip : Z) : list reply :=
  let back := firstn len (skipn ii image) in
  let back := if Nat.eqb ii 16
              then firstn pos back ++ (nth pos back 0 + flip)
                     :: skipn (S pos) back
              else back in
  [Ack []; Ack []; Ack []; Ack back].

Definition loader_world (pos : nat) (flip : Z) : world :=
  mkWorld (chunk_replies 0 16 pos flip ++ chunk_replies 16 16 pos flip
           ++ chunk_replies 32 8 pos flip ++ [Ack []]) [].

(** One pass of the gyroscope calibration over two samples whose x values
    are [x1] and [x2] (below 256), the other axes at rest. *)
Definition pass_replies (x1 x2 : Z) : list reply :=
  [Ack []; Ack []; Ack []; Ack [0; 12];
   Ack [0; x1; 0; 0; 0; 0]; Ack [0; x2; 0; 0; 0; 0]].

(** A free bus and a device that takes the set-up writes, a noisy pass, a
    quiet pass, and a file system that takes the write. *)
Definition calibration_world : world :=
  mkWorld ([Ack [0]; Ack [0]] ++ repeat (Ack []) 14
           ++ pass_replies 0 200 ++ pass_replies 10 10
           ++ [Ack []; Ack []]) [].

Definition calibration_result : c_result :=
  match calibrate_gyro_routine (fl := q_float) (ml := q_math) (hdr := header)
          5 (repeat 0 6) calibration_world with
  | Some res => res
  | None => DividesByZero calibration_world
  end.

End Bench.

(** ** The rest of the driver

    The functions of [mpu9250.c] around the ones above: configuration of the
    sample rate, the filters and the bypass, the orientation scalars, the
    DMP feature set, the one-shot reads and the loading of the gyroscope
    offsets. *)

(** The constants of the headers that these functions use. *)
Class Header2 := {
  ACCEL_CONFIG_2 : Z; INT_PIN_CFG : Z;
  ACCEL_XOUT_H : Z; GYRO_XOUT_H : Z; XG_OFFSET_H : Z;
  FIFO_MODE_REPLACE_OLD : Z; ACCEL_FCHOICE_1KHZ : Z; BIT_FIFO_SIZE_1024 : Z;
  FIFO_EN_BIT : Z; LATCH_INT_EN : Z; INT_ANYRD_CLEAR : Z;
  ACTL_ACTIVE_LOW : Z; BYPASS_EN : Z;
  AK8963_ADDR : Z; AK8963_CNTL : Z; MAG_POWER_DN : Z;
  DMP_MIN_RATE : Z;
  FCFG_1 : Z; FCFG_2 : Z; FCFG_3 : Z; FCFG_7 : Z;
  DINA4C : Z; DINACD : Z; DINA6C : Z; DINA0C : Z; DINAC9 : Z; DINA2C : Z;
  DINA36 : Z; DINA56 : Z; DINA76 : Z; DINA26 : Z; DINA46 : Z; DINA66 : Z;
  D_0_104 : Z; GYRO_SF : Z; CFG_15 : Z; CFG_27 : Z; CFG_20 : Z;
  CFG_ANDROID_ORIENT_INT : Z; CFG_GYRO_RAW_DATA : Z; CFG_MOTION_BIAS : Z;
  CFG_8 : Z; CFG_LP_QUAT : Z; CFG_FIFO_ON_EVENT : Z;
  DINA20 : Z; DINA28 : Z; DINA30 : Z; DINA38 : Z;
  DINAC0 : Z; DINA80 : Z; DINAC2 : Z; DINA90 : Z;
  DINBC0 : Z; DINBC2 : Z; DINBC4 : Z; DINBC6 : Z;
  DMP_FEATURE_TAP : Z; DMP_FEATURE_ANDROID_ORIENT : Z;
  DMP_FEATURE_LP_QUAT : Z; DMP_FEATURE_6X_LP_QUAT : Z;
  DMP_FEATURE_GYRO_CAL : Z; DMP_FEATURE_SEND_RAW_ACCEL : Z;
  DMP_FEATURE_SEND_RAW_GYRO : Z; DMP_FEATURE_SEND_CAL_GYRO : Z;
  DMP_FEATURE_SEND_ANY_GYRO : Z;
  DMP_INT_CONTINUOUS : Z; DMP_INT_GESTURE : Z
}.

Inductive gyro_dlpf_t :=
| GYRO_DLPF_OFF | GYRO_DLPF_184 | GYRO_DLPF_92 | GYRO_DLPF_41
| GYRO_DLPF_20 | GYRO_DLPF_10 | GYRO_DLPF_5
| GYRO_DLPF_other (v : Z).

Inductive accel_dlpf_t :=
| ACCEL_DLPF_OFF | ACCEL_DLPF_184 | ACCEL_DLPF_92 | ACCEL_DLPF_41
| ACCEL_DLPF_20 | ACCEL_DLPF_10 | ACCEL_DLPF_5
| ACCEL_DLPF_other (v : Z).


(** The first entry of a row that is not zero: its position and whether it
    is negative. *)
Fixpoint first_nonzero (row : list Z) : option (nat * bool) :=
  match row with
  | [] => None
  | x :: r =>
      if x =? 0
      then option_map (fun p => (S (fst p), snd p)) (first_nonzero r)
      else Some (0%nat, x <? 0)
  end.

(** The comparison and the literal that the check of the compass time
    constant uses. *)
Class FloatOps2 (F : Type) := {
  F_0_1 : F;
  F_leb : F -> F -> bool
}.

(** How the checks at the start of [initialize_imu_dmp] end. *)
Inductive check_result :=
| CheckFails
| CheckDividesByZero
| CheckPasses.

Section Driver2.
Context {F : Type} {fl : FloatOps F} {ml : MathLib F}
        {hdr : Header} {hdr2 : Header2}.

Definition with_packet_len (v : Z) (g : globals F) : globals F :=
  mk_globals F ml (config g) (dmp_en g) v (mag_factory_adjust g)
    (mag_offsets g) (mag_scales g) (data g) (fifo_first_run g) (fusion g).

(** *** Sample rate and filters *)

Definition mpu_set_sample_rate (rate : Z) (w : world) : Z * world :=
  if (rate >? 1000) || (rate <? 4) then (-1, w) else
  let div := CInt.uint8_t (Z.quot 1000 rate - 1) in
  let '(r, w) := i2c_write_byte SMPLRT_DIV div w in
  if truthy r then (-1, w) else (0, w).

Definition set_gyro_dlpf (dlpf : gyro_dlpf_t) (w : world) : Z * world :=
  let c := CInt.uint8_t FIFO_MODE_REPLACE_OLD in
  let go (bits : Z) := i2c_write_byte CONFIG (CInt.uint8_t (Z.lor c bits)) w in
  match dlpf with
  | GYRO_DLPF_OFF => go 1
  | GYRO_DLPF_184 => go 1
  | GYRO_DLPF_92 => go 2
  | GYRO_DLPF_41 => go 3
  | GYRO_DLPF_20 => go 4
  | GYRO_DLPF_10 => go 5
  | GYRO_DLPF_5 => go 6
  | GYRO_DLPF_other _ => (-1, w)
  end.

Definition set_accel_dlpf (dlpf : accel_dlpf_t) (w : world) : Z * world :=
  let c := CInt.uint8_t (Z.lor ACCEL_FCHOICE_1KHZ BIT_FIFO_SIZE_1024) in
  let go (bits : Z) :=
    i2c_write_byte ACCEL_CONFIG_2 (CInt.uint8_t (Z.lor c bits)) w in
  match dlpf with
  | ACCEL_DLPF_OFF => go 7
  | ACCEL_DLPF_184 => go 1
  | ACCEL_DLPF_92 => go 2
  | ACCEL_DLPF_41 => go 3
  | ACCEL_DLPF_20 => go 4
  | ACCEL_DLPF_10 => go 5
  | ACCEL_DLPF_5 => go 6
  | ACCEL_DLPF_other _ => (-1, w)
  end.

(** *** Bypass *)

(** [mpu_set_bypass]; the second component is the value of the global
    [bypass_en] after the call, [bypass_en] being its value before. *)
Definition mpu_set_bypass (g : globals F) (bypass_en : Z) (bypass_on : Z)
  (w : world) : Z * Z * world :=
  let tmp := 0 in
  let tmp := if truthy (dmp_en g)
             then CInt.uint8_t (Z.lor tmp FIFO_EN_BIT) else tmp in
  let tmp := if negb (truthy bypass_on)
             then CInt.uint8_t (Z.lor tmp I2C_MST_EN) else tmp in
  let '(r, w) := i2c_write_byte USER_CTRL tmp w in
  if truthy r then (-1, bypass_en, w) else
  let w := tell (Usleep 3000) w in
  let tmp := CInt.uint8_t
               (Z.lor (Z.lor LATCH_INT_EN INT_ANYRD_CLEAR) ACTL_ACTIVE_LOW) in
  let tmp := CInt.uint8_t ACTL_ACTIVE_LOW in
  let tmp := if truthy bypass_on
             then CInt.uint8_t (Z.lor tmp BYPASS_EN) else tmp in
  let '(r, w) := i2c_write_byte INT_PIN_CFG tmp w in
  if truthy r then (-1, bypass_en, w) else
  (0, (if truthy bypass_on then 1 else 0), w).

Definition power_down_magnetometer (g : globals F) (bypass_en : Z) (w : world)
  : Z * Z * world :=
  let w := tell (I2cSetDeviceAddress IMU_ADDR) w in
  let '(r, bypass_en, w) := mpu_set_bypass g bypass_en 1 w in
  if truthy r then (-1, bypass_en, w) else
  let w := tell (I2cSetDeviceAddress AK8963_ADDR) w in
  let '(r, w) := i2c_write_byte AK8963_CNTL MAG_POWER_DN w in
  if r <? 0 then (-1, bypass_en, w) else
  let w := tell (I2cSetDeviceAddress IMU_ADDR) w in
  let '(r, bypass_en, w) := mpu_set_bypass g bypass_en 0 w in
  if truthy r then (-1, bypass_en, w) else
  (0, bypass_en, w).

(** *** Orientation *)

(** [row[k]] for an array of [signed char]. *)
Definition row_at (row : list Z) (k : nat) : Z := nth k row 0.

Definition inv_row_2_scale (row : list Z) : Z :=
  if row_at row 0 >? 0 then 0
  else if row_at row 0 <? 0 then 4
  else if row_at row 1 >? 0 then 1
  else if row_at row 1 <? 0 then 5
  else if row_at row 2 >? 0 then 2
  else if row_at row 2 <? 0 then 6
  else 7.

Definition inv_orientation_matrix_to_scalar (mtx : list Z) : Z :=
  let scalar := CInt.uint16_t (inv_row_2_scale mtx) in
  let scalar :=
    CInt.uint16_t
      (Z.lor scalar (Z.shiftl (inv_row_2_scale (skipn 3 mtx)) 3)) in
  CInt.uint16_t (Z.lor scalar (Z.shiftl (inv_row_2_scale (skipn 6 mtx)) 6)).








(** *** DMP features *)

Definition dmp_enable_gyro_cal (enable : Z) (w : world) : Z * world :=
  if truthy enable
  then mpu_write_mem (CInt.uint16_t CFG_MOTION_BIAS) 9
         [184; 170; 179; 141; 180; 152; 13; 53; 93] w
  else mpu_write_mem (CInt.uint16_t CFG_MOTION_BIAS) 9
         [184; 170; 170; 170; 176; 136; 195; 197; 199] w.

Definition dmp_enable_6x_lp_quat (enable : Z) (w : world) : Z * world :=
  let regs := if truthy enable
              then map CInt.uint8_t [DINA20; DINA28; DINA30; DINA38]
              else repeat 163 4 in
  let '(_, w) := mpu_write_mem (CInt.uint16_t CFG_8) 4 regs w in
  (0, w).

Definition dmp_enable_lp_quat (enable : Z) (w : world) : Z * world :=
  let regs := if truthy enable
              then map CInt.uint8_t [DINBC0; DINBC2; DINBC4; DINBC6]
              else repeat 139 4 in
  let '(_, w) := mpu_write_mem (CInt.uint16_t CFG_LP_QUAT) 4 regs w in
  (0, w).

(** [packet_len] as the end of [dmp_enable_feature] computes it. *)
Definition feature_packet_len (mask : Z) : Z :=
  let len := 0 in
  let len := if truthy (Z.land mask DMP_FEATURE_SEND_RAW_ACCEL)
             then len + 6 else len in
  let len := if truthy (Z.land mask DMP_FEATURE_SEND_ANY_GYRO)
             then len + 6 else len in
  if truthy (Z.land mask (Z.lor DMP_FEATURE_LP_QUAT DMP_FEATURE_6X_LP_QUAT))
  then len + 16 else len.

Definition dmp_enable_feature (mask : Z) (g : globals F) (w : world)
  : Z * globals F * world :=
  let tmp := [CInt.uint8_t (Z.land (Z.shiftr GYRO_SF 24) 255);
              CInt.uint8_t (Z.land (Z.shiftr GYRO_SF 16) 255);
              CInt.uint8_t (Z.land (Z.shiftr GYRO_SF 8) 255);
              CInt.uint8_t (Z.land GYRO_SF 255)] in
  let '(_, w) := mpu_write_mem (CInt.uint16_t D_0_104) 4 tmp w in
  let accel := if truthy (Z.land mask DMP_FEATURE_SEND_RAW_ACCEL)
               then [192; 200; 194] else [163; 163; 163] in
  let gyro := if truthy (Z.land mask DMP_FEATURE_SEND_ANY_GYRO)
              then [196; 204; 198] else [163; 163; 163] in
  let tmp := [163] ++ accel ++ gyro ++ [163; 163; 163] in
  let '(_, w) := mpu_write_mem (CInt.uint16_t CFG_15) 10 tmp w in
  let tmp0 :=
    if truthy (Z.land mask
                 (Z.lor DMP_FEATURE_TAP DMP_FEATURE_ANDROID_ORIENT))
    then CInt.uint8_t DINA20 else 216 in
  let tmp := tmp0 :: skipn 1 tmp in
  let '(_, w) := mpu_write_mem (CInt.uint16_t CFG_27) 1 tmp w in
  let '(_, w) := if truthy (Z.land mask DMP_FEATURE_GYRO_CAL)
                 then dmp_enable_gyro_cal 1 w
                 else dmp_enable_gyro_cal 0 w in
  let '(tmp, w) :=
    if truthy (Z.land mask DMP_FEATURE_SEND_ANY_GYRO) then
      let tmp4 :=
        if truthy (Z.land mask DMP_FEATURE_SEND_CAL_GYRO)
        then [178; 139; 182; 155]
        else map CInt.uint8_t [DINAC0; DINA80; DINAC2; DINA90] in
      let tmp := tmp4 ++ skipn 4 tmp in
      let '(_, w) := mpu_write_mem (CInt.uint16_t CFG_GYRO_RAW_DATA) 4 tmp w in
      (tmp, w)
    else (tmp, w) in
  let tmp := 216 :: skipn 1 tmp in
  let '(_, w) := mpu_write_mem (CInt.uint16_t CFG_20) 1 tmp w in
  let tmp := 216 :: skipn 1 tmp in
  let '(_, w) :=
    mpu_write_mem (CInt.uint16_t CFG_ANDROID_ORIENT_INT) 1 tmp w in
  let '(_, w) := if truthy (Z.land mask DMP_FEATURE_LP_QUAT)
                 then dmp_enable_lp_quat 1 w
                 else dmp_enable_lp_quat 0 w in
  let '(_, w) := if truthy (Z.land mask DMP_FEATURE_6X_LP_QUAT)
                 then dmp_enable_6x_lp_quat 1 w
                 else dmp_enable_6x_lp_quat 0 w in
  let '(_, w) := mpu_reset_fifo g w in
  (0, with_packet_len (feature_packet_len mask) g, w).

Definition regs_continuous : list Z :=
  [216; 177; 185; 243; 139; 163; 145; 182; 9; 180; 217].

Definition regs_gesture : list Z :=
  [218; 177; 185; 243; 139; 163; 145; 182; 218; 180; 218].

Definition dmp_set_interrupt_mode (mode : Z) (w : world) : Z * world :=
  if mode =? DMP_INT_CONTINUOUS
  then mpu_write_mem (CInt.uint16_t CFG_FIFO_ON_EVENT) 11 regs_continuous w
  else if mode =? DMP_INT_GESTURE
  then mpu_write_mem (CInt.uint16_t CFG_FIFO_ON_EVENT) 11 regs_gesture w
  else (-1, w).

Definition set_int_enable (enable : Z) (w : world) : Z * world :=
  let tmp := if truthy enable then CInt.uint8_t BIT_DMP_INT_EN else 0 in
  let '(r, w) := i2c_write_byte INT_ENABLE tmp w in
  if truthy r then (-1, w) else
  let '(r, w) := i2c_write_byte FIFO_EN 0 w in
  if truthy r then (-1, w) else
  (0, w).

Definition mpu_set_dmp_state (g : globals F) (bypass_en : Z) (enable : Z)
  (w : world) : Z * Z * world :=
  if truthy enable then
    let '(_, w) := set_int_enable 0 w in
    let '(_, bypass_en, w) := mpu_set_bypass g bypass_en 0 w in
    let '(_, w) := i2c_write_byte FIFO_EN 0 w in
    let '(_, w) := set_int_enable 1 w in
    let '(_, w) := mpu_reset_fifo g w in
    (0, bypass_en, w)
  else
    let '(_, w) := set_int_enable 0 w in
    let '(_, w) := i2c_write_byte FIFO_EN 0 w in
    let '(_, w) := mpu_reset_fifo g w in
    (0, bypass_en, w).

(** *** One-shot reads *)

(** [read_accel_data]; [raw] is the content of the local array [raw[6]]
    before the read, which the function does not initialise. *)
Definition read_accel_data (raw : list Z) (d : imu_data_t F) (w : world)
  : Z * imu_data_t F * world :=
  let w := tell (I2cSetDeviceAddress IMU_ADDR) w in
  let '(r, got, w) := i2c_read_bytes ACCEL_XOUT_H 6 w in
  let raw := buf_store raw got in
  if r <? 0 then (-1, d, w) else
  let d := set_raw_accel (be16_triplet raw 0) d in
  let d := set_accel
             (map (fun v => F_mul (F_of_Z v) (accel_to_ms2 d)) (raw_accel d))
             d in
  (0, d, w).

Definition read_gyro_data (raw : list Z) (d : imu_data_t F) (w : world)
  : Z * imu_data_t F * world :=
  let w := tell (I2cSetDeviceAddress IMU_ADDR) w in
  let '(r, got, w) := i2c_read_bytes GYRO_XOUT_H 6 w in
  let raw := buf_store raw got in
  if r <? 0 then (-1, d, w) else
  let d := set_raw_gyro (be16_triplet raw 0) d in
  let d := set_gyro
             (map (fun v => F_mul (F_of_Z v) (gyro_to_degs d)) (raw_gyro d))
             d in
  (0, d, w).

(** *** Loading the gyroscope offsets *)

(** The two bytes [(-x/4 >> 8) & 0xFF] and [(-x/4) & 0xFF] for an [int]
    offset [x]. *)
Definition offset_bytes (x : Z) : list Z :=
  let q := Z.quot (CInt.int32_t (- x)) 4 in
  [CInt.uint8_t (Z.land (Z.shiftr q 8) 255); CInt.uint8_t (Z.land q 255)].

(** [load_gyro_offets]; [file] is what opening and scanning the calibration
    file gave: [None] when the file could not be opened, the three integers
    read otherwise. *)
Definition load_gyro_offets (file : option (Z * Z * Z)) (w : world)
  : Z * world :=
  let '(x, y, z) := match file with
                    | None => (0, 0, 0)
                    | Some v => v
                    end in
  let data := offset_bytes x ++ offset_bytes y ++ offset_bytes z in
  let '(r, w) := i2c_write_bytes XG_OFFSET_H data w in
  if truthy r then (-1, w) else (0, w).

(** *** The checks at the start of [initialize_imu_dmp] *)

Definition initialize_imu_dmp_checks {fl2 : FloatOps2 F}
  (conf : imu_config_t F) : check_result :=
  if (dmp_sample_rate conf >? DMP_MAX_RATE)
     || (dmp_sample_rate conf <? DMP_MIN_RATE) then CheckFails else
  if dmp_sample_rate conf =? 0 then CheckDividesByZero else
  if negb (Z.rem DMP_MAX_RATE (dmp_sample_rate conf) =? 0) then CheckFails else
  if truthy (enable_magnetometer conf)
     && F_leb (compass_time_constant conf) F_0_1 then CheckFails else
  CheckPasses.

End Driver2.

(** Values for the second set of constants, to run the driver on. *)
Module Bench2.

Definition header2 : Header2 := {|
  ACCEL_CONFIG_2 := 29; INT_PIN_CFG := 55;
  ACCEL_XOUT_H := 59; GYRO_XOUT_H := 67; XG_OFFSET_H := 19;
  FIFO_MODE_REPLACE_OLD := 0; ACCEL_FCHOICE_1KHZ := 0;
  BIT_FIFO_SIZE_1024 := 64;
  FIFO_EN_BIT := 64; LATCH_INT_EN := 32; INT_ANYRD_CLEAR := 16;
  ACTL_ACTIVE_LOW := 128; BYPASS_EN := 2;
  AK8963_ADDR := 12; AK8963_CNTL := 10; MAG_POWER_DN := 0;
  DMP_MIN_RATE := 4;
  FCFG_1 := 1062; FCFG_2 := 1066; FCFG_3 := 1088; FCFG_7 := 1073;
  DINA4C := 76; DINACD := 205; DINA6C := 108;
  DINA0C := 12; DINAC9 := 201; DINA2C := 44;
  DINA36 := 54; DINA56 := 86; DINA76 := 118;
  DINA26 := 38; DINA46 := 70; DINA66 := 102;
  D_0_104 := 616; GYRO_SF := 46850825; CFG_15 := 2727; CFG_27 := 2742;
  CFG_20 := 2224; CFG_ANDROID_ORIENT_INT := 1853;
  CFG_GYRO_RAW_DATA := 2722; CFG_MOTION_BIAS := 1208;
  CFG_8 := 2718; CFG_LP_QUAT := 2712; CFG_FIFO_ON_EVENT := 2690;
  DINA20 := 32; DINA28 := 40; DINA30 := 48; DINA38 := 56;
  DINAC0 := 176; DINA80 := 128; DINAC2 := 178; DINA90 := 144;
  DINBC0 := 192; DINBC2 := 194; DINBC4 := 196; DINBC6 := 198;
  DMP_FEATURE_TAP := 1; DMP_FEATURE_ANDROID_ORIENT := 2;
  DMP_FEATURE_LP_QUAT := 4; DMP_FEATURE_6X_LP_QUAT := 16;
  DMP_FEATURE_GYRO_CAL := 32; DMP_FEATURE_SEND_RAW_ACCEL := 64;
  DMP_FEATURE_SEND_RAW_GYRO := 128; DMP_FEATURE_SEND_CAL_GYRO := 256;
  DMP_FEATURE_SEND_ANY_GYRO := 384;
  DMP_INT_CONTINUOUS := 2; DMP_INT_GESTURE := 1
|}.

Definition q_float2 : FloatOps2 Q := {|
  F_0_1 := Qmake 1 10;
  F_leb := Qle_bool
|}.

End Bench2.

(** ** Names for the properties of the rest of the driver *)

(** A request that reads from the device or selects it. *)
Definition is_read (e : event) : Prop :=
  match e with
  | I2cSetDeviceAddress _ | I2cReadWord _ | I2cReadBytes _ _ => True
  | _ => False
  end.

(** The flag that [was_last_read_successful] reports, from the flag before
    the loop and the drains the loop made. *)
Fixpoint last_flag (l : Z) (ts : list turn) : Z :=
  match ts with
  | [] => l
  | TimedOut :: r => last_flag l r
  | Drained ret _ _ :: r => last_flag (if ret =? 0 then 1 else 0) r
  end.

(** The device the bus is addressed to after the requests of a log. *)
Fixpoint addressed (l : list event) : option Z :=
  match l with
  | [] => None
  | I2cSetDeviceAddress a :: _ => Some a
  | _ :: r => addressed r
  end.

(** The bytes written to the register [reg], in the order of the writes. *)
Fixpoint written_to (reg : Z) (l : list event) : list Z :=
  match l with
  | [] => []
  | I2cWriteBytes r data :: rest =>
      if r =? reg then written_to reg rest ++ data else written_to reg rest
  | _ :: rest => written_to reg rest
  end.

(** The requests that claim or release the bus. *)
Definition is_hold (e : event) : bool :=
  match e with
  | I2cClaimBus | I2cReleaseBus => true
  | _ => false
  end.

(** The claims and releases made so far, the newest first. *)
Definition bus_events (w : world) : list event := filter is_hold (log w).


(** ** The ways a calibration ends *)

Section Outcomes.
Context {F : Type} {fl : FloatOps F} {ml : MathLib F} {hdr : Header}.

(** How a run of [calibrate_gyro_routine] from [w] that ended in [res] got
    there, step by step, with what each way out leaves of the claim on the
    bus and on the disk. *)
Definition calibration_outcome (data : list Z) (w : world) (res : c_result)
  : Prop :=
  let '(in_use, w1) := query I2cGetInUseState w in
  if truthy in_use
  then res = Returns (-1) w1 /\ bus_events w1 = bus_events w
  else
    let '(init, w2) := query (I2cInit IMU_ADDR) w1 in
    if truthy init
    then res = Returns (-1) w2 /\ bus_events w2 = bus_events w
    else
      let '(reset, w3) := reset_mpu9250 (tell I2cClaimBus w2) in
      if reset <? 0
      then res = Returns (-1) w3 /\
           bus_events w3 = I2cClaimBus :: bus_events w /\
           disk_events w3 = disk_events w
      else
        exists (w0 : world) (data1 : list Z) (w4 : world)
               (pass : option dataset) (data2 : list Z) (w5 : world),
          calibration_setup w = (None, w0) /\
          resamples (data, w0) (data1, w4) /\
          collect_data data1 w4 = (pass, data2, w5) /\
          bus_events w5 = I2cClaimBus :: bus_events w /\
          disk_events w5 = disk_events w /\
          match pass with
          | None => res = Returns (-1) w5
          | Some ds =>
              quiet ds /\
              if CInt.int32_t (samples ds) =? 0
              then res = DividesByZero w5
              else
                centred ds /\
                let '(written, w6) :=
                  write_gyro_offets_to_disk (mean_offsets ds)
                    (tell I2cReleaseBus w5) in
                res = Returns (if written <? 0 then -1 else 0) w6 /\
                bus_events w6
                = I2cReleaseBus :: I2cClaimBus :: bus_events w
          end.

End Outcomes.

(** * Part II: lemmas and theorems *)

Module CIntFacts.
Import CInt.

Lemma pow2_double w : 0 < w -> 2 ^ w = 2 * 2 ^ (w - 1).
Proof.
  intros Hw. replace w with (Z.succ (w - 1)) at 1 by lia.
  rewrite Z.pow_succ_r by lia. reflexivity.
Qed.

Lemma signed_small w x :
  0 < w -> - 2 ^ (w - 1) <= x < 2 ^ (w - 1) -> signed w x = x.
Proof.
  intros Hw Hx. unfold signed. pose proof (pow2_double w Hw) as E.
  rewrite Z.mod_small by lia. lia.
Qed.

Lemma signed_range w x :
  0 < w -> - 2 ^ (w - 1) <= signed w x < 2 ^ (w - 1).
Proof.
  intros Hw. unfold signed. pose proof (pow2_double w Hw) as E.
  assert (P : 0 < 2 ^ (w - 1)) by (apply Z.pow_pos_nonneg; lia).
  pose proof (Z.mod_pos_bound (x + 2 ^ (w - 1)) (2 ^ w)) as B.
  lia.
Qed.

(** Wrapping is compatible with addition: wrapping an operand first
    changes nothing. *)
Lemma signed_add_l w x y :
  0 < w -> signed w (signed w x + y) = signed w (x + y).
Proof.
  intros Hw. unfold signed. f_equal.
  replace ((x + 2 ^ (w - 1)) mod 2 ^ w - 2 ^ (w - 1) + y + 2 ^ (w - 1))
    with ((x + 2 ^ (w - 1)) mod 2 ^ w + y) by lia.
  rewrite Zplus_mod_idemp_l. f_equal. lia.
Qed.

Lemma signed_add_r w x y :
  0 < w -> signed w (x + signed w y) = signed w (x + y).
Proof.
  intros Hw. rewrite (Z.add_comm x), signed_add_l by assumption.
  f_equal. lia.
Qed.

(** [a * 2^n] and a value below [2^n] share no bit, so [|] adds them. *)
Lemma lor_shifted_low n a b :
  0 <= n -> 0 <= b < 2 ^ n -> Z.lor (a * 2 ^ n) b = a * 2 ^ n + b.
Proof.
  intros Hn Hb.
  assert (D : Z.land (a * 2 ^ n) b = 0).
  { apply Z.bits_inj'; intros i Hi.
    rewrite Z.land_spec, Z.bits_0.
    destruct (Z.lt_ge_cases i n) as [L | G].
    - rewrite Z.mul_pow2_bits_low by lia. reflexivity.
    - rewrite <- (Z.mod_small b (2 ^ n)) by lia.
      rewrite Z.mod_pow2_bits_high by lia. apply andb_false_r. }
  rewrite <- Z.lxor_lor by exact D.
  symmetry. apply Z.add_nocarry_lxor. exact D.
Qed.

End CIntFacts.

(** ** The quaternion validity check *)

Section QuaternionFacts.
Import CInt CIntFacts.

Lemma raw_at_byte raw k : Forall is_byte raw -> is_byte (raw_at raw k).
Proof.
  intros H. unfold raw_at.
  destruct (nth_in_or_default (Z.to_nat k) raw 0) as [I | E].
  - rewrite Forall_forall in H. apply H, I.
  - rewrite E. unfold is_byte. lia.
Qed.

(** The [long] expression of the source decodes a signed big-endian
    32-bit integer. *)
Lemma be32_long_signed raw k :
  Forall is_byte raw -> be32_long raw k = field_at raw k.
Proof.
  intros H. unfold be32_long, field_at, be32_signed.
  pose proof (raw_at_byte raw k H) as B0.
  pose proof (raw_at_byte raw (k + 1) H) as B1.
  pose proof (raw_at_byte raw (k + 2) H) as B2.
  pose proof (raw_at_byte raw (k + 3) H) as B3.
  unfold is_byte in *.
  set (b0 := raw_at raw k) in *. set (b1 := raw_at raw (k + 1)) in *.
  set (b2 := raw_at raw (k + 2)) in *. set (b3 := raw_at raw (k + 3)) in *.
  rewrite !Z.shiftl_mul_pow2 by lia.
  assert (E1 : long_ (b1 * 2 ^ 16) = b1 * 2 ^ 16)
    by (apply signed_small; lia).
  assert (E2 : long_ (b2 * 2 ^ 8) = b2 * 2 ^ 8)
    by (apply signed_small; lia).
  rewrite E1, E2.
  assert (E0 : exists a, long_ (b0 * 2 ^ 24) = a * 2 ^ 24 /\
                         a = if b0 <? 128 then b0 else b0 - 256).
  { destruct (b0 <? 128) eqn:C.
    - exists b0. split; [apply signed_small; lia | reflexivity].
    - exists (b0 - 256). split; [| reflexivity].
      apply Z.ltb_ge in C. unfold long_, signed.
      replace (b0 * 2 ^ 24 + 2 ^ (32 - 1))
        with ((b0 - 256) * 2 ^ 24 + 2 ^ 31 + 1 * 2 ^ 32) by lia.
      rewrite Z.mod_add by lia. rewrite Z.mod_small by lia. lia. }
  destruct E0 as (a & -> & Ea).
  rewrite (lor_shifted_low 24 a (b1 * 2 ^ 16)) by lia.
  replace (a * 2 ^ 24 + b1 * 2 ^ 16) with ((a * 2 ^ 8 + b1) * 2 ^ 16) by lia.
  rewrite (lor_shifted_low 16 _ (b2 * 2 ^ 8)) by lia.
  replace ((a * 2 ^ 8 + b1) * 2 ^ 16 + b2 * 2 ^ 8)
    with (((a * 2 ^ 8 + b1) * 2 ^ 8 + b2) * 2 ^ 8) by lia.
  rewrite lor_shifted_low by lia.
  subst a. destruct (b0 <? 128) eqn:C.
  - apply Z.ltb_lt in C.
    destruct (Z.ltb_spec (b0 * 2 ^ 24 + b1 * 2 ^ 16 + b2 * 2 ^ 8 + b3)
                (2 ^ 31)); lia.
  - apply Z.ltb_ge in C.
    destruct (Z.ltb_spec (b0 * 2 ^ 24 + b1 * 2 ^ 16 + b2 * 2 ^ 8 + b3)
                (2 ^ 31)); lia.
Qed.

Lemma field_at_range raw k :
  Forall is_byte raw -> - 2 ^ 31 <= field_at raw k < 2 ^ 31.
Proof.
  intros H. unfold field_at, be32_signed.
  pose proof (raw_at_byte raw k H) as B0.
  pose proof (raw_at_byte raw (k + 1) H) as B1.
  pose proof (raw_at_byte raw (k + 2) H) as B2.
  pose proof (raw_at_byte raw (k + 3) H) as B3.
  unfold is_byte in *.
  match goal with |- context [if ?c then _ else _] => destruct c eqn:C end;
    [apply Z.ltb_lt in C | apply Z.ltb_ge in C]; lia.
Qed.

Lemma reduced_range x :
  - 2 ^ 31 <= x < 2 ^ 31 -> - 2 ^ 15 <= Z.shiftr x 16 < 2 ^ 15.
Proof.
  intros Hx. rewrite Z.shiftr_div_pow2 by lia.
  split.
  - apply Z.div_le_lower_bound; lia.
  - apply Z.div_lt_upper_bound; lia.
Qed.

Lemma square_bound q : - 2 ^ 15 <= q < 2 ^ 15 -> 0 <= q * q <= 2 ^ 30.
Proof. intros Hq. nia. Qed.

(** The [long] sum of squares is the exact sum whenever that sum fits, and
    is never positive when it does not. *)
Lemma quat_mag_sq_exact raw i :
  Forall is_byte raw ->
  let s := reduced_mag_sq raw i in
  0 <= s <= 2 ^ 32 /\
  quat_mag_sq raw i = (if s <? 2 ^ 31 then s else s - 2 ^ 32).
Proof.
  intros H s. subst s. unfold quat_mag_sq, reduced_mag_sq.
  rewrite !be32_long_signed by assumption.
  rewrite Z.add_0_r.
  pose proof (square_bound _ (reduced_range _ (field_at_range raw i H))).
  pose proof (square_bound _ (reduced_range _ (field_at_range raw (i + 4) H))).
  pose proof (square_bound _ (reduced_range _ (field_at_range raw (i + 8) H))).
  pose proof (square_bound _ (reduced_range _ (field_at_range raw (i + 12) H))).
  set (a := Z.shiftr (field_at raw i) 16 * Z.shiftr (field_at raw i) 16) in *.
  set (b := Z.shiftr (field_at raw (i + 4)) 16
            * Z.shiftr (field_at raw (i + 4)) 16) in *.
  set (c := Z.shiftr (field_at raw (i + 8)) 16
            * Z.shiftr (field_at raw (i + 8)) 16) in *.
  set (d := Z.shiftr (field_at raw (i + 12)) 16
            * Z.shiftr (field_at raw (i + 12)) 16) in *.
  split; [lia |].
  unfold long_.
  rewrite (signed_small 32 a), (signed_small 32 b),
    (signed_small 32 c), (signed_small 32 d) by lia.
  rewrite (signed_add_l 32 (a + b) c), (signed_add_l 32 (a + b + c) d) by lia.
  destruct (Z.ltb_spec (a + b + c + d) (2 ^ 31)).
  - apply signed_small; lia.
  - unfold signed.
    replace (a + b + c + d + 2 ^ (32 - 1))
      with (a + b + c + d - 2 ^ 31 + 1 * 2 ^ 32) by lia.
    rewrite Z.mod_add by lia.
    destruct (Z.eq_dec (a + b + c + d) (2 ^ 32)) as [E | N].
    + rewrite E. reflexivity.
    + rewrite Z.mod_small by lia. lia.
Qed.

End QuaternionFacts.

(** C2.  For every buffer of bytes and every offset, the quaternion validity
    check reads four signed 32-bit big-endian fields, shifts each right by 16
    bits, and returns 1 exactly when the sum of the four squares lies in the
    inclusive band [2^28 - 2^16, 2^28 + 2^16]; it returns 0 otherwise, so a
    sum exactly at 2^28 passes and a sum below or above the band is
    rejected. *)
Theorem check_quaternion_validity_band (raw : list Z) (i : Z) :
  Forall CInt.is_byte raw ->
  let s := reduced_mag_sq raw i in
  (check_quaternion_validity raw i = 1 <->
     2 ^ 28 - 2 ^ 16 <= s <= 2 ^ 28 + 2 ^ 16) /\
  (check_quaternion_validity raw i = 0 <->
     s < 2 ^ 28 - 2 ^ 16 \/ s > 2 ^ 28 + 2 ^ 16) /\
  (s = 2 ^ 28 -> check_quaternion_validity raw i = 1).
Proof.
  intros H s.
  destruct (quat_mag_sq_exact raw i H) as [R E]. fold s in R, E.
  assert (V : check_quaternion_validity raw i =
              if (2 ^ 28 - 2 ^ 16 <=? s) && (s <=? 2 ^ 28 + 2 ^ 16)
              then 1 else 0).
  { unfold check_quaternion_validity. rewrite E.
    unfold QUAT_MAG_SQ_MIN, QUAT_MAG_SQ_MAX, QUAT_MAG_SQ_NORMALIZED,
      QUAT_ERROR_THRESH.
    rewrite !Z.shiftl_1_l.
    destruct (Z.ltb_spec s (2 ^ 31));
      destruct (Z.leb_spec (2 ^ 28 - 2 ^ 16) s);
      destruct (Z.leb_spec s (2 ^ 28 + 2 ^ 16)); cbn [andb];
      repeat match goal with
        | |- context [?a <? ?b] => destruct (Z.ltb_spec a b); try lia
        | |- context [?a >? ?b] =>
            rewrite (Z.gtb_ltb a b); destruct (Z.ltb_spec b a); try lia
        end; cbn [orb]; try reflexivity; lia. }
  rewrite V.
  destruct (Z.leb_spec (2 ^ 28 - 2 ^ 16) s);
    destruct (Z.leb_spec s (2 ^ 28 + 2 ^ 16)); cbn [andb];
    repeat split; intros; try lia; try discriminate.
Qed.

(** A quaternion sub-record [0x40000000, 0, 0, 0] at offset 0: the sum of
    squares is exactly nominal. *)
Lemma check_quaternion_validity_band_witness :
  let raw := [64; 0; 0; 0; 0; 0; 0; 0; 0; 0; 0; 0; 0; 0; 0; 0] in
  check_quaternion_validity raw 0 = 1 /\ reduced_mag_sq raw 0 = 2 ^ 28.
Proof.
  intros raw.
  assert (B : Forall CInt.is_byte raw).
  { unfold raw. repeat constructor; unfold CInt.is_byte; lia. }
  split.
  - apply (proj2 (proj2 (check_quaternion_validity_band raw 0 B))).
    reflexivity.
  - reflexivity.
Defined.

(** ** The FIFO parser *)

Section ParserFacts.
Context {F : Type} {fl : FloatOps F} {ml : MathLib F} {hdr : Header}.

(** Every branch of [data_fusion] leaves the fields that hold sensor data
    alone: it writes the compass headings and the fused angles only. *)
Lemma data_fusion_frame (g : globals F) :
  let d := data g in
  let d' := data (snd (data_fusion g)) in
  mag d' = mag d /\ accel d' = accel d /\ gyro d' = gyro d /\
  raw_accel d' = raw_accel d /\ raw_gyro d' = raw_gyro d /\
  dmp_quat d' = dmp_quat d /\ dmp_TaitBryan d' = dmp_TaitBryan d /\
  mag_scales (snd (data_fusion g)) = mag_scales g /\
  config (snd (data_fusion g)) = config g.
Proof.
  unfold data_fusion.
  destruct (oriented_mag _ _) as [[[qx qy] qz] |]; cbn [snd];
    [| repeat split; reflexivity].
  destruct (negb (F_eqb _ _)); cbn [snd]; [repeat split; reflexivity |].
  destruct (truthy _);
    repeat match goal with
      | |- context [march_filter ?f ?x] => destruct (march_filter f x)
      end; cbn; repeat split; reflexivity.
Qed.

Lemma store_dmp_data_frame (raw : list Z) (j : Z) (d : imu_data_t F) :
  let d' := store_dmp_data raw j d in
  mag d' = mag d /\
  raw_accel d' = be16_triplet raw (j + 16) /\
  raw_gyro d' = be16_triplet raw (j + 16 + 6) /\
  dmp_quat d' =
    normalizeQuaternion
      (map F_of_Z [be32_long raw j; be32_long raw (j + 4);
                   be32_long raw (j + 8); be32_long raw (j + 12)]).
Proof. cbn. repeat split; reflexivity. Qed.

Lemma store_mag_data_frame (raw : list Z) (i : Z) (g : globals F) :
  let g' := store_mag_data raw i g in
  raw_accel (data g') = raw_accel (data g) /\
  raw_gyro (data g') = raw_gyro (data g) /\
  dmp_quat (data g') = dmp_quat (data g) /\
  config g' = config g.
Proof.
  unfold store_mag_data. destruct (mag_adc_nonzero raw i); cbn;
    repeat split; reflexivity.
Qed.

(** A magnetometer triple of zeros is not stored. *)
Lemma store_mag_data_zero (raw : list Z) (i : Z) (g : globals F) :
  mag_adc raw i = [0; 0; 0] -> store_mag_data raw i g = g.
Proof.
  unfold mag_adc, store_mag_data, mag_adc_nonzero. intros E.
  injection E as E0 E1 E2. rewrite E0, E1, E2. reflexivity.
Qed.

(** The start of a cycle, up to the dispatch on the FIFO count. *)
Lemma read_dmp_fifo_dispatch (g : globals F) (w w1 : world) (r n : Z) :
  ready g = true -> read_fifo_count w = (r, n, w1) -> 0 <= r ->
  read_dmp_fifo g w =
    match classify_fifo_count n with
    | FifoEmpty => (-1, g, w1)
    | FifoRead i m d => READ_FIFO g w1 n i m d
    | FifoWeird => (-1, g, snd (mpu_reset_fifo g w1))
    end.
Proof.
  unfold ready, read_fifo_count, read_dmp_fifo. intros R C H.
  apply andb_prop in R as [R1 R2]. rewrite R1. cbn [negb].
  replace (negb (packet_len g =? FIFO_LEN_NO_MAG)
           && negb (packet_len g =? FIFO_LEN_MAG)) with false
    by (rewrite <- negb_orb, R2; reflexivity).
  rewrite C.
  replace (r <? 0) with false by (symmetry; apply Z.ltb_ge; exact H).
  destruct (classify_fifo_count n); try reflexivity.
  destruct (mpu_reset_fifo g w1). reflexivity.
Qed.

(** A cycle that does not get to the dispatch fails and changes nothing
    in the globals. *)
Lemma read_dmp_fifo_not_dispatched (g : globals F) (w : world) :
  ready g = false \/ fst (fst (read_fifo_count w)) < 0 ->
  fst (read_dmp_fifo g w) = (-1, g).
Proof.
  unfold ready, read_fifo_count, read_dmp_fifo. intros H.
  destruct (truthy (dmp_en g)); cbn [negb andb]; [| reflexivity].
  destruct (packet_len g =? FIFO_LEN_NO_MAG) eqn:P1;
    destruct (packet_len g =? FIFO_LEN_MAG) eqn:P2; cbn [negb andb orb] in *;
    try (destruct H as [H | H]; [discriminate |]);
    try reflexivity;
    destruct (i2c_read_word _ _) as [[r n] w1]; cbn [fst] in H;
    (replace (r <? 0) with true by (symmetry; apply Z.ltb_lt; exact H));
    reflexivity.
Qed.

(** The three ways [READ_FIFO] ends. *)
Lemma READ_FIFO_short_read (g : globals F) (w1 w2 : world)
  (n i ret : Z) (m d : bool) (raw : list Z) :
  fetch_fifo n w1 = (ret, raw, w2) -> ret <> n ->
  READ_FIFO g w1 n i m d = (-1, g, w2).
Proof.
  intros E N. unfold READ_FIFO. rewrite E.
  replace (ret =? n) with false by (symmetry; apply Z.eqb_neq; exact N).
  reflexivity.
Qed.

Lemma READ_FIFO_out_of_bounds (g : globals F) (w1 w2 : world)
  (n i : Z) (m : bool) (raw : list Z) :
  fetch_fifo n w1 = (n, raw, w2) -> locate_dmp g raw i = DmpOutOfBounds ->
  READ_FIFO g w1 n i m true = (-1, g, snd (mpu_reset_fifo g w2)).
Proof.
  intros E L. unfold READ_FIFO. rewrite E, Z.eqb_refl, L. cbn [negb].
  destruct (mpu_reset_fifo g w2). reflexivity.
Qed.

Lemma READ_FIFO_parse (g : globals F) (w1 w2 : world)
  (n i j i' : Z) (m d : bool) (raw : list Z) :
  fetch_fifo n w1 = (n, raw, w2) ->
  (if d then locate_dmp g raw i else DmpAt 0 i) = DmpAt j i' ->
  READ_FIFO g w1 n i m d =
    (fst (parse_packet g raw j i' m d), snd (parse_packet g raw j i' m d), w2).
Proof.
  intros E L. unfold READ_FIFO. rewrite E, Z.eqb_refl, L. cbn [negb].
  destruct (parse_packet g raw j i' m d). reflexivity.
Qed.

(** Both candidate offsets rejected: no DMP data is found, with or without
    the magnetometer enabled. *)
Lemma locate_dmp_rejects (g : globals F) (raw : list Z) (i : Z) :
  check_quaternion_validity raw (i + 7) = 0 ->
  check_quaternion_validity raw i = 0 ->
  locate_dmp g raw i = DmpOutOfBounds.
Proof.
  intros A B. unfold locate_dmp. rewrite A, B. cbn.
  rewrite andb_false_r. reflexivity.
Qed.

Lemma i2c_write_byte_log (reg val : Z) (w : world) :
  log (snd (i2c_write_byte reg val w)) = I2cWriteByte reg val :: log w.
Proof.
  unfold i2c_write_byte, ask.
  destruct (replies w) as [| [| p] rs]; reflexivity.
Qed.

Lemma read_fifo_count_log (w w1 : world) (r n : Z) :
  read_fifo_count w = (r, n, w1) ->
  log w1 = I2cReadWord FIFO_COUNTH :: I2cSetDeviceAddress IMU_ADDR :: log w.
Proof.
  unfold read_fifo_count, i2c_read_word, ask, tell. cbn [replies log].
  destruct (replies w) as [| [| p] rs]; intros E; injection E as _ _ <-;
    reflexivity.
Qed.

Lemma grows_refl (w : world) : grows (log w) w.
Proof. exists []. reflexivity. Qed.

Lemma grows_tell (s : list event) (e : event) (w : world) :
  grows s w -> grows s (tell e w).
Proof. intros [l E]. exists (e :: l). cbn. rewrite E. reflexivity. Qed.

Lemma grows_write_byte (s : list event) (reg val : Z) (w : world) :
  grows s w -> grows s (snd (i2c_write_byte reg val w)).
Proof.
  intros [l E]. exists (I2cWriteByte reg val :: l).
  rewrite i2c_write_byte_log, E. reflexivity.
Qed.

(** [mpu_reset_fifo] always gets to its first register write. *)
Lemma mpu_reset_fifo_log (g : globals F) (w : world) :
  grows (I2cWriteByte INT_ENABLE 0 :: I2cSetDeviceAddress IMU_ADDR :: log w)
        (snd (mpu_reset_fifo g w)).
Proof.
  unfold mpu_reset_fifo.
  assert (G : grows (I2cWriteByte INT_ENABLE 0
                       :: I2cSetDeviceAddress IMU_ADDR :: log w)
                (snd (i2c_write_byte INT_ENABLE 0
                        (tell (I2cSetDeviceAddress IMU_ADDR) w)))).
  { exists []. rewrite i2c_write_byte_log. reflexivity. }
  destruct (i2c_write_byte INT_ENABLE 0 _) as [r w0]. cbn [snd] in G.
  repeat first
    [ match goal with
      | |- context [i2c_write_byte ?r ?v ?x] =>
          let H := fresh "G" in
          assert (H : grows (I2cWriteByte INT_ENABLE 0
                       :: I2cSetDeviceAddress IMU_ADDR :: log w)
                        (snd (i2c_write_byte r v x)))
            by (apply grows_write_byte; repeat apply grows_tell; assumption);
          destruct (i2c_write_byte r v x) as [? ?]; cbn [snd] in H
      end
    | match goal with
      | |- context [if truthy ?x then _ else _] => destruct (truthy x)
      end ]; cbn [snd]; assumption.
Qed.

Lemma classify_fifo_count_weird (n : Z) :
  ~ In n [0; 7; 14; 21; 28; 35; 42; 56; 63; 70; 77] ->
  classify_fifo_count n = FifoWeird.
Proof.
  intros N. unfold classify_fifo_count, FIFO_LEN_NO_MAG, FIFO_LEN_MAG.
  repeat match goal with
    | |- context [?a =? ?b] =>
        destruct (Z.eqb_spec a b);
        [exfalso; apply N; subst; cbn; tauto |]
    end.
  reflexivity.
Qed.

(** C1.  Once the FIFO count [n] has been read, [read_dmp_fifo] treats it
    as the fixed table says: 28 and 35 are parsed at offset 0 (35 with
    magnetometer data), 56 and 70 at offset 28 and 35 (the most recent
    packet), the degraded counts 42, 63 and 77 at offsets 7, 28 and 42
    (DMP data, no magnetometer data), 7, 14 and 21 as magnetometer data only
    at offset [n - 7]; a count of 0 fails without any register write; every
    other count resets the FIFO and fails. *)
Theorem read_dmp_fifo_classification
  (g : globals F) (w w1 : world) (r n : Z) :
  ready g = true -> read_fifo_count w = (r, n, w1) -> 0 <= r ->
  (n = 28 -> read_dmp_fifo g w = READ_FIFO g w1 n 0 false true) /\
  (n = 35 -> read_dmp_fifo g w = READ_FIFO g w1 n 0 true true) /\
  (n = 56 -> read_dmp_fifo g w = READ_FIFO g w1 n 28 false true) /\
  (n = 70 -> read_dmp_fifo g w = READ_FIFO g w1 n 35 true true) /\
  (n = 42 -> read_dmp_fifo g w = READ_FIFO g w1 n 7 false true) /\
  (n = 63 -> read_dmp_fifo g w = READ_FIFO g w1 n 28 false true) /\
  (n = 77 -> read_dmp_fifo g w = READ_FIFO g w1 n 42 false true) /\
  (n = 7 \/ n = 14 \/ n = 21 ->
   read_dmp_fifo g w = READ_FIFO g w1 n (n - 7) true false) /\
  (n = 0 ->
   read_dmp_fifo g w = (-1, g, w1) /\
   log w1 = I2cReadWord FIFO_COUNTH :: I2cSetDeviceAddress IMU_ADDR :: log w) /\
  (~ In n [0; 7; 14; 21; 28; 35; 42; 56; 63; 70; 77] ->
   read_dmp_fifo g w = (-1, g, snd (mpu_reset_fifo g w1)) /\
   grows (I2cWriteByte INT_ENABLE 0 :: I2cSetDeviceAddress IMU_ADDR :: log w1)
         (snd (mpu_reset_fifo g w1))).
Proof.
  intros R C H.
  pose proof (read_dmp_fifo_dispatch g w w1 r n R C H) as D.
  repeat apply conj.
  1-7: intros ->; exact D.
  - intros [-> | [-> | ->]]; exact D.
  - intros ->. split; [exact D |].
    apply (read_fifo_count_log w w1 r 0 C).
  - intros N. split; [| apply mpu_reset_fifo_log].
    rewrite D, (classify_fifo_count_weird n N). reflexivity.
Qed.

(** C3.  A cycle that meets a packet-alignment error (a FIFO count outside
    the table, or a count that carries DMP data whose quaternion fails the
    validity check both at offset [i + 7], magnetometer bytes first, and at
    offset [i], magnetometer bytes last) resets the FIFO, returns -1 and
    leaves the globals, and with them the sample record, as they were. *)
Theorem alignment_error_resets_and_fails
  (g : globals F) (w w1 : world) (r n : Z) :
  ready g = true -> read_fifo_count w = (r, n, w1) -> 0 <= r ->
  (~ In n [0; 7; 14; 21; 28; 35; 42; 56; 63; 70; 77] ->
   read_dmp_fifo g w = (-1, g, snd (mpu_reset_fifo g w1)) /\
   data (snd (fst (read_dmp_fifo g w))) = data g) /\
  (forall (i : Z) (m : bool) (raw : list Z) (w2 : world),
     classify_fifo_count n = FifoRead i m true ->
     fetch_fifo n w1 = (n, raw, w2) ->
     check_quaternion_validity raw (i + 7) = 0 ->
     check_quaternion_validity raw i = 0 ->
     read_dmp_fifo g w = (-1, g, snd (mpu_reset_fifo g w2)) /\
     data (snd (fst (read_dmp_fifo g w))) = data g /\
     grows (I2cWriteByte INT_ENABLE 0
              :: I2cSetDeviceAddress IMU_ADDR :: log w2)
           (snd (mpu_reset_fifo g w2))).
Proof.
  intros R C H.
  pose proof (read_dmp_fifo_dispatch g w w1 r n R C H) as D.
  split.
  - intros N. rewrite D, (classify_fifo_count_weird n N). split; reflexivity.
  - intros i m raw w2 K E A B. rewrite D, K.
    rewrite (READ_FIFO_out_of_bounds g w1 w2 n i m raw E
               (locate_dmp_rejects g raw i A B)).
    repeat split. apply mpu_reset_fifo_log.
Qed.

(** What a packet with DMP data leaves in the sample record. *)
Lemma parse_packet_dmp_fields (g : globals F) (raw : list Z) (j i : Z)
  (m : bool) :
  let g' := snd (parse_packet g raw j i m true) in
  fst (parse_packet g raw j i m true) = 0 /\
  raw_accel (data g') = be16_triplet raw (j + 16) /\
  raw_gyro (data g') = be16_triplet raw (j + 16 + 6) /\
  dmp_quat (data g') =
    normalizeQuaternion
      (map F_of_Z [be32_long raw j; be32_long raw (j + 4);
                   be32_long raw (j + 8); be32_long raw (j + 12)]).
Proof.
  unfold parse_packet. cbn [fst snd andb].
  set (g1 := with_data (store_dmp_data raw j (data g)) g).
  set (g2 := if m then store_mag_data raw i g1 else g1).
  set (g3 := if truthy (enable_magnetometer (config g2))
             then snd (data_fusion g2) else g2).
  assert (E2 : raw_accel (data g2) = raw_accel (data g1) /\
               raw_gyro (data g2) = raw_gyro (data g1) /\
               dmp_quat (data g2) = dmp_quat (data g1)).
  { subst g2. destruct m; [| repeat split; reflexivity].
    destruct (store_mag_data_frame raw i g1) as (A & B & C & _).
    repeat split; assumption. }
  assert (E3 : raw_accel (data g3) = raw_accel (data g2) /\
               raw_gyro (data g3) = raw_gyro (data g2) /\
               dmp_quat (data g3) = dmp_quat (data g2)).
  { subst g3. destruct (truthy _); [| repeat split; reflexivity].
    destruct (data_fusion_frame g2) as (_ & _ & _ & A & B & C & _).
    repeat split; assumption. }
  destruct E2 as (A2 & B2 & C2), E3 as (A3 & B3 & C3).
  destruct (store_dmp_data_frame raw j (data g)) as (_ & A1 & B1 & C1).
  cbn [data with_fifo_first_run].
  rewrite A3, A2, B3, B2, C3, C2. subst g1. cbn [data with_data].
  repeat split; assumption.
Qed.

(** A packet without DMP data is not a success. *)
Lemma parse_packet_mag_only (g : globals F) (raw : list Z) (j i : Z)
  (m : bool) :
  parse_packet g raw j i m false =
    (-1, if m then store_mag_data raw i g else g).
Proof. unfold parse_packet. cbn [andb]. reflexivity. Qed.

(** Without magnetometer data to store, a packet leaves the magnetometer
    fields alone. *)
Lemma parse_packet_mag_frame (g : globals F) (raw : list Z) (j i : Z)
  (d : bool) :
  mag (data (snd (parse_packet g raw j i false d))) = mag (data g).
Proof.
  unfold parse_packet. cbn [snd]. destruct d; cbn [andb]; [| reflexivity].
  set (g1 := with_data (store_dmp_data raw j (data g)) g).
  destruct (truthy (enable_magnetometer (config g1)));
    cbn [data with_fifo_first_run].
  - destruct (data_fusion_frame g1) as (A & _). rewrite A.
    subst g1. cbn [data with_data].
    apply (store_dmp_data_frame raw j (data g)).
  - subst g1. cbn [data with_data].
    apply (store_dmp_data_frame raw j (data g)).
Qed.

(** C5.  [read_dmp_fifo] returns 0 or -1, and it returns 0 exactly in the
    cycles that locate a quaternion in a packet carrying DMP data and store
    the DMP data of that packet in the sample record.  A cycle with a FIFO
    count of 7, 14 or 21 returns -1 although it decodes and stores the
    magnetometer data. *)
Theorem success_iff_new_dmp_data (g : globals F) (w : world) :
  let ret := fst (fst (read_dmp_fifo g w)) in
  let g' := snd (fst (read_dmp_fifo g w)) in
  (ret = 0 \/ ret = -1) /\
  (ret = 0 <->
   exists (r n : Z) (w1 : world) (i : Z) (m : bool) (raw : list Z)
          (w2 : world) (j i' : Z),
     ready g = true /\ read_fifo_count w = (r, n, w1) /\ 0 <= r /\
     classify_fifo_count n = FifoRead i m true /\
     fetch_fifo n w1 = (n, raw, w2) /\
     locate_dmp g raw i = DmpAt j i' /\
     raw_accel (data g') = be16_triplet raw (j + 16) /\
     raw_gyro (data g') = be16_triplet raw (j + 16 + 6) /\
     dmp_quat (data g') =
       normalizeQuaternion
         (map F_of_Z [be32_long raw j; be32_long raw (j + 4);
                      be32_long raw (j + 8); be32_long raw (j + 12)])) /\
  (forall (r n : Z) (w1 : world) (raw : list Z) (w2 : world),
     ready g = true -> read_fifo_count w = (r, n, w1) -> 0 <= r ->
     n = 7 \/ n = 14 \/ n = 21 ->
     fetch_fifo n w1 = (n, raw, w2) ->
     read_dmp_fifo g w = (-1, store_mag_data raw (n - 7) g, w2)).
Proof.
  cbv zeta.
  assert (Last : forall (r n : Z) (w1 : world) (raw : list Z) (w2 : world),
     ready g = true -> read_fifo_count w = (r, n, w1) -> 0 <= r ->
     n = 7 \/ n = 14 \/ n = 21 ->
     fetch_fifo n w1 = (n, raw, w2) ->
     read_dmp_fifo g w = (-1, store_mag_data raw (n - 7) g, w2)).
  { intros r n w1 raw w2 R C H N E.
    rewrite (read_dmp_fifo_dispatch g w w1 r n R C H).
    assert (K : classify_fifo_count n = FifoRead (n - 7) true false)
      by (destruct N as [-> | [-> | ->]]; reflexivity).
    rewrite K, (READ_FIFO_parse g w1 w2 n (n - 7) 0 (n - 7) true false raw E
                  eq_refl).
    rewrite parse_packet_mag_only. reflexivity. }
  apply (proj1 (and_assoc _ _ _)). split; [| exact Last]. clear Last.
  destruct (ready g) eqn:R.
  2: { rewrite (read_dmp_fifo_not_dispatched g w (or_introl R)). cbn [fst snd].
       repeat split; try (right; reflexivity); try discriminate; try assumption.
       intros (r & n & w1 & i & m & raw & w2 & j & i' & X & _). discriminate. }
  destruct (read_fifo_count w) as [[r n] w1] eqn:C.
  destruct (Z.lt_ge_cases r 0) as [Neg | H].
  { assert (B : fst (fst (read_fifo_count w)) < 0) by (rewrite C; exact Neg).
    rewrite (read_dmp_fifo_not_dispatched g w (or_intror B)). cbn [fst snd].
    repeat split; try (right; reflexivity); try discriminate; try assumption.
    intros (r' & n' & w1' & i & m & raw & w2 & j & i' & _ & X & Y & _).
    injection X as -> _ _. lia. }
  rewrite (read_dmp_fifo_dispatch g w w1 r n R C H).
  assert (Fail : forall (w' : world),
    ((-1 = 0 \/ -1 = -1) /\ (-1 = 0 -> False))) by (intros; split; [auto | lia]).
  destruct (classify_fifo_count n) as [| i m d |] eqn:K.
  - cbn [fst snd]. repeat split; auto; try discriminate.
    intros (r' & n' & w1' & i & m & raw & w2 & j & i' & _ & X & _ & Y & _).
    injection X as _ <- _. rewrite K in Y. discriminate.
  - destruct (fetch_fifo n w1) as [[ret raw] w2] eqn:E.
    destruct (Z.eq_dec ret n) as [-> | Short].
    2: { rewrite (READ_FIFO_short_read g w1 w2 n i ret m d raw E Short).
         cbn [fst snd]. repeat split; auto; try discriminate.
         intros (r' & n' & w1' & i0 & m0 & raw0 & w0 & j & i' & _ & X & _
                 & _ & Y & _).
         injection X as _ <- <-. rewrite E in Y. injection Y as Y _ _.
         contradiction. }
    destruct d.
    + destruct (locate_dmp g raw i) as [j i' |] eqn:L.
      * rewrite (READ_FIFO_parse g w1 w2 n i j i' m true raw E L).
        cbn [fst snd].
        destruct (parse_packet_dmp_fields g raw j i' m) as (P0 & P1 & P2 & P3).
        rewrite P0. repeat split; auto.
        intros _. exists r, n, w1, i, m, raw, w2, j, i'.
        repeat split; auto.
      * rewrite (READ_FIFO_out_of_bounds g w1 w2 n i m raw E L).
        cbn [fst snd]. repeat split; auto; try discriminate.
        intros (r' & n' & w1' & i0 & m0 & raw0 & w0 & j & i' & _ & X & _
                & Y & Z0 & W & _).
        injection X as _ <- <-. rewrite K in Y. injection Y as <- _.
        rewrite E in Z0. injection Z0 as <- _. rewrite L in W. discriminate.
    + rewrite (READ_FIFO_parse g w1 w2 n i 0 i m false raw E eq_refl).
      rewrite parse_packet_mag_only. cbn [fst snd].
      repeat split; auto; try discriminate.
      intros (r' & n' & w1' & i0 & m0 & raw0 & w0 & j & i' & _ & X & _
              & Y & _).
      injection X as _ <- _. rewrite K in Y. discriminate.
  - cbn [fst snd]. repeat split; auto; try discriminate.
    intros (r' & n' & w1' & i & m & raw & w2 & j & i' & _ & X & _ & Y & _).
    injection X as _ <- _. rewrite K in Y. discriminate.
Qed.

(** C10.  When the three magnetometer fields of a packet are zero,
    [read_dmp_fifo] leaves the magnetometer fields of the sample record as
    they were, and the cycle is the one that a packet without magnetometer
    data gives: same return value, same DMP data stored. *)
Theorem zero_magnetometer_triple_dropped
  (g : globals F) (w w1 w2 : world) (r n i j i' : Z) (d : bool)
  (raw : list Z) :
  ready g = true -> read_fifo_count w = (r, n, w1) -> 0 <= r ->
  classify_fifo_count n = FifoRead i true d ->
  fetch_fifo n w1 = (n, raw, w2) ->
  (if d then locate_dmp g raw i else DmpAt 0 i) = DmpAt j i' ->
  mag_adc raw i' = [0; 0; 0] ->
  mag (data (snd (fst (read_dmp_fifo g w)))) = mag (data g) /\
  read_dmp_fifo g w = READ_FIFO g w1 n i false d /\
  fst (fst (read_dmp_fifo g w)) = (if d then 0 else -1).
Proof.
  intros R C H K E L Z0.
  rewrite (read_dmp_fifo_dispatch g w w1 r n R C H), K.
  rewrite (READ_FIFO_parse g w1 w2 n i j i' true d raw E L).
  rewrite (READ_FIFO_parse g w1 w2 n i j i' false d raw E L).
  assert (Same : parse_packet g raw j i' true d
                 = parse_packet g raw j i' false d).
  { unfold parse_packet. rewrite store_mag_data_zero by exact Z0.
    reflexivity. }
  rewrite Same. cbn [fst snd].
  split; [apply parse_packet_mag_frame | split; reflexivity].
Qed.

End ParserFacts.

(** A count of 31 bytes: the cycle fails and the FIFO is reset. *)
Lemma read_dmp_fifo_classification_witness :
  let g := Bench.globals0 0 in
  let w := mkWorld [Ack [31]] [] in
  read_dmp_fifo (fl := Bench.q_float) (hdr := Bench.header) g w =
    (-1, g,
     snd (mpu_reset_fifo (hdr := Bench.header) g
            (snd (read_fifo_count (hdr := Bench.header) w)))).
Proof.
  intros g w.
  destruct (read_dmp_fifo_classification (fl := Bench.q_float)
              (hdr := Bench.header) g w
              (snd (read_fifo_count (hdr := Bench.header) w)) 0 31
              eq_refl eq_refl ltac:(lia))
    as (_ & _ & _ & _ & _ & _ & _ & _ & _ & K).
  apply K. cbn. intuition discriminate.
Defined.

(** Garbage in a 28-byte packet: no quaternion at offset 7 or 0. *)
Lemma alignment_error_resets_and_fails_witness :
  let g := Bench.globals0 0 in
  let w := mkWorld [Ack [28]; Ack Bench.garbage28] [] in
  fst (read_dmp_fifo (fl := Bench.q_float) (hdr := Bench.header) g w)
  = (-1, g).
Proof.
  intros g w.
  pose (w1 := snd (read_fifo_count (hdr := Bench.header) w)).
  pose (f := fetch_fifo (hdr := Bench.header) 28 w1).
  destruct (alignment_error_resets_and_fails (fl := Bench.q_float)
              (hdr := Bench.header) g w w1 0 28
              eq_refl eq_refl ltac:(lia)) as [_ K].
  destruct (K 0 false (snd (fst f)) (snd f) eq_refl eq_refl eq_refl eq_refl)
    as [E _].
  rewrite E. reflexivity.
Defined.

(** A 28-byte packet with a valid quaternion: the cycle succeeds. *)
Lemma success_iff_new_dmp_data_witness :
  let g := Bench.globals0 0 in
  let w := mkWorld [Ack [28]; Ack Bench.packet28] [] in
  fst (fst (read_dmp_fifo (fl := Bench.q_float) (hdr := Bench.header) g w)) = 0
  /\ raw_accel
       (data (snd (fst (read_dmp_fifo (fl := Bench.q_float)
                          (hdr := Bench.header) g w)))) = [1; 2; 3].
Proof.
  intros g w.
  destruct (success_iff_new_dmp_data (fl := Bench.q_float)
              (hdr := Bench.header) g w) as (_ & [K _] & _).
  destruct (K eq_refl)
    as (r & n & w1 & i & m & raw & w2 & j & i' & _ & _ & _ & _ & _ & _ & _).
  split; reflexivity.
Defined.

(** A 35-byte packet, magnetometer bytes first and all zero. *)
Lemma zero_magnetometer_triple_dropped_witness :
  let g := Bench.globals0 1 in
  let w := mkWorld [Ack [35]; Ack (Bench.mag7_zero ++ Bench.packet28)] [] in
  mag (data (snd (fst (read_dmp_fifo (fl := Bench.q_float)
                         (hdr := Bench.header) g w)))) = mag (data g)
  /\ fst (fst (read_dmp_fifo (fl := Bench.q_float)
                 (hdr := Bench.header) g w)) = 0.
Proof.
  intros g w.
  pose (w1 := snd (read_fifo_count (hdr := Bench.header) w)).
  pose (f := fetch_fifo (hdr := Bench.header) 35 w1).
  destruct (zero_magnetometer_triple_dropped (fl := Bench.q_float)
              (hdr := Bench.header) g w w1 (snd f) 0 35 0 7 0 true
              (snd (fst f)) eq_refl eq_refl ltac:(lia) eq_refl eq_refl
              eq_refl eq_refl) as (A & _ & B).
  split; [exact A | exact B].
Defined.

(** ** Full-scale ranges *)

Section RangeFacts.
Context {F : Type} {fl : FloatOps F} {hdr : Header}.

(** C4.  For each of the four valid accelerometer settings [set_accel_fsr]
    stores [9.807 * range / 32768] with [range] 2, 4, 8 or 16, and for each
    of the four valid gyroscope settings [set_gyro_fsr] stores
    [range / 32768] with [range] 250, 500, 1000 or 2000; for any other value
    both return -1 with the sample record and the world (so the registers)
    untouched. *)
Theorem full_scale_conversion_factors
  (a : accel_fsr_t) (gy : gyro_fsr_t) (d : imu_data_t F) (w : world) :
  match accel_range a with
  | Some range =>
      In range [2; 4; 8; 16] /\
      accel_to_ms2 (snd (fst (set_accel_fsr a d w))) =
        F_div (F_mul F_9_807 (F_of_Z range)) (F_of_Z 32768)
  | None => set_accel_fsr a d w = (-1, d, w)
  end /\
  match gyro_range gy with
  | Some range =>
      In range [250; 500; 1000; 2000] /\
      gyro_to_degs (snd (fst (set_gyro_fsr gy d w))) =
        F_div (F_of_Z range) (F_of_Z 32768)
  | None => set_gyro_fsr gy d w = (-1, d, w)
  end.
Proof.
  split.
  - destruct a; cbn [accel_range]; try reflexivity;
      (split; [cbn; tauto |]); unfold set_accel_fsr;
      destruct (i2c_write_byte ACCEL_CONFIG _ w); reflexivity.
  - destruct gy; cbn [gyro_range]; try reflexivity;
      (split; [cbn; tauto |]); unfold set_gyro_fsr;
      destruct (i2c_write_byte GYRO_CONFIG _ w); reflexivity.
Qed.

End RangeFacts.

(** ** The interrupt thread *)

Section HandlerFacts.
Context {F : Type} {fl : FloatOps F} {ml : MathLib F} {hdr : Header}.

(** After the first drain the loop calls the user function at every
    successful drain for which it is set, and at no other. *)
Lemma interrupt_loop_later_drains (ticks : list tick) :
  forall (l : Z) (g : globals F) (w : world),
    Forall called_as_set (drains (turns_of (interrupt_loop ticks 0 l g w))).
Proof.
  induction ticks as [| t ts IH]; intros l g w; cbn [interrupt_loop].
  - constructor.
  - destruct (stop_at_loop_test t); [constructor |].
    destruct (stop_after_poll t); [constructor |].
    destruct (revents_POLLPRI t).
    + destruct (query I2cGetInUseState w) as [u w0].
      destruct (read_dmp_fifo g (tell I2cClaimBus w0)) as [[ret g1] w1].
      cbn [Z.eqb].
      set (last := if ret =? 0 then 1 else 0).
      assert (T : truthy last = (ret =? 0))
        by (subst last; destruct (ret =? 0); reflexivity).
      rewrite T.
      destruct (truthy (interrupt_func_set t) && (ret =? 0)) eqn:Call.
      * specialize (IH last g1 (tell UserCallback (tell I2cReleaseBus w1))).
        destruct (interrupt_loop ts 0 last g1 _) as [[[rest l'] g'] w'].
        cbn in *. constructor; [| exact IH].
        unfold called_as_set. cbn. symmetry. exact Call.
      * specialize (IH last g1 (tell I2cReleaseBus w1)).
        destruct (interrupt_loop ts 0 last g1 _) as [[[rest l'] g'] w'].
        cbn in *. constructor; [| exact IH].
        unfold called_as_set. cbn. symmetry. exact Call.
    + specialize (IH l g w).
      destruct (interrupt_loop ts 0 l g w) as [[[rest l'] g'] w'].
      cbn in *. exact IH.
Qed.

(** The first drain never calls the user function. *)
Lemma interrupt_loop_first_drain (ticks : list tick) :
  forall (l : Z) (g : globals F) (w : world),
    match drains (turns_of (interrupt_loop ticks 1 l g w)) with
    | [] => True
    | first :: later => snd first = false /\ Forall called_as_set later
    end.
Proof.
  induction ticks as [| t ts IH]; intros l g w; cbn [interrupt_loop].
  - exact I.
  - destruct (stop_at_loop_test t); [exact I |].
    destruct (stop_after_poll t); [exact I |].
    destruct (revents_POLLPRI t).
    + destruct (query I2cGetInUseState w) as [u w0].
      destruct (read_dmp_fifo g (tell I2cClaimBus w0)) as [[ret g1] w1].
      cbn [Z.eqb].
      pose proof (interrupt_loop_later_drains ts
                    (if ret =? 0 then 1 else 0) g1 (tell I2cReleaseBus w1))
        as L.
      destruct (interrupt_loop ts 0 _ g1 _) as [[[rest l'] g'] w'].
      cbn in *. split; [reflexivity | exact L].
    + specialize (IH l g w).
      destruct (interrupt_loop ts 1 l g w) as [[[rest l'] g'] w'].
      cbn in *. exact IH.
Qed.

(** C6, as the code has it.  In a run of [imu_interrupt_handler] the user
    function is never called at the first drain of the FIFO after start-up,
    whether that drain succeeds or not; at every later drain it is called
    exactly when the drain succeeded ([read_dmp_fifo] returned 0) and a
    user function is set. *)
Theorem callback_skips_first_interrupt
  (ticks : list tick) (l : Z) (g : globals F) (w : world) :
  match drains (turns_of (imu_interrupt_handler ticks l g w)) with
  | [] => True
  | first :: later => snd first = false /\ Forall called_as_set later
  end.
Proof.
  unfold imu_interrupt_handler.
  destruct (mpu_reset_fifo g w) as [r w0].
  apply interrupt_loop_first_drain.
Qed.

End HandlerFacts.

(** C6, as the specification states it, fails: when the first interrupt
    finds the FIFO empty, the drain at the second interrupt is the first
    successful one, and the user function is called at it. *)
Lemma first_successful_drain_calls_back :
  called_at_first_success
    (drains (turns_of (imu_interrupt_handler (fl := Bench.q_float)
                         (hdr := Bench.header) Bench.two_interrupts 0
                         (Bench.globals0 0) Bench.empty_then_packet)))
  = Some true
  /\ drains (turns_of (imu_interrupt_handler (fl := Bench.q_float)
                         (hdr := Bench.header) Bench.two_interrupts 0
                         (Bench.globals0 0) Bench.empty_then_packet))
     = [(-1, 1, false); (0, 1, true)].
Proof. split; vm_compute; reflexivity. Qed.

(** ** DMP memory, firmware and FIFO rate *)

Section MemoryFacts.
Context {hdr : Header}.

Lemma this_write_bounds (ii : Z) :
  0 < DMP_LOAD_CHUNK -> DMP_CODE_SIZE < 2 ^ 16 -> 0 <= ii < DMP_CODE_SIZE ->
  0 < this_write ii <= DMP_LOAD_CHUNK /\
  this_write ii <= DMP_CODE_SIZE - ii /\
  CInt.uint16_t (ii + this_write ii) = ii + this_write ii.
Proof.
  intros HC HS I. unfold this_write, CInt.uint16_t, CInt.unsigned.
  rewrite (Z.mod_small (Z.min _ _)) by lia.
  rewrite Z.mod_small by lia. lia.
Qed.

(** With a positive chunk size and an image below 64 KiB the loop ends
    within one turn per byte that is left. *)
Lemma firmware_loop_enough (fuel : nat) :
  0 < DMP_LOAD_CHUNK -> DMP_CODE_SIZE < 2 ^ 16 ->
  forall (ii : Z) (cur : list Z) (w : world),
    0 <= ii -> (Z.to_nat (DMP_CODE_SIZE - ii) < fuel)%nat ->
    exists r, firmware_loop fuel ii cur w = Some r.
Proof.
  intros HC HS. induction fuel as [| fuel IH]; intros ii cur w I L; [lia |].
  cbn [firmware_loop]. destruct (Z.ltb_spec ii DMP_CODE_SIZE) as [Lt | Ge].
  - destruct (firmware_chunk ii cur w) as [w' | w' | w' | cur' w'];
      try (eexists; reflexivity).
    destruct (this_write_bounds ii HC HS (conj I Lt)) as (B1 & B2 & B3).
    rewrite B3. apply IH; lia.
  - eexists; reflexivity.
Qed.

Lemma firmware_loop_more_fuel (fuel : nat) :
  forall (fuel' : nat) (ii : Z) (cur : list Z) (w : world) r,
    firmware_loop fuel ii cur w = Some r -> (fuel <= fuel')%nat ->
    firmware_loop fuel' ii cur w = Some r.
Proof.
  induction fuel as [| fuel IH]; intros fuel' ii cur w r E L;
    [discriminate |].
  destruct fuel' as [| fuel']; [lia |].
  cbn [firmware_loop] in *. destruct (ii <? DMP_CODE_SIZE); [| exact E].
  destruct (firmware_chunk ii cur w) as [w' | w' | w' | cur' w'];
    try exact E.
  apply (IH fuel'); [exact E | lia].
Qed.

Lemma verified_upto_range (w0 : world) (ii : Z) (cur : list Z) (w : world) :
  0 < DMP_LOAD_CHUNK -> DMP_CODE_SIZE < 2 ^ 16 ->
  verified_upto w0 ii cur w -> 0 <= ii.
Proof.
  intros HC HS V. induction V as [| ii cur w cur' w' V IH Lt E]; [lia |].
  destruct (this_write_bounds ii HC HS (conj IH Lt)) as (B1 & B2 & B3).
  rewrite B3. lia.
Qed.

(** One turn of the loop, for a chunk that is there. *)
Lemma firmware_loop_step (fuel : nat) (ii : Z) (cur : list Z) (w : world) :
  ii < DMP_CODE_SIZE ->
  firmware_loop (S fuel) ii cur w =
    match firmware_chunk ii cur w with
    | ChunkWriteFailed w' => Some (inl (-1), w')
    | ChunkReadFailed w' => Some (inl (-1), w')
    | ChunkCorrupted w' => Some (inl (-2), w')
    | ChunkVerified cur' w' =>
        firmware_loop fuel (CInt.uint16_t (ii + this_write ii)) cur' w'
    end.
Proof.
  intros Lt. cbn [firmware_loop].
  replace (ii <? DMP_CODE_SIZE) with true
    by (symmetry; apply Z.ltb_lt; exact Lt).
  reflexivity.
Qed.

(** The whole loop gives what the loop gives from any chunk it gets to. *)
Lemma verified_upto_loop (w0 : world) (ii : Z) (cur : list Z) (w : world) :
  0 < DMP_LOAD_CHUNK -> DMP_CODE_SIZE < 2 ^ 16 ->
  verified_upto w0 ii cur w ->
  firmware_loop (S (Z.to_nat DMP_CODE_SIZE)) 0
    (repeat 0 (Z.to_nat DMP_LOAD_CHUNK))
    (tell (I2cSetDeviceAddress IMU_ADDR) w0)
  = firmware_loop (S (Z.to_nat (DMP_CODE_SIZE - ii))) ii cur w.
Proof.
  intros HC HS V. induction V as [| ii cur w cur' w' V IH Lt E].
  - rewrite Z.sub_0_r. reflexivity.
  - rewrite IH. pose proof (verified_upto_range w0 ii cur w HC HS V) as I.
    destruct (this_write_bounds ii HC HS (conj I Lt)) as (B1 & B2 & B3).
    rewrite B3, (firmware_loop_step _ ii cur w Lt), E, B3.
    assert (P : 0 <= ii + this_write ii) by lia.
    destruct (firmware_loop_enough
                (S (Z.to_nat (DMP_CODE_SIZE - (ii + this_write ii)))) HC HS
                (ii + this_write ii) cur' w' P (Nat.lt_succ_diag_r _))
      as [r R].
    rewrite R.
    apply (firmware_loop_more_fuel _ _ _ _ _ _ R). lia.

Qed.

(** [memcmp] is not 0 exactly when one of the bytes compared differs. *)
Lemma memcmp_differs (n : nat) :
  forall (a b : list Z), memcmp a b n <> 0 <-> differ_within n a b.
Proof.
  induction n as [| n IH]; intros a b; cbn [memcmp].
  - split; [congruence | intros (k & L & _); lia].
  - destruct (Z.eqb_spec (hd 0 a) (hd 0 b)) as [E | N].
    + rewrite IH. split.
      * intros (k & L & D). exists (S k). split; [lia |].
        destruct a, b; cbn in *; trivial; destruct k; exact D.
      * intros (k & L & D). destruct k as [| k].
        -- destruct a, b; cbn in *; congruence.
        -- exists k. split; [lia |].
           destruct a, b; cbn in *; trivial; destruct k; exact D.
    + split; [| lia]. intros _. exists 0%nat. split; [lia |].
      destruct a, b; cbn in *; exact N.
Qed.

(** The loop returns -2 only from a chunk found corrupted. *)
Lemma firmware_loop_corruption_code (fuel : nat) :
  forall (ii : Z) (cur : list Z) (w w' : world),
    firmware_loop fuel ii cur w = Some (inl (-2), w') ->
    exists (ii' : Z) (cur' : list Z) (w'' : world),
      ii' < DMP_CODE_SIZE /\ firmware_chunk ii' cur' w'' = ChunkCorrupted w'.
Proof.
  induction fuel as [| fuel IH]; intros ii cur w w' E; [discriminate |].
  cbn [firmware_loop] in E.
  destruct (Z.ltb_spec ii DMP_CODE_SIZE) as [Lt | Ge]; [| discriminate].
  destruct (firmware_chunk ii cur w) as [x | x | x | c x] eqn:K;
    try discriminate.
  - injection E as <-. exists ii, cur, w. split; assumption.
  - apply (IH _ _ _ _ E).
Qed.

(** With a positive chunk size and an image below 64 KiB the load always
    returns. *)
Lemma dmp_load_motion_driver_firmware_returns (w : world) :
  0 < DMP_LOAD_CHUNK -> DMP_CODE_SIZE < 2 ^ 16 ->
  exists r w', dmp_load_motion_driver_firmware w = Some (r, w').
Proof.
  intros HC HS.
  unfold dmp_load_motion_driver_firmware,
    dmp_load_motion_driver_firmware_fuel.
  destruct (firmware_loop_enough (S (Z.to_nat DMP_CODE_SIZE)) HC HS 0
              (repeat 0 (Z.to_nat DMP_LOAD_CHUNK))
              (tell (I2cSetDeviceAddress IMU_ADDR) w) (Z.le_refl 0))
    as [[[r | u] w'] E].
  - rewrite Z.sub_0_r. apply Nat.lt_succ_diag_r.
  - rewrite E. eexists; eexists; reflexivity.
  - rewrite E. destruct (i2c_write_bytes _ _ w') as [r w''].
    destruct (truthy r); eexists; eexists; reflexivity.
Qed.

(** C8.  The loader writes the image in chunks of at most
    [DMP_LOAD_CHUNK] bytes.  For any chunk it gets to: when the chunk was
    written and read back and a byte of the read-back differs from the
    image, the chunk is found corrupted; a corrupted chunk makes the load
    return -2; a chunk whose write or read fails makes it return -1; the
    two codes differ, and -2 is returned only for a corrupted chunk. *)
Theorem firmware_corruption_is_reported
  (w0 : world) (ii : Z) (cur : list Z) (w : world) :
  0 < DMP_LOAD_CHUNK -> DMP_CODE_SIZE < 2 ^ 16 ->
  verified_upto w0 ii cur w -> ii < DMP_CODE_SIZE ->
  0 < this_write ii <= DMP_LOAD_CHUNK /\
  (forall (w1 : world) (back : list Z) (w2 : world),
     mpu_write_mem ii (this_write ii) (firmware_from ii) w = (0, w1) ->
     mpu_read_mem ii (this_write ii) cur w1 = (0, back, w2) ->
     differ_within (Z.to_nat (this_write ii)) (firmware_from ii) back ->
     firmware_chunk ii cur w = ChunkCorrupted w2) /\
  (forall w', firmware_chunk ii cur w = ChunkCorrupted w' ->
     dmp_load_motion_driver_firmware w0 = Some (-2, w')) /\
  (forall w', firmware_chunk ii cur w = ChunkWriteFailed w' \/
              firmware_chunk ii cur w = ChunkReadFailed w' ->
     dmp_load_motion_driver_firmware w0 = Some (-1, w')) /\
  -2 <> -1 /\
  (forall w', dmp_load_motion_driver_firmware w0 = Some (-2, w') ->
     exists (ii' : Z) (cur' : list Z) (w'' : world),
       ii' < DMP_CODE_SIZE /\
       firmware_chunk ii' cur' w'' = ChunkCorrupted w').
Proof.
  intros HC HS V Lt.
  pose proof (verified_upto_range w0 ii cur w HC HS V) as I.
  pose proof (verified_upto_loop w0 ii cur w HC HS V) as L.
  rewrite (firmware_loop_step _ ii cur w Lt) in L.
  split; [apply (this_write_bounds ii HC HS (conj I Lt)) |].
  split; [| split; [| split; [| split; [lia |]]]].
  - intros w1 back w2 W R D. unfold firmware_chunk. rewrite W. cbn.
    rewrite R. cbn.
    apply memcmp_differs in D. unfold truthy.
    destruct (Z.eqb_spec (memcmp (firmware_from ii) back
                            (Z.to_nat (this_write ii))) 0);
      [contradiction | reflexivity].
  - intros w' E. rewrite E in L.
    unfold dmp_load_motion_driver_firmware,
      dmp_load_motion_driver_firmware_fuel.
    rewrite L. reflexivity.
  - intros w' [E | E]; rewrite E in L;
      unfold dmp_load_motion_driver_firmware,
        dmp_load_motion_driver_firmware_fuel;
      rewrite L; reflexivity.
  - clear L. intros w' E.
    unfold dmp_load_motion_driver_firmware,
      dmp_load_motion_driver_firmware_fuel in E.
    destruct (firmware_loop _ 0 _ _) as [[[r | u] x] |] eqn:K;
      try discriminate.
    + injection E as -> ->. apply (firmware_loop_corruption_code _ _ _ _ _ K).
    + destruct (i2c_write_bytes _ _ x) as [r y].
      destruct (truthy r); discriminate.
Qed.



(** A rate of 0 does not exceed the maximum rate, so [dmp_set_fifo_rate]
    does not reject it, and [DMP_MAX_RATE / rate] then divides by zero
    before anything is written. *)
Lemma dmp_set_fifo_rate_zero_divides (w : world) :
  0 <= DMP_MAX_RATE -> dmp_set_fifo_rate 0 w = DividesByZero w.
Proof.
  intros H. unfold dmp_set_fifo_rate.
  replace (0 >? DMP_MAX_RATE) with false
    by (symmetry; rewrite Z.gtb_ltb; apply Z.ltb_ge; exact H).
  reflexivity.
Qed.

End MemoryFacts.

(** The image of the bench, with one byte of the second chunk changed on
    read-back: the load returns -2. *)
Lemma firmware_corruption_is_reported_witness :
  option_map fst
    (dmp_load_motion_driver_firmware (hdr := Bench.header)
       (Bench.loader_world 3 1)) = Some (-2).
Proof.
  pose (w0 := Bench.loader_world 3 1).
  pose (c0 := firmware_chunk (hdr := Bench.header) 0 (repeat 0 16)
                (tell (I2cSetDeviceAddress 104) w0)).
  assert (V : verified_upto (hdr := Bench.header) w0 16
                (chunk_buffer c0) (chunk_world c0)).
  { apply (verified_next (hdr := Bench.header) w0 0 (repeat 0 16)
             (tell (I2cSetDeviceAddress 104) w0)).
    - apply (verified_start (hdr := Bench.header)).
    - reflexivity.
    - vm_compute. reflexivity. }
  pose (c1 := firmware_chunk (hdr := Bench.header) 16
                (chunk_buffer c0) (chunk_world c0)).
  destruct (firmware_corruption_is_reported (hdr := Bench.header) w0 16
              (chunk_buffer c0) (chunk_world c0) eq_refl eq_refl V eq_refl)
    as (_ & _ & K & _).
  fold w0. rewrite (K (chunk_world c1)); [reflexivity |].
  vm_compute. reflexivity.
Defined.

Section FifoRateFacts.
Context {F : Type} {fl2 : FloatOps2 F} {hdr : Header} {hdr2 : Header2}.



End FifoRateFacts.



(** ** Gyroscope calibration *)

Section CalibrationFacts.
Context {F : Type} {fl : FloatOps F} {ml : MathLib F} {hdr : Header}.

Lemma ask_disk (e : event) (w : world) :
  is_disk e = false -> disk_events (snd (ask e w)) = disk_events w.
Proof.
  intros D. unfold ask, disk_events.
  destruct (replies w); cbn; rewrite D; reflexivity.
Qed.

Lemma tell_disk (e : event) (w : world) :
  is_disk e = false -> disk_events (tell e w) = disk_events w.
Proof. intros D. unfold tell, disk_events. cbn. rewrite D. reflexivity. Qed.

Lemma i2c_write_byte_disk (reg val : Z) (w : world) :
  disk_events (snd (i2c_write_byte reg val w)) = disk_events w.
Proof.
  unfold i2c_write_byte.
  pose proof (ask_disk (I2cWriteByte reg val) w eq_refl) as A.
  destruct (ask _ w) as [[| p] w']; exact A.
Qed.

Lemma i2c_read_bytes_disk (reg len : Z) (w : world) :
  disk_events (snd (i2c_read_bytes reg len w)) = disk_events w.
Proof.
  unfold i2c_read_bytes.
  pose proof (ask_disk (I2cReadBytes reg len) w eq_refl) as A.
  destruct (ask _ w) as [[| p] w']; exact A.
Qed.

Lemma query_disk (e : event) (w : world) :
  is_disk e = false -> disk_events (snd (query e w)) = disk_events w.
Proof.
  intros D. unfold query. pose proof (ask_disk e w D) as A.
  destruct (ask e w) as [[| p] w']; exact A.
Qed.

(** Rewrites the disk events of a world reached by bus requests back to
    those of the world it started from. *)
Ltac bus_steps :=
  repeat first
    [ match goal with
      | |- context [i2c_write_byte ?r ?v ?x] =>
          let H := fresh "D" in
          pose proof (i2c_write_byte_disk r v x) as H;
          destruct (i2c_write_byte r v x) as [? ?]; cbn [snd] in H
      | |- context [i2c_read_bytes ?r ?n ?x] =>
          let H := fresh "D" in
          pose proof (i2c_read_bytes_disk r n x) as H;
          destruct (i2c_read_bytes r n x) as [[? ?] ?]; cbn [snd] in H
      | |- context [query ?e ?x] =>
          let H := fresh "D" in
          pose proof (query_disk e x eq_refl) as H;
          destruct (query e x) as [? ?]; cbn [snd] in H
      end
    | match goal with
      | |- context [if truthy ?x then _ else _] => destruct (truthy x)
      | |- context [if ?x <? 0 then _ else _] => destruct (x <? 0)
      end ].

Ltac chain_disk :=
  repeat match goal with
    | H : disk_events ?a = _ |- disk_events ?a = _ => rewrite H; clear H
    end;
  reflexivity.

Lemma reset_mpu9250_disk (w : world) :
  disk_events (snd (reset_mpu9250 w)) = disk_events w.
Proof.
  unfold reset_mpu9250. bus_steps; cbn [snd];
    rewrite ?tell_disk in * by reflexivity; chain_disk.
Qed.

Lemma read_samples_disk (n : nat) :
  forall (ds : dataset) (data : list Z) (w : world),
    disk_events (snd (read_samples n ds data w)) = disk_events w.
Proof.
  induction n as [| n IH]; intros ds data w; cbn [read_samples];
    [reflexivity |].
  pose proof (i2c_read_bytes_disk FIFO_R_W 6 w) as D.
  destruct (i2c_read_bytes FIFO_R_W 6 w) as [[r got] w']. cbn [snd] in D.
  destruct (r <? 0); [exact D |]. rewrite IH. exact D.
Qed.

(** A pass over the FIFO does not touch the file system. *)
Lemma collect_data_disk (data : list Z) (w : world) :
  disk_events (snd (collect_data data w)) = disk_events w.
Proof.
  unfold collect_data. bus_steps. rewrite read_samples_disk.
  rewrite ?tell_disk in * by reflexivity. chain_disk.
Qed.

(** Neither does the set-up before the first pass. *)
Lemma calibration_setup_disk (w : world) :
  disk_events (snd (calibration_setup w)) = disk_events w.
Proof.
  unfold calibration_setup.
  pose proof (query_disk I2cGetInUseState w eq_refl) as D0.
  destruct (query I2cGetInUseState w) as [r0 w0]. cbn [snd] in D0.
  destruct (truthy r0); [exact D0 |].
  pose proof (query_disk (I2cInit IMU_ADDR) w0 eq_refl) as D1.
  destruct (query (I2cInit IMU_ADDR) w0) as [r1 w1]. cbn [snd] in D1.
  destruct (truthy r1); [cbn [snd]; chain_disk |].
  pose proof (reset_mpu9250_disk (tell I2cClaimBus w1)) as D2.
  destruct (reset_mpu9250 (tell I2cClaimBus w1)) as [r2 w2]. cbn [snd] in D2.
  rewrite tell_disk in D2 by reflexivity.
  destruct (r2 <? 0); [cbn [snd]; chain_disk |].
  bus_steps. cbn [snd]. rewrite ?tell_disk in * by reflexivity. chain_disk.
Qed.

(** What [write_gyro_offets_to_disk] asks of the file system: the only
    values it prints are the offsets it was given. *)
Lemma write_gyro_offets_to_disk_prints (offsets v : list Z) (w : world) :
  In (Fprintf v) (disk_events (snd (write_gyro_offets_to_disk offsets w))) ->
  v = offsets \/ In (Fprintf v) (disk_events w).
Proof.
  unfold write_gyro_offets_to_disk, ask, tell, disk_events.
  destruct w as [rs lg]. cbn [replies log].
  destruct rs as [| [| p] rs]; cbn [replies log snd filter is_disk].
  - cbn. intuition discriminate.
  - destruct rs as [| [| p] rs]; cbn [replies log snd filter is_disk];
      cbn; intros H;
      repeat match goal with
        | H : _ \/ _ |- _ => destruct H as [H | H]
        | H : Fprintf _ = Fprintf _ |- _ => injection H as <-
        end; try discriminate; auto.
    destruct rs as [| [| q] rs]; cbn in H;
      repeat match goal with
        | H : _ \/ _ |- _ => destruct H as [H | H]
        | H : Fprintf _ = Fprintf _ |- _ => injection H as <-
        end; try discriminate; auto.
  - destruct rs as [| [| q] rs]; cbn; intros H;
      repeat match goal with
        | H : _ \/ _ |- _ => destruct H as [H | H]
        | H : Fprintf _ = Fprintf _ |- _ => injection H as <-
        end; try discriminate; auto.
Qed.

Lemma too_noisy_false (ds : dataset) : too_noisy ds = false -> quiet ds.
Proof.
  unfold too_noisy, quiet. intros H. apply Forall_forall. intros dev I.
  destruct (F_ltb (F_of_Z GYRO_CAL_THRESH) dev) eqn:E; [| reflexivity].
  assert (X : existsb (fun dev => F_ltb (F_of_Z GYRO_CAL_THRESH) dev)
                 (deviations ds) = true)
    by (apply existsb_exists; exists dev; split; assumption).
  congruence.
Qed.

Lemma out_of_bounds_false (ds : dataset) :
  out_of_bounds (mean_offsets ds) = false -> centred ds.
Proof.
  unfold out_of_bounds, centred. intros H. apply Forall_forall. intros o I.
  destruct (Z.abs o >? GYRO_OFFSET_THRESH) eqn:E.
  - assert (X : existsb (fun o => Z.abs o >? GYRO_OFFSET_THRESH)
                  (mean_offsets ds) = true)
      by (apply existsb_exists; exists o; split; assumption).
    congruence.
  - rewrite Z.gtb_ltb in E. apply Z.ltb_ge in E. exact E.
Qed.

(** One pass that ends in a discarded dataset costs one unit of fuel and
    leaves the routine at [COLLECT_DATA] again. *)
Lemma calibrate_resample (fuel : nat) (data : list Z) (w : world)
  (ds : dataset) (data' : list Z) (w' : world) :
  collect_data data w = (Some ds, data', w') -> resampled ds = true ->
  calibrate_from_COLLECT_DATA (S fuel) data w
  = calibrate_from_COLLECT_DATA fuel data' w'.
Proof.
  intros E R. cbn [calibrate_from_COLLECT_DATA]. rewrite E.
  unfold resampled in R. destruct (too_noisy ds); [reflexivity |].
  cbn [orb] in R. apply andb_prop in R as [R1 R2].
  destruct (CInt.int32_t (samples ds) =? 0); [discriminate |].
  rewrite R2. reflexivity.
Qed.

(** The routine from [COLLECT_DATA] on touches the file system only with
    the offsets of a dataset that passed both tests. *)
Lemma calibrate_from_COLLECT_DATA_persists (fuel : nat) :
  forall (data : list Z) (w : world) (res : c_result),
    calibrate_from_COLLECT_DATA fuel data w = Some res ->
    disk_events (result_world res) = disk_events w \/
    exists (data1 : list Z) (w1 : world) (ds : dataset)
           (data2 : list Z) (w2 : world),
      resamples (data, w) (data1, w1) /\
      collect_data data1 w1 = (Some ds, data2, w2) /\
      quiet ds /\ centred ds /\
      result_world res =
        snd (write_gyro_offets_to_disk (mean_offsets ds)
               (tell I2cReleaseBus w2)) /\
      forall v, In (Fprintf v) (disk_events (result_world res)) ->
                v = mean_offsets ds \/ In (Fprintf v) (disk_events w).
Proof.
  induction fuel as [| fuel IH]; intros data w res E; [discriminate |].
  cbn [calibrate_from_COLLECT_DATA] in E.
  pose proof (collect_data_disk data w) as D.
  destruct (collect_data data w) as [[[ds |] data'] w'] eqn:C; cbn [snd] in D.
  2: { injection E as <-. left. exact D. }
  assert (Again : forall r,
            resampled ds = true ->
            calibrate_from_COLLECT_DATA fuel data' w' = Some r ->
            disk_events (result_world r) = disk_events w \/
            exists (data1 : list Z) (w1 : world) (ds1 : dataset)
                   (data2 : list Z) (w2 : world),
              resamples (data, w) (data1, w1) /\
              collect_data data1 w1 = (Some ds1, data2, w2) /\
              quiet ds1 /\ centred ds1 /\
              result_world r =
                snd (write_gyro_offets_to_disk (mean_offsets ds1)
                       (tell I2cReleaseBus w2)) /\
              forall v, In (Fprintf v) (disk_events (result_world r)) ->
                        v = mean_offsets ds1 \/ In (Fprintf v) (disk_events w)).
  { intros r R E'. destruct (IH data' w' r E') as [Same | More].
    - left. congruence.
    - right. destruct More as (d1 & w1 & ds1 & d2 & w2 & A & B & Q & Ce & W & P).
      exists d1, w1, ds1, d2, w2. repeat split; try assumption.
      + apply (resamples_again data w ds data' w' _ C R A).
      + intros v I. rewrite <- D. apply P, I. }
  destruct (too_noisy ds) eqn:N.
  { apply Again; [unfold resampled; rewrite N; reflexivity | exact E]. }
  destruct (CInt.int32_t (samples ds) =? 0) eqn:Z0.
  { injection E as <-. left. exact D. }
  destruct (out_of_bounds (mean_offsets ds)) eqn:O.
  { apply Again; [unfold resampled; rewrite N, Z0, O; reflexivity | exact E]. }
  right. exists data, w, ds, data', w'.
  assert (W : result_world res =
              snd (write_gyro_offets_to_disk (mean_offsets ds)
                     (tell I2cReleaseBus w'))).
  { destruct (write_gyro_offets_to_disk _ _) as [r wd].
    destruct (r <? 0); injection E as <-; reflexivity. }
  repeat split.
  - apply resamples_here.
  - exact C.
  - apply too_noisy_false, N.
  - apply out_of_bounds_false, O.
  - exact W.
  - intros v I. rewrite W in I.
    apply write_gyro_offets_to_disk_prints in I.
    rewrite tell_disk in I by reflexivity. rewrite D in I. exact I.
Qed.

(** A dataset with no sample has mean offsets of zero in this model, so a
    dataset that is not centred has samples. *)
Lemma not_centred_has_samples (ds : dataset) :
  ~ centred ds -> (CInt.int32_t (samples ds) =? 0) = false.
Proof.
  intros N. destruct (Z.eqb_spec (CInt.int32_t (samples ds)) 0) as [E |];
    [| reflexivity].
  exfalso. apply N. unfold centred, mean_offsets. rewrite E.
  apply Forall_forall. intros o I. apply in_map_iff in I as (s0 & <- & _).
  rewrite Z.quot_0_r_ext by reflexivity. cbn. unfold GYRO_OFFSET_THRESH. lia.
Qed.

(** C9.  A run of [calibrate_gyro_routine] either leaves the file system
    as it was, or writes the mean offsets of a dataset whose deviation is
    at most 50 on every axis and whose mean offset is at most 500 in
    magnitude on every axis.  A dataset that breaks either bound sends the
    routine back to collect data again, and the pass that collected it wrote
    nothing to the disk. *)
Theorem gyro_offsets_persisted_only_when_quiet
  (fuel : nat) (data : list Z) (w : world) (res : c_result) :
  calibrate_gyro_routine fuel data w = Some res ->
  (disk_events (result_world res) = disk_events w \/
   persists_a_quiet_dataset data w res) /\
  (forall (data1 : list Z) (w1 : world) (ds : dataset)
          (data2 : list Z) (w2 : world),
     collect_data data1 w1 = (Some ds, data2, w2) ->
     ~ quiet ds \/ ~ centred ds ->
     disk_events w2 = disk_events w1 /\
     forall n, calibrate_from_COLLECT_DATA (S n) data1 w1
               = calibrate_from_COLLECT_DATA n data2 w2).
Proof.
  intros E. split.
  - unfold calibrate_gyro_routine in E.
    pose proof (calibration_setup_disk w) as D.
    destruct (calibration_setup w) as [[r |] w0] eqn:S0; cbn [snd] in D.
    + injection E as <-. left. exact D.
    + destruct (calibrate_from_COLLECT_DATA_persists fuel data w0 res E)
        as [Same | (d1 & w1 & ds & d2 & w2 & A & B & Q & Ce & W & P)].
      * left. congruence.
      * right. exists w0, d1, w1, ds, d2, w2. repeat split; try assumption.
        intros v I. rewrite <- D. apply P, I.
  - intros data1 w1 ds data2 w2 C V. split.
    + pose proof (collect_data_disk data1 w1) as D. rewrite C in D. exact D.
    + intros n. apply (calibrate_resample n data1 w1 ds data2 w2 C).
      unfold resampled. destruct (too_noisy ds) eqn:N; [reflexivity |].
      destruct V as [V | V]; [elim V; apply too_noisy_false, N |].
      rewrite (not_centred_has_samples ds V). cbn.
      destruct (out_of_bounds (mean_offsets ds)) eqn:O; [reflexivity |].
      elim V. apply out_of_bounds_false, O.
Qed.

End CalibrationFacts.

(** A noisy pass, then a quiet pass: the offsets of the quiet pass are
    written. *)
Lemma gyro_offsets_persisted_only_when_quiet_witness :
  disk_events (result_world Bench.calibration_result)
  = disk_events Bench.calibration_world \/
  persists_a_quiet_dataset (fl := Bench.q_float) (ml := Bench.q_math)
    (hdr := Bench.header) (repeat 0 6) Bench.calibration_world
    Bench.calibration_result.
Proof.
  refine (proj1 (gyro_offsets_persisted_only_when_quiet
                   (fl := Bench.q_float) (ml := Bench.q_math)
                   (hdr := Bench.header) 5 (repeat 0 6)
                   Bench.calibration_world Bench.calibration_result _)).
  vm_compute. reflexivity.
Defined.

(** * Part II, continued: the rest of the driver *)

(** ** Sample rate *)

Section SampleRateFacts.
Context {hdr : Header}.

(** X1.  [mpu_set_sample_rate] rejects a rate outside 4..1000 without touching
    the device; for a rate inside, the divider it writes to [SMPLRT_DIV] is
    [1000 / rate - 1], which fits the 8-bit register as it is, and
    [rate * (divider + 1)] is the largest multiple of [rate] that does not
    exceed 1000. *)
Theorem mpu_set_sample_rate_divider (rate : Z) (w : world) :
  (rate > 1000 \/ rate < 4 -> mpu_set_sample_rate rate w = (-1, w)) /\
  (4 <= rate <= 1000 ->
   exists d,
     log (snd (mpu_set_sample_rate rate w))
       = I2cWriteByte SMPLRT_DIV d :: log w /\
     0 <= d <= 249 /\
     rate * (d + 1) <= 1000 < rate * (d + 2)).
Proof.
  unfold mpu_set_sample_rate. split.
  - intros O.
    replace ((rate >? 1000) || (rate <? 4)) with true; [reflexivity |].
    symmetry. apply orb_true_iff. rewrite Z.gtb_ltb, !Z.ltb_lt. lia.
  - intros I.
    replace ((rate >? 1000) || (rate <? 4)) with false
      by (symmetry; apply orb_false_iff; rewrite Z.gtb_ltb, !Z.ltb_ge; lia).
    assert (Q : 1 <= Z.quot 1000 rate <= 250 /\
                rate * Z.quot 1000 rate <= 1000
                < rate * (Z.quot 1000 rate + 1)).
    { rewrite Z.quot_div_nonneg by lia.
      pose proof (Z.mul_div_le 1000 rate ltac:(lia)).
      pose proof (Z.mul_succ_div_gt 1000 rate ltac:(lia)).
      assert (1000 / rate <= 250)
        by (apply Z.div_le_upper_bound; lia).
      assert (1 <= 1000 / rate)
        by (apply Z.div_le_lower_bound; lia).
      lia. }
    exists (Z.quot 1000 rate - 1).
    unfold CInt.uint8_t, CInt.unsigned. rewrite Z.mod_small by lia.
    pose proof (i2c_write_byte_log SMPLRT_DIV (Z.quot 1000 rate - 1) w) as L.
    destruct (i2c_write_byte SMPLRT_DIV _ w) as [r w']. cbn [snd] in L.
    split; [destruct (truthy r); exact L |].
    split; [lia |].
    replace (Z.quot 1000 rate - 1 + 1) with (Z.quot 1000 rate) by lia.
    replace (Z.quot 1000 rate - 1 + 2) with (Z.quot 1000 rate + 1) by lia.
    lia.
Qed.

End SampleRateFacts.

(** The rate of 200 Hz that [initialize_imu_dmp] asks for: the divider
    is 4. *)
Lemma mpu_set_sample_rate_divider_witness :
  exists d,
    log (snd (mpu_set_sample_rate (hdr := Bench.header) 200
                (mkWorld [Ack []] [])))
      = [I2cWriteByte 25 d] /\
    0 <= d <= 249 /\ 200 * (d + 1) <= 1000 < 200 * (d + 2).
Proof.
  apply (proj2 (mpu_set_sample_rate_divider (hdr := Bench.header) 200
                  (mkWorld [Ack []] []))).
  lia.
Defined.

(** ** Orientation scalars *)

Section OrientationFacts.
Context {hdr : Header} {hdr2 : Header2}.

(** The three entries of the matrix row that starts at [k]. *)
Lemma row_of_skipn (mtx : list Z) (k j : nat) :
  row_at (skipn k mtx) j = nth (k + j) mtx 0.
Proof.
  unfold row_at. revert mtx. induction k as [| k IH]; intros mtx.
  - reflexivity.
  - destruct mtx as [| x m]; [destruct j; reflexivity |]. cbn. apply IH.
Qed.

Lemma inv_row_2_scale_first (row : list Z) :
  match first_nonzero [row_at row 0; row_at row 1; row_at row 2] with
  | None => inv_row_2_scale row = 7
  | Some (k, negative) =>
      (k < 3)%nat /\
      inv_row_2_scale row = Z.of_nat k + (if negative then 4 else 0) /\
      Z.land (inv_row_2_scale row) 3 = Z.of_nat k /\
      truthy (Z.land (inv_row_2_scale row) 4) = negative
  end.
Proof.
  unfold inv_row_2_scale. cbn [first_nonzero].
  set (a := row_at row 0). set (b := row_at row 1). set (c := row_at row 2).
  rewrite !Z.gtb_ltb.
  destruct (Z.eqb_spec a 0) as [-> | Na].
  - destruct (Z.eqb_spec b 0) as [-> | Nb].
    + destruct (Z.eqb_spec c 0) as [-> | Nc]; cbn.
      * reflexivity.
      * destruct (Z.ltb_spec 0 c); destruct (Z.ltb_spec c 0); try lia;
          cbn; repeat split; lia.
    + cbn. destruct (Z.ltb_spec 0 b); destruct (Z.ltb_spec b 0); try lia;
        cbn; repeat split; lia.
  - cbn. destruct (Z.ltb_spec 0 a); destruct (Z.ltb_spec a 0); try lia;
      cbn; repeat split; lia.
Qed.

(** X2.  [inv_row_2_scale] encodes the first entry of the row that is not zero:
    its position in the two low bits, its sign in bit 2.  A row of zeros
    gives 7. *)
Theorem inv_row_2_scale_encodes (row : list Z) :
  match first_nonzero [row_at row 0; row_at row 1; row_at row 2] with
  | None => inv_row_2_scale row = 7
  | Some (k, negative) =>
      (k < 3)%nat /\
      inv_row_2_scale row = Z.of_nat k + (if negative then 4 else 0) /\
      Z.land (inv_row_2_scale row) 3 = Z.of_nat k /\
      truthy (Z.land (inv_row_2_scale row) 4) = negative
  end.
Proof.
  exact (inv_row_2_scale_first row).
Qed.

Lemma inv_row_2_scale_cases (row : list Z) :
  In (inv_row_2_scale row) [0; 1; 2; 4; 5; 6; 7].
Proof.
  unfold inv_row_2_scale.
  repeat match goal with
    | |- context [if ?c then _ else _] => destruct c
    end; cbn; tauto.
Qed.

(** X3.  The scalar of a matrix is below 512, and its three 3-bit fields are the
    scales of the three rows. *)
Theorem inv_orientation_matrix_to_scalar_fields (mtx : list Z) :
  let s := inv_orientation_matrix_to_scalar mtx in
  0 <= s < 512 /\
  Z.land s 7 = inv_row_2_scale mtx /\
  Z.land (Z.shiftr s 3) 7 = inv_row_2_scale (skipn 3 mtx) /\
  Z.land (Z.shiftr s 6) 7 = inv_row_2_scale (skipn 6 mtx).
Proof.
  unfold inv_orientation_matrix_to_scalar.
  pose proof (inv_row_2_scale_cases mtx) as A.
  pose proof (inv_row_2_scale_cases (skipn 3 mtx)) as B.
  pose proof (inv_row_2_scale_cases (skipn 6 mtx)) as C.
  cbn [In] in A, B, C.
  repeat match goal with
    | H : _ \/ _ |- _ => destruct H as [H | H]
    | H : False |- _ => destruct H
    end;
    rewrite <- A, <- B, <- C; vm_compute; repeat split; congruence.
Qed.






End OrientationFacts.

(** ** Gyroscope offsets and DMP features *)

(** ** What the bus requests add to the log *)

Section LogFacts.

Lemma i2c_write_bytes_log (reg : Z) (data : list Z) (w : world) :
  log (snd (i2c_write_bytes reg data w)) = I2cWriteBytes reg data :: log w.
Proof.
  unfold i2c_write_bytes, ask.
  destruct (replies w) as [| [| p] rs]; reflexivity.
Qed.

Lemma i2c_read_bytes_log (reg len : Z) (w : world) :
  log (snd (i2c_read_bytes reg len w)) = I2cReadBytes reg len :: log w.
Proof.
  unfold i2c_read_bytes, ask.
  destruct (replies w) as [| [| p] rs]; reflexivity.
Qed.

End LogFacts.

Section OffsetFacts.
Context {hdr : Header} {hdr2 : Header2}.
Import CInt CIntFacts.

(** The two bytes written for an offset, read back as a big-endian 16-bit
    value. *)
Lemma offset_bytes_be16 (x : Z) (rest : list Z) :
  - 2 ^ 17 < x < 2 ^ 17 ->
  be16 (offset_bytes x ++ rest) 0 = Z.quot (- x) 4.
Proof.
  intros R. unfold offset_bytes, be16, raw_at, int32_t.
  rewrite (signed_small 32 (- x)) by lia.
  set (q := Z.quot (- x) 4).
  assert (Q : - 2 ^ 15 < q < 2 ^ 15).
  { subst q. pose proof (Z.quot_lt_upper_bound).
    destruct (Z.le_gt_cases 0 (- x)).
    - rewrite Z.quot_div_nonneg by lia.
      assert (0 <= - x / 4 < 2 ^ 15); [| lia].
      split; [apply Z.div_pos; lia | apply Z.div_lt_upper_bound; lia].
    - replace (- x) with (- (x)) by lia. rewrite Z.quot_opp_l by lia.
      rewrite Z.quot_div_nonneg by lia.
      assert (0 <= x / 4 < 2 ^ 15); [| lia].
      split; [apply Z.div_pos; lia | apply Z.div_lt_upper_bound; lia]. }
  change (Z.to_nat 0) with 0%nat. change (Z.to_nat (0 + 1)) with 1%nat.
  cbn [app nth].
  change 255 with (Z.ones 8). rewrite !Z.land_ones by lia.
  rewrite Z.shiftr_div_pow2, Z.shiftl_mul_pow2 by lia.
  unfold uint8_t, unsigned. rewrite !Z.mod_mod by lia.
  rewrite lor_shifted_low
    by (try lia; apply Z.mod_pos_bound; lia).
  unfold int16_t, signed.
  change (2 ^ 8) with 256. change (2 ^ (16 - 1)) with 32768.
  change (2 ^ 16) with 65536. change (2 ^ 15) with 32768 in Q.
  Z.div_mod_to_equations. lia.
Qed.

(** X5.  [load_gyro_offets] writes six bytes to the offset registers: for each
    axis the big-endian 16-bit value of the stored offset, negated and
    divided by 4 (rounding towards zero).  A calibration file that cannot be
    opened is treated as three offsets of zero. *)
Theorem load_gyro_offets_registers (x y z : Z) (w : world) :
  - 2 ^ 17 < x < 2 ^ 17 -> - 2 ^ 17 < y < 2 ^ 17 -> - 2 ^ 17 < z < 2 ^ 17 ->
  (exists data,
     log (snd (load_gyro_offets (Some (x, y, z)) w))
       = I2cWriteBytes XG_OFFSET_H data :: log w /\
     length data = 6%nat /\
     be16_triplet data 0 = [Z.quot (- x) 4; Z.quot (- y) 4; Z.quot (- z) 4]) /\
  load_gyro_offets None w = load_gyro_offets (Some (0, 0, 0)) w.
Proof.
  intros X Y Z. split; [| reflexivity]. unfold load_gyro_offets.
  exists (offset_bytes x ++ offset_bytes y ++ offset_bytes z).
  pose proof (i2c_write_bytes_log XG_OFFSET_H
                (offset_bytes x ++ offset_bytes y ++ offset_bytes z) w) as L.
  destruct (i2c_write_bytes _ _ w) as [r w']. cbn [snd] in L.
  split; [destruct (truthy r); exact L |].
  split; [reflexivity |].
  unfold be16_triplet. f_equal; [| f_equal; [| f_equal]].
  - apply offset_bytes_be16; assumption.
  - change (be16 (offset_bytes x ++ offset_bytes y ++ offset_bytes z) (0 + 2))
      with (be16 (offset_bytes y ++ offset_bytes z) 0).
    apply offset_bytes_be16; assumption.
  - change (be16 (offset_bytes x ++ offset_bytes y ++ offset_bytes z) (0 + 4))
      with (be16 (offset_bytes z ++ []) 0).
    apply offset_bytes_be16; assumption.
Qed.

End OffsetFacts.

(** Offsets of 40, -8 and 3: the registers receive -10, 2 and 0. *)
Lemma load_gyro_offets_registers_witness :
  (exists data,
     log (snd (load_gyro_offets (hdr2 := Bench2.header2) (Some (40, -8, 3))
                 (mkWorld [Ack []] [])))
       = I2cWriteBytes 19 data :: [] /\
     length data = 6%nat /\
     be16_triplet data 0
       = [Z.quot (- 40) 4; Z.quot (- -8) 4; Z.quot (- 3) 4]) /\
  load_gyro_offets (hdr2 := Bench2.header2) None (mkWorld [Ack []] [])
    = load_gyro_offets (hdr2 := Bench2.header2) (Some (0, 0, 0))
        (mkWorld [Ack []] []).
Proof.
  apply (load_gyro_offets_registers (hdr2 := Bench2.header2) 40 (-8) 3
           (mkWorld [Ack []] [])); lia.
Defined.

Section FeatureFacts.
Context {F : Type} {fl : FloatOps F} {ml : MathLib F}
        {hdr : Header} {hdr2 : Header2}.

Lemma feature_packet_len_cases (mask : Z) :
  In (feature_packet_len mask) [0; 6; 12; 16; 22; 28].
Proof.
  unfold feature_packet_len.
  repeat match goal with
    | |- context [if ?c then _ else _] => destruct c
    end; cbn; tauto.
Qed.

Lemma dmp_enable_feature_result (mask : Z) (g : globals F) (w : world) :
  fst (dmp_enable_feature mask g w)
    = (0, with_packet_len (feature_packet_len mask) g).
Proof.
  unfold dmp_enable_feature.
  repeat match goal with
    | |- context [let '(_, _) := ?x in _] => destruct x
    end.
  reflexivity.
Qed.

(** X6.  [dmp_enable_feature] returns 0 whatever the bus answers, and leaves a
    packet length of 0, 6, 12, 16, 22 or 28 bytes.  After it,
    [read_dmp_fifo] is ready to run exactly when the DMP is enabled and the
    mask asks for the accelerometer, for a gyroscope output and for a
    quaternion. *)
Theorem dmp_enable_feature_packet_len (mask : Z) (g : globals F) (w : world) :
  let '(ret, g', w') := dmp_enable_feature mask g w in
  ret = 0 /\
  In (packet_len g') [0; 6; 12; 16; 22; 28] /\
  (ready g' = true <->
     truthy (dmp_en g) = true /\
     truthy (Z.land mask DMP_FEATURE_SEND_RAW_ACCEL) = true /\
     truthy (Z.land mask DMP_FEATURE_SEND_ANY_GYRO) = true /\
     truthy (Z.land mask (Z.lor DMP_FEATURE_LP_QUAT DMP_FEATURE_6X_LP_QUAT))
       = true).
Proof.
  pose proof (dmp_enable_feature_result mask g w) as R.
  destruct (dmp_enable_feature mask g w) as [[ret g'] w'].
  cbn [fst] in R. injection R as -> ->.
  split; [reflexivity |].
  split; [apply feature_packet_len_cases |].
  unfold ready, with_packet_len, feature_packet_len. cbn [dmp_en packet_len].
  destruct (truthy (dmp_en g));
    destruct (truthy (Z.land mask DMP_FEATURE_SEND_RAW_ACCEL));
    destruct (truthy (Z.land mask DMP_FEATURE_SEND_ANY_GYRO));
    destruct (truthy (Z.land mask _));
    vm_compute; intuition congruence.
Qed.

End FeatureFacts.

(** ** The FIFO rate after the checks of [initialize_imu_dmp] *)

Section RateFacts.
Context {F : Type} {fl : FloatOps F} {fl2 : FloatOps2 F} {ml : MathLib F}
        {hdr : Header} {hdr2 : Header2}.

Lemma mpu_write_mem_ok (a n : Z) (d : list Z) (w w' : world) (r : Z) :
  mpu_write_mem a n d w = (r, w') -> truthy r = false ->
  log w' = I2cWriteBytes MPU6500_MEM_R_W (firstn (Z.to_nat n) d)
           :: I2cWriteBytes MPU6500_BANK_SEL
                [CInt.uint8_t (Z.shiftr a 8); CInt.uint8_t (Z.land a 255)]
           :: log w.
Proof.
  unfold mpu_write_mem.
  destruct (_ >? _); [intros E; injection E as <- _; discriminate |].
  pose proof (i2c_write_bytes_log MPU6500_BANK_SEL
                [CInt.uint8_t (Z.shiftr a 8); CInt.uint8_t (Z.land a 255)] w)
    as L1.
  destruct (i2c_write_bytes MPU6500_BANK_SEL _ w) as [r1 w1]. cbn [snd] in L1.
  destruct (truthy r1); [intros E; injection E as <- _; discriminate |].
  pose proof (i2c_write_bytes_log MPU6500_MEM_R_W (firstn (Z.to_nat n) d) w1)
    as L2.
  destruct (i2c_write_bytes MPU6500_MEM_R_W _ w1) as [r' w2]. cbn [snd] in L2.
  destruct (truthy r'); [intros E; injection E as <- _; discriminate |].
  intros E _. injection E as _ <-. rewrite L2, L1. reflexivity.
Qed.

Lemma mpu_read_mem_ok (a n : Z) (d d' : list Z) (w w' : world) (r : Z) :
  mpu_read_mem a n d w = (r, d', w') -> truthy r = false ->
  log w' = I2cReadBytes MPU6500_MEM_R_W n
           :: I2cWriteBytes MPU6500_BANK_SEL
                [CInt.uint8_t (Z.shiftr a 8); CInt.uint8_t (Z.land a 255)]
           :: log w.
Proof.
  unfold mpu_read_mem.
  destruct (_ >? _); [intros E; injection E as <- _ _; discriminate |].
  pose proof (i2c_write_bytes_log MPU6500_BANK_SEL
                [CInt.uint8_t (Z.shiftr a 8); CInt.uint8_t (Z.land a 255)] w)
    as L1.
  destruct (i2c_write_bytes MPU6500_BANK_SEL _ w) as [r1 w1]. cbn [snd] in L1.
  destruct (truthy r1); [intros E; injection E as <- _ _; discriminate |].
  pose proof (i2c_read_bytes_log MPU6500_MEM_R_W n w1) as L2.
  destruct (i2c_read_bytes MPU6500_MEM_R_W n w1) as [[k got] w2].
  cbn [snd] in L2.
  destruct (negb (k =? n)); [intros E; injection E as <- _ _; discriminate |].
  intros E _. injection E as _ _ <-. rewrite L2, L1. reflexivity.
Qed.

Lemma mpu_write_mem_grows (a n : Z) (d : list Z) (w : world) :
  grows (log w) (snd (mpu_write_mem a n d w)).
Proof.
  unfold mpu_write_mem.
  destruct (_ >? _); [exists []; reflexivity |].
  pose proof (i2c_write_bytes_log MPU6500_BANK_SEL
                [CInt.uint8_t (Z.shiftr a 8); CInt.uint8_t (Z.land a 255)] w)
    as L1.
  destruct (i2c_write_bytes MPU6500_BANK_SEL _ w) as [r w1]. cbn [snd] in L1.
  destruct (truthy r); [eexists [_]; exact L1 |].
  pose proof (i2c_write_bytes_log MPU6500_MEM_R_W (firstn (Z.to_nat n) d) w1)
    as L2.
  destruct (i2c_write_bytes MPU6500_MEM_R_W _ w1) as [r' w2]. cbn [snd] in L2.
  destruct (truthy r'); eexists [_; _]; cbn [snd]; rewrite L2, L1;
    reflexivity.
Qed.

(** X7.  A configuration that passes the checks at the start of
    [initialize_imu_dmp] has a sample rate that divides [DMP_MAX_RATE], so
    [dmp_set_fifo_rate], called with it, does not divide by zero, and the
    divider it sends to the DMP, as two big-endian bytes, takes
    [DMP_MAX_RATE] down to the sample rate exactly. *)
Theorem checked_rate_sets_exact_divider (conf : imu_config_t F) :
  0 <= DMP_MIN_RATE -> DMP_MAX_RATE < 2 ^ 16 ->
  initialize_imu_dmp_checks conf = CheckPasses ->
  exists div,
    0 <= div < 2 ^ 16 /\
    dmp_sample_rate conf * (div + 1) = DMP_MAX_RATE /\
    forall w, exists ret w',
      dmp_set_fifo_rate (CInt.uint16_t (dmp_sample_rate conf)) w
        = Returns ret w' /\
      (ret = 0 ->
       In (I2cWriteBytes MPU6500_MEM_R_W [div / 256; div mod 256]) (log w')).
Proof.
  intros Hmin Hmax. unfold initialize_imu_dmp_checks.
  set (rate := dmp_sample_rate conf).
  destruct (Z.ltb_spec DMP_MAX_RATE rate) as [| Le];
    [rewrite Z.gtb_ltb; destruct (DMP_MAX_RATE <? rate) eqn:E;
     [discriminate | apply Z.ltb_ge in E; lia] |].
  rewrite Z.gtb_ltb.
  replace (DMP_MAX_RATE <? rate) with false
    by (symmetry; apply Z.ltb_ge; exact Le).
  destruct (Z.ltb_spec rate DMP_MIN_RATE) as [| Ge]; [discriminate |].
  cbn [orb].
  destruct (Z.eqb_spec rate 0) as [| Nz]; [discriminate |].
  destruct (Z.eqb_spec (Z.rem DMP_MAX_RATE rate) 0) as [Rem |];
    [| discriminate].
  intros _. cbn [negb].
  assert (Pos : 0 < rate) by lia.
  assert (Q : DMP_MAX_RATE = rate * Z.quot DMP_MAX_RATE rate).
  { pose proof (Z.quot_rem' DMP_MAX_RATE rate) as E. lia. }
  assert (Q1 : 1 <= Z.quot DMP_MAX_RATE rate <= DMP_MAX_RATE) by nia.
  exists (Z.quot DMP_MAX_RATE rate - 1).
  split; [lia |]. split; [lia |].
  intros w. unfold dmp_set_fifo_rate.
  assert (U : CInt.uint16_t rate = rate)
    by (unfold CInt.uint16_t, CInt.unsigned; apply Z.mod_small; lia).
  rewrite U, Z.gtb_ltb.
  replace (DMP_MAX_RATE <? rate) with false
    by (symmetry; apply Z.ltb_ge; exact Le).
  replace (rate =? 0) with false by (symmetry; apply Z.eqb_neq; exact Nz).
  set (div := Z.quot DMP_MAX_RATE rate - 1).
  assert (D : 0 <= div < 2 ^ 16) by (subst div; lia).
  assert (U2 : CInt.uint16_t div = div)
    by (unfold CInt.uint16_t, CInt.unsigned; apply Z.mod_small; lia).
  rewrite U2.
  assert (B0 : CInt.uint8_t (Z.land (Z.shiftr div 8) 255) = div / 256).
  { change 255 with (Z.ones 8). rewrite Z.land_ones, Z.shiftr_div_pow2 by lia.
    unfold CInt.uint8_t, CInt.unsigned. rewrite Z.mod_mod by lia.
    change (2 ^ 8) with 256. change (2 ^ 16) with 65536 in D.
    apply Z.mod_small. Z.div_mod_to_equations. lia. }
  assert (B1 : CInt.uint8_t (Z.land div 255) = div mod 256).
  { change 255 with (Z.ones 8). rewrite Z.land_ones by lia.
    unfold CInt.uint8_t, CInt.unsigned. rewrite Z.mod_mod by lia.
    reflexivity. }
  rewrite B0, B1.
  destruct (mpu_write_mem (CInt.uint16_t D_0_22) 2 _ w) as [r w1] eqn:W1.
  destruct (Z.eqb_spec r 0) as [-> | Nr].
  - cbn [truthy Z.eqb negb].
    pose proof (mpu_write_mem_ok _ _ _ _ _ _ W1 eq_refl) as L1.
    pose proof (mpu_write_mem_grows (CInt.uint16_t CFG_6) 12 regs_end w1)
      as [l L2].
    destruct (mpu_write_mem (CInt.uint16_t CFG_6) 12 regs_end w1) as [r2 w2].
    cbn [snd] in L2.
    destruct (truthy r2); eexists; eexists; (split; [reflexivity |]);
      intros _; rewrite L2, L1; apply in_or_app; right; left; reflexivity.
  - unfold truthy. replace (r =? 0) with false
      by (symmetry; apply Z.eqb_neq; exact Nr).
    cbn [negb]. eexists; eexists. split; [reflexivity |]. discriminate.
Qed.

End RateFacts.

(** The default configuration: 100 Hz, magnetometer off. *)
Lemma checked_rate_sets_exact_divider_witness :
  exists div,
    0 <= div < 2 ^ 16 /\
    100 * (div + 1) = 200 /\
    forall w, exists ret w',
      dmp_set_fifo_rate (hdr := Bench.header) (CInt.uint16_t 100) w
        = Returns ret w' /\
      (ret = 0 -> In (I2cWriteBytes 111 [div / 256; div mod 256]) (log w')).
Proof.
  apply (checked_rate_sets_exact_divider (fl2 := Bench2.q_float2)
           (hdr := Bench.header) (hdr2 := Bench2.header2) (Bench.config0 0)).
  - vm_compute. discriminate.
  - reflexivity.
  - vm_compute. reflexivity.
Defined.

(** ** Reading the FIFO *)


Section FetchFacts.
Context {F : Type} {fl : FloatOps F} {ml : MathLib F} {hdr : Header}.

(** What [fetch_fifo] asks of the bus: one read of the FIFO, and a second
    one after a first that failed. *)
Lemma fetch_fifo_log (n : Z) (w : world) :
  let w' := snd (fetch_fifo n w) in
  log w' = I2cReadBytes FIFO_R_W n :: log w \/
  log w' = I2cReadBytes FIFO_R_W n :: I2cReadBytes FIFO_R_W n :: log w.
Proof.
  unfold fetch_fifo.
  pose proof (i2c_read_bytes_log FIFO_R_W n w) as L1.
  destruct (i2c_read_bytes FIFO_R_W n w) as [[ret got] w1]. cbn [snd] in L1.
  destruct (ret <? 0); [| left; exact L1].
  pose proof (i2c_read_bytes_log FIFO_R_W n w1) as L2.
  destruct (i2c_read_bytes FIFO_R_W n w1) as [[ret2 got2] w2].
  cbn [snd] in *. right. rewrite L2, L1. reflexivity.
Qed.

(** X8.  A read of the FIFO that fails once is retried, and the cycle then goes
    on as if the first read had not happened: return value and globals are
    those of a cycle whose first read succeeds.  After two failed reads the
    cycle fails and leaves the globals alone, whatever the bus would answer
    next. *)
Theorem READ_FIFO_retries_once (g : globals F) (p : list Z) (rs : list reply)
  (l l' : list event) (n i : Z) (m d : bool) :
  0 <= n ->
  fst (READ_FIFO g (mkWorld (Nak :: Ack p :: rs) l) n i m d)
  = fst (READ_FIFO g (mkWorld (Ack p :: rs) l') n i m d)
  /\ READ_FIFO g (mkWorld (Nak :: Nak :: rs) l) n i m d
     = (-1, g, mkWorld rs (I2cReadBytes FIFO_R_W n
                             :: I2cReadBytes FIFO_R_W n :: l)).
Proof.
  intros N. split.
  - unfold READ_FIFO, fetch_fifo, i2c_read_bytes, ask. cbn [replies log].
    replace (-1 <? 0) with true by reflexivity.
    set (got := firstn (Z.to_nat n) p).
    destruct (Z.ltb_spec (Z.of_nat (length got)) 0) as [Neg |]; [lia |].
    change (buf_store (repeat 0 (Z.to_nat MAX_FIFO_BUFFER)) [])
      with (repeat 0 (Z.to_nat MAX_FIFO_BUFFER)).
    destruct (negb (Z.of_nat (length got) =? n)); [reflexivity |].
    destruct (if d then locate_dmp g _ i else DmpAt 0 i) as [j i' |].
    + destruct (parse_packet g _ j i' m d). reflexivity.
    + do 2 destruct (mpu_reset_fifo g _). reflexivity.
  - unfold READ_FIFO, fetch_fifo, i2c_read_bytes, ask.
    cbn [replies log]. replace (-1 <? 0) with true by reflexivity.
    destruct (Z.eqb_spec (-1) n) as [E | Ne]; [lia | reflexivity].
Qed.

Lemma READ_FIFO_success_log (g g' : globals F) (w w' : world) (n i : Z)
  (m d : bool) :
  READ_FIFO g w n i m d = (0, g', w') -> w' = snd (fetch_fifo n w).
Proof.
  unfold READ_FIFO. destruct (fetch_fifo n w) as [[ret raw] w1].
  destruct (negb (ret =? n)); [discriminate |].
  destruct (if d then locate_dmp g raw i else DmpAt 0 i) as [j i' |].
  - destruct (parse_packet g raw j i' m d). intros E. injection E as _ _ <-.
    reflexivity.
  - destruct (mpu_reset_fifo g w1). discriminate.
Qed.

(** X9.  A cycle of [read_dmp_fifo] that returns 0 has only selected the device
    and read from it: it wrote no register, so it did not reset the FIFO;
    it read the FIFO once or twice. *)
Theorem read_dmp_fifo_success_only_reads (g g' : globals F) (w w' : world) :
  read_dmp_fifo g w = (0, g', w') ->
  exists l, log w' = l ++ log w /\ Forall is_read l /\
            (2 < length l <= 4)%nat.
Proof.
  unfold read_dmp_fifo.
  destruct (negb (truthy (dmp_en g))); [discriminate |].
  destruct (_ && _); [discriminate |].
  pose proof (read_fifo_count_log w) as C. unfold read_fifo_count in C.
  destruct (i2c_read_word FIFO_COUNTH _) as [[r n] w1].
  specialize (C w1 r n eq_refl).
  destruct (r <? 0); [discriminate |].
  destruct (classify_fifo_count n) as [| i m d |]; [discriminate | |].
  - intros E. apply READ_FIFO_success_log in E. subst w'.
    destruct (fetch_fifo_log n w1) as [L | L]; cbn zeta in L; rewrite L, C.
    + exists [I2cReadBytes FIFO_R_W n; I2cReadWord FIFO_COUNTH;
              I2cSetDeviceAddress IMU_ADDR].
      split; [reflexivity |]. split; [repeat constructor | cbn; lia].
    + exists [I2cReadBytes FIFO_R_W n; I2cReadBytes FIFO_R_W n;
              I2cReadWord FIFO_COUNTH; I2cSetDeviceAddress IMU_ADDR].
      split; [reflexivity |]. split; [repeat constructor | cbn; lia].
  - destruct (mpu_reset_fifo g w1). discriminate.
Qed.

End FetchFacts.

(** A 28-byte packet that arrives at the second attempt is parsed as if it
    had arrived at the first. *)
Lemma READ_FIFO_retries_once_witness :
  fst (READ_FIFO (fl := Bench.q_float) (hdr := Bench.header) (Bench.globals0 0)
         (mkWorld (Nak :: Ack Bench.packet28 :: []) []) 28 0 false true)
  = fst (READ_FIFO (fl := Bench.q_float) (hdr := Bench.header)
           (Bench.globals0 0)
           (mkWorld (Ack Bench.packet28 :: []) []) 28 0 false true)
  /\ READ_FIFO (fl := Bench.q_float) (hdr := Bench.header) (Bench.globals0 0)
       (mkWorld (Nak :: Nak :: []) []) 28 0 false true
     = (-1, Bench.globals0 0,
        mkWorld [] [I2cReadBytes 116 28; I2cReadBytes 116 28]).
Proof.
  apply (READ_FIFO_retries_once (fl := Bench.q_float) (hdr := Bench.header)
           (Bench.globals0 0) Bench.packet28 [] [] [] 28 0 false true).
  lia.
Defined.

(** One packet in the FIFO, read at the first attempt. *)
Lemma read_dmp_fifo_success_only_reads_witness :
  let g := Bench.globals0 0 in
  let w := mkWorld [Ack [28]; Ack Bench.packet28] [] in
  exists l,
    log (snd (read_dmp_fifo (fl := Bench.q_float) (hdr := Bench.header) g w))
      = l ++ log w /\
    Forall is_read l /\ (2 < length l <= 4)%nat.
Proof.
  intros g w.
  exact (read_dmp_fifo_success_only_reads (fl := Bench.q_float)
           (hdr := Bench.header) g
           (snd (fst (read_dmp_fifo (fl := Bench.q_float)
                        (hdr := Bench.header) g w)))
           w
           (snd (read_dmp_fifo (fl := Bench.q_float)
                   (hdr := Bench.header) g w))
           eq_refl).
Defined.

(** ** Sensor fusion *)

Section FusionFacts.
Context {F : Type} {fl : FloatOps F} {ml : MathLib F} {hdr : Header}.

Lemma fset_length (k : nat) (v : F) (a : list F) :
  length (fset k v a) = length a.
Proof.
  revert k. induction a as [| h t IH]; intros k;
    [destruct k; reflexivity |].
  destruct k; cbn; [reflexivity | rewrite IH; reflexivity].
Qed.

Lemma fnth_fset_same (k : nat) (v : F) (a : list F) :
  (k < length a)%nat -> fnth k (fset k v a) = v.
Proof.
  unfold fnth. revert k. induction a as [| h t IH]; intros k L;
    [cbn in L; lia |].
  destruct k; cbn; [reflexivity | apply IH; cbn in L; lia].
Qed.

Lemma fnth_fset_other (j k : nat) (v : F) (a : list F) :
  j <> k -> fnth j (fset k v a) = fnth j a.
Proof.
  unfold fnth. revert j k. induction a as [| h t IH]; intros j k N;
    [destruct k; reflexivity |].
  destruct k, j; cbn; try reflexivity; [lia | apply IH; lia].
Qed.

(** X10.  [data_fusion] returns 0 or -1.  When it returns -1 (an
    orientation that is no enumerator, or a heading that is not a number)
    the sample record is as it was, and the filters are not created.  When
    it returns 0 the first-run flag is cleared, the raw heading is the yaw
    kept for the next call, and the fused pitch and roll are those of the
    DMP. *)
Theorem data_fusion_outcomes (g : globals F) :
  TB_PITCH_X <> TB_ROLL_Y ->
  (TB_PITCH_X < length (fused_TaitBryan (data g)))%nat ->
  (TB_ROLL_Y < length (fused_TaitBryan (data g)))%nat ->
  let '(ret, g') := data_fusion g in
  (ret = -1 /\ data g' = data g /\
   fusion_first_run (fusion g') = fusion_first_run (fusion g) /\
   low_pass (fusion g') = low_pass (fusion g) /\
   high_pass (fusion g') = high_pass (fusion g))
  \/
  (ret = 0 /\ fusion_first_run (fusion g') = 0 /\
   compass_heading_raw (data g') = newMagYaw (fusion g') /\
   fnth TB_PITCH_X (fused_TaitBryan (data g'))
     = fnth TB_PITCH_X (dmp_TaitBryan (data g)) /\
   fnth TB_ROLL_Y (fused_TaitBryan (data g'))
     = fnth TB_ROLL_Y (dmp_TaitBryan (data g)) /\
   fnth TB_YAW_Z (dmp_TaitBryan (data g)) = newDMPYaw (fusion g')).
Proof.
  intros N LP LR. unfold data_fusion.
  destruct (oriented_mag _ _) as [[[qx qy] qz] |];
    [| left; repeat apply conj; reflexivity].
  destruct (negb (F_eqb _ _));
    [left; repeat apply conj; reflexivity |].
  destruct (truthy _);
    repeat match goal with
      | |- context [march_filter ?f ?x] => destruct (march_filter f x)
      end;
    right; cbn [data fusion with_fusion with_data set_fused_quat
                set_fused_TaitBryan set_compass_heading
                set_compass_heading_raw fused_TaitBryan dmp_TaitBryan
                compass_heading_raw fusion_first_run newMagYaw newDMPYaw];
    (repeat apply conj; try reflexivity;
     [ rewrite fnth_fset_other by exact N;
       apply fnth_fset_same; rewrite fset_length; exact LP
     | apply fnth_fset_same; rewrite !fset_length; exact LR ]).
Qed.

End FusionFacts.

Lemma data_fusion_outcomes_witness :
  let g := Bench.globals0 1 in
  let '(ret, g') := data_fusion (fl := Bench.q_float) (hdr := Bench.header) g in
  (ret = -1 /\ data g' = data g /\
   fusion_first_run (fusion g') = fusion_first_run (fusion g) /\
   low_pass (fusion g') = low_pass (fusion g) /\
   high_pass (fusion g') = high_pass (fusion g))
  \/
  (ret = 0 /\ fusion_first_run (fusion g') = 0 /\
   compass_heading_raw (data g') = newMagYaw (fusion g') /\
   fnth (fl := Bench.q_float) 0 (fused_TaitBryan (data g'))
     = fnth (fl := Bench.q_float) 0 (dmp_TaitBryan (data g)) /\
   fnth (fl := Bench.q_float) 1 (fused_TaitBryan (data g'))
     = fnth (fl := Bench.q_float) 1 (dmp_TaitBryan (data g)) /\
   fnth (fl := Bench.q_float) 2 (dmp_TaitBryan (data g))
     = newDMPYaw (fusion g')).
Proof.
  intros g.
  apply (data_fusion_outcomes (fl := Bench.q_float) (hdr := Bench.header) g).
  - cbn. lia.
  - cbn. lia.
  - cbn. lia.
Defined.

(** ** The success flag and the one-shot reads *)



Section FlagFacts.
Context {F : Type} {fl : FloatOps F} {ml : MathLib F} {hdr : Header}.

(** X11.  [last_read_successful] after the loop is 1 when the last drain of the
    FIFO returned 0, 0 when it returned anything else, and unchanged when
    the loop made no drain: a time-out of [poll] does not touch it.  The
    user function is called only at turns that leave it at 1. *)
Theorem interrupt_loop_last_read (ticks : list tick) :
  forall (first_run l : Z) (g : globals F) (w : world),
    let '(turns, l', _, _) := interrupt_loop ticks first_run l g w in
    l' = last_flag l turns /\
    Forall (fun t => match t with
                     | Drained ret _ true => ret = 0
                     | _ => True
                     end) turns.
Proof.
  induction ticks as [| t ts IH]; intros fr l g w; cbn [interrupt_loop].
  - split; [reflexivity | constructor].
  - destruct (stop_at_loop_test t); [split; [reflexivity | constructor] |].
    destruct (stop_after_poll t); [split; [reflexivity | constructor] |].
    destruct (revents_POLLPRI t).
    + destruct (query I2cGetInUseState w) as [u w0].
      destruct (read_dmp_fifo g (tell I2cClaimBus w0)) as [[ret g1] w1].
      set (last := if ret =? 0 then 1 else 0).
      assert (T : truthy last = (ret =? 0))
        by (subst last; destruct (ret =? 0); reflexivity).
      destruct (fr =? 1).
      * specialize (IH 0 last g1 (tell I2cReleaseBus w1)).
        destruct (interrupt_loop ts 0 last g1 _) as [[[rest l'] g'] w'].
        destruct IH as [A B]. split; [exact A |].
        constructor; [exact I | exact B].
      * rewrite T.
        destruct (truthy (interrupt_func_set t) && (ret =? 0)) eqn:Call.
        -- specialize (IH fr last g1
                         (tell UserCallback (tell I2cReleaseBus w1))).
           destruct (interrupt_loop ts fr last g1 _) as [[[rest l'] g'] w'].
           destruct IH as [A B]. split; [exact A |].
           constructor; [| exact B].
           apply andb_prop in Call as [_ Call]. apply Z.eqb_eq. exact Call.
        -- specialize (IH fr last g1 (tell I2cReleaseBus w1)).
           destruct (interrupt_loop ts fr last g1 _) as [[[rest l'] g'] w'].
           destruct IH as [A B]. split; [exact A |].
           constructor; [exact I | exact B].
    + specialize (IH fr l g w).
      destruct (interrupt_loop ts fr l g w) as [[[rest l'] g'] w'].
      destruct IH as [A B]. split; [exact A |].
      constructor; [exact I | exact B].
Qed.

End FlagFacts.

Section ReadFacts.
Context {F : Type} {fl : FloatOps F} {ml : MathLib F}
        {hdr : Header} {hdr2 : Header2}.

Lemma buf_store_full (raw got : list Z) :
  (length raw <= length got)%nat -> buf_store raw got = map CInt.uint8_t got.
Proof.
  intros L. unfold buf_store. rewrite skipn_all2 by exact L.
  apply app_nil_r.
Qed.

(** X12.  [read_accel_data]: a failed read returns -1 and leaves the
    record as it was.  Any other read returns 0, changes the accelerometer
    fields only, and scales each raw value by [accel_to_ms2]; when six bytes
    arrive, the raw values are their three big-endian fields, whatever the
    local buffer held before. *)
Theorem read_accel_data_outcomes (raw : list Z) (d : imu_data_t F)
  (w : world) :
  length raw = 6%nat ->
  let '(ret, d', w') := read_accel_data raw d w in
  match replies w with
  | Ack p :: _ =>
      ret = 0 /\
      accel d' = map (fun v => F_mul (F_of_Z v) (accel_to_ms2 d)) (raw_accel d')
      /\ d' = set_accel (accel d') (set_raw_accel (raw_accel d') d)
      /\ ((6 <= length p)%nat ->
          raw_accel d' = be16_triplet (map CInt.uint8_t (firstn 6 p)) 0)
  | _ => ret = -1 /\ d' = d
  end.
Proof.
  intros L. unfold read_accel_data, i2c_read_bytes, ask, tell.
  cbn [replies log].
  destruct (replies w) as [| [| p] rs]; cbn [replies log];
    [split; reflexivity | split; reflexivity |].
  change (Z.to_nat 6) with 6%nat.
  destruct (Z.ltb_spec (Z.of_nat (length (firstn 6 p))) 0) as [Neg |]; [lia |].
  split; [reflexivity |]. split; [reflexivity |]. split; [reflexivity |].
  intros P. cbn [raw_accel set_accel set_raw_accel].
  rewrite buf_store_full; [reflexivity |].
  rewrite length_firstn. lia.
Qed.

(** X13.  [read_gyro_data]: a failed read returns -1 and leaves the record
    as it was.  Any other read returns 0, changes the gyroscope fields only,
    and scales each raw value by [gyro_to_degs]; when six bytes arrive, the
    raw values are their three big-endian fields, whatever the local buffer
    held before. *)
Theorem read_gyro_data_outcomes (raw : list Z) (d : imu_data_t F)
  (w : world) :
  length raw = 6%nat ->
  let '(ret, d', w') := read_gyro_data raw d w in
  match replies w with
  | Ack p :: _ =>
      ret = 0 /\
      gyro d' = map (fun v => F_mul (F_of_Z v) (gyro_to_degs d)) (raw_gyro d')
      /\ d' = set_gyro (gyro d') (set_raw_gyro (raw_gyro d') d)
      /\ ((6 <= length p)%nat ->
          raw_gyro d' = be16_triplet (map CInt.uint8_t (firstn 6 p)) 0)
  | _ => ret = -1 /\ d' = d
  end.
Proof.
  intros L. unfold read_gyro_data, i2c_read_bytes, ask, tell.
  cbn [replies log].
  destruct (replies w) as [| [| p] rs]; cbn [replies log];
    [split; reflexivity | split; reflexivity |].
  change (Z.to_nat 6) with 6%nat.
  destruct (Z.ltb_spec (Z.of_nat (length (firstn 6 p))) 0) as [Neg |]; [lia |].
  split; [reflexivity |]. split; [reflexivity |]. split; [reflexivity |].
  intros P. cbn [raw_gyro set_gyro set_raw_gyro].
  rewrite buf_store_full; [reflexivity |].
  rewrite length_firstn. lia.
Qed.

End ReadFacts.

(** Six bytes from the accelerometer: 1, 2 and -1. *)
Lemma read_accel_data_outcomes_witness :
  let w := mkWorld [Ack [0; 1; 0; 2; 255; 255]] [] in
  let '(ret, d', w') :=
    read_accel_data (fl := Bench.q_float) (hdr := Bench.header)
      (hdr2 := Bench2.header2) (repeat 0 6) Bench.sample0 w in
  match replies w with
  | Ack p :: _ =>
      ret = 0 /\
      accel d'
        = map (fun v => F_mul (FloatOps := Bench.q_float)
                          (F_of_Z (FloatOps := Bench.q_float) v)
                          (accel_to_ms2 Bench.sample0))
              (raw_accel d')
      /\ d' = set_accel (accel d') (set_raw_accel (raw_accel d') Bench.sample0)
      /\ ((6 <= length p)%nat ->
          raw_accel d' = be16_triplet (map CInt.uint8_t (firstn 6 p)) 0)
  | _ => ret = -1 /\ d' = Bench.sample0
  end.
Proof.
  intros w.
  apply (read_accel_data_outcomes (fl := Bench.q_float) (hdr := Bench.header)
           (hdr2 := Bench2.header2) (repeat 0 6) Bench.sample0 w).
  reflexivity.
Defined.

(** Six bytes from the gyroscope: 4, 5 and 6. *)
Lemma read_gyro_data_outcomes_witness :
  let w := mkWorld [Ack [0; 4; 0; 5; 0; 6]] [] in
  let '(ret, d', w') :=
    read_gyro_data (fl := Bench.q_float) (hdr := Bench.header)
      (hdr2 := Bench2.header2) (repeat 0 6) Bench.sample0 w in
  match replies w with
  | Ack p :: _ =>
      ret = 0 /\
      gyro d'
        = map (fun v => F_mul (FloatOps := Bench.q_float)
                          (F_of_Z (FloatOps := Bench.q_float) v)
                          (gyro_to_degs Bench.sample0))
              (raw_gyro d')
      /\ d' = set_gyro (gyro d') (set_raw_gyro (raw_gyro d') Bench.sample0)
      /\ ((6 <= length p)%nat ->
          raw_gyro d' = be16_triplet (map CInt.uint8_t (firstn 6 p)) 0)
  | _ => ret = -1 /\ d' = Bench.sample0
  end.
Proof.
  intros w.
  apply (read_gyro_data_outcomes (fl := Bench.q_float) (hdr := Bench.header)
           (hdr2 := Bench2.header2) (repeat 0 6) Bench.sample0 w).
  reflexivity.
Defined.

(** ** Bypass and magnetometer power *)

Section BypassFacts.
Context {F : Type} {fl : FloatOps F} {ml : MathLib F}
        {hdr : Header} {hdr2 : Header2}.

Lemma addressed_write_byte (reg val : Z) (w : world) :
  addressed (log (snd (i2c_write_byte reg val w))) = addressed (log w).
Proof. rewrite i2c_write_byte_log. reflexivity. Qed.

(** [mpu_set_bypass] returns 0 or -1, keeps the bus addressed as it was,
    and changes [bypass_en] only when it returns 0: to 1 when asked to
    switch the bypass on, to 0 otherwise. *)
Lemma mpu_set_bypass_outcomes (g : globals F) (b on : Z) (w : world) :
  let '(ret, b', w') := mpu_set_bypass g b on w in
  addressed (log w') = addressed (log w) /\
  ((ret = 0 /\ b' = if truthy on then 1 else 0) \/ (ret = -1 /\ b' = b)).
Proof.
  unfold mpu_set_bypass.
  pose proof (addressed_write_byte USER_CTRL) as A1.
  match goal with
  | |- context [i2c_write_byte USER_CTRL ?v w] =>
      specialize (A1 v w); destruct (i2c_write_byte USER_CTRL v w) as [r w1]
  end.
  cbn [snd] in A1.
  destruct (truthy r); [split; [exact A1 | right; split; reflexivity] |].
  pose proof (addressed_write_byte INT_PIN_CFG) as A2.
  match goal with
  | |- context [i2c_write_byte INT_PIN_CFG ?v ?x] =>
      specialize (A2 v x); destruct (i2c_write_byte INT_PIN_CFG v x) as [r2 w2]
  end.
  cbn [snd] in A2. cbn [tell log addressed] in A2.
  destruct (truthy r2); (split; [rewrite A2; exact A1 |]);
    [right | left]; split; reflexivity.
Qed.

(** X14.  [power_down_magnetometer], step by step, from the answers of the
    bus to its five register writes (an answer that is missing counts as a
    failure).  [going_on] is what switching the bypass on has put on the
    bus, [at_mag] what is there once the magnetometer has been written to.

    - The bypass cannot be switched on (first or second write fails): -1,
      [bypass_en] as it was, the bus addressed to the IMU, the magnetometer
      never addressed.
    - The write to the magnetometer fails: -1 with [bypass_en] at 1 and the
      bus still addressed to the magnetometer.
    - The bypass cannot be switched off again (fourth or fifth write
      fails): -1 with [bypass_en] at 1, the bus addressed to the IMU.
    - All five writes succeed: 0 with [bypass_en] at 0 and the bus
      addressed to the IMU. *)
Theorem power_down_magnetometer_outcomes (g : globals F) (b : Z) (w : world) :
  let fifo := if truthy (dmp_en g)
              then CInt.uint8_t (Z.lor 0 FIFO_EN_BIT) else 0 in
  let going_on :=
    [I2cWriteByte INT_PIN_CFG
       (CInt.uint8_t (Z.lor (CInt.uint8_t ACTL_ACTIVE_LOW) BYPASS_EN));
     Usleep 3000; I2cWriteByte USER_CTRL fifo;
     I2cSetDeviceAddress IMU_ADDR] in
  let at_mag :=
    I2cWriteByte AK8963_CNTL MAG_POWER_DN
    :: I2cSetDeviceAddress AK8963_ADDR :: going_on in
  let master := CInt.uint8_t (Z.lor fifo I2C_MST_EN) in
  let '(ret, b', w') := power_down_magnetometer g b w in
  match replies w with
  | Ack _ :: Ack _ :: Ack _ :: Ack _ :: Ack _ :: rs =>
      ret = 0 /\ b' = 0 /\ addressed (log w') = Some IMU_ADDR /\
      replies w' = rs /\
      log w'
      = I2cWriteByte INT_PIN_CFG (CInt.uint8_t ACTL_ACTIVE_LOW)
        :: Usleep 3000 :: I2cWriteByte USER_CTRL master
        :: I2cSetDeviceAddress IMU_ADDR :: at_mag ++ log w
  | Ack _ :: Ack _ :: Ack _ :: Ack _ :: rs =>
      ret = -1 /\ b' = 1 /\ addressed (log w') = Some IMU_ADDR /\
      replies w' = tl rs /\
      log w'
      = I2cWriteByte INT_PIN_CFG (CInt.uint8_t ACTL_ACTIVE_LOW)
        :: Usleep 3000 :: I2cWriteByte USER_CTRL master
        :: I2cSetDeviceAddress IMU_ADDR :: at_mag ++ log w
  | Ack _ :: Ack _ :: Ack _ :: rs =>
      ret = -1 /\ b' = 1 /\ addressed (log w') = Some IMU_ADDR /\
      replies w' = tl rs /\
      log w'
      = I2cWriteByte USER_CTRL master
        :: I2cSetDeviceAddress IMU_ADDR :: at_mag ++ log w
  | Ack _ :: Ack _ :: rs =>
      ret = -1 /\ b' = 1 /\ addressed (log w') = Some AK8963_ADDR /\
      replies w' = tl rs /\ log w' = at_mag ++ log w
  | Ack _ :: rs =>
      ret = -1 /\ b' = b /\ addressed (log w') = Some IMU_ADDR /\
      replies w' = tl rs /\ log w' = going_on ++ log w
  | rs =>
      ret = -1 /\ b' = b /\ addressed (log w') = Some IMU_ADDR /\
      replies w' = tl rs /\
      log w'
      = I2cWriteByte USER_CTRL fifo :: I2cSetDeviceAddress IMU_ADDR :: log w
  end.
Proof.
  unfold power_down_magnetometer, mpu_set_bypass, i2c_write_byte, ask, tell.
  destruct (replies w)
    as [| [| p1] [| [| p2] [| [| p3] [| [| p4] [| [| p5] rs]]]]];
    cbn; repeat apply conj; reflexivity.
Qed.

End BypassFacts.

(** ** DMP state and magnetometer scales *)

Section StateFacts.
Context {F : Type} {fl : FloatOps F} {ml : MathLib F}
        {hdr : Header} {hdr2 : Header2}.

(** X15.  [mpu_set_dmp_state] returns 0 whatever the device answers.  Disabling
    leaves [bypass_en] alone; enabling clears it when the bypass could be
    switched off and leaves it alone otherwise. *)
Theorem mpu_set_dmp_state_never_fails (g : globals F) (b enable : Z)
  (w : world) :
  let '(ret, b', w') := mpu_set_dmp_state g b enable w in
  ret = 0 /\
  (truthy enable = false -> b' = b) /\
  (b' = 0 \/ b' = b).
Proof.
  unfold mpu_set_dmp_state. destruct (truthy enable).
  - destruct (set_int_enable 0 w) as [r0 w0].
    pose proof (mpu_set_bypass_outcomes g b 0 w0) as B.
    destruct (mpu_set_bypass g b 0 w0) as [[r1 b1] w1].
    destruct (i2c_write_byte FIFO_EN 0 w1) as [r2 w2].
    destruct (set_int_enable 1 w2) as [r3 w3].
    destruct (mpu_reset_fifo g w3) as [r4 w4].
    split; [reflexivity |]. split; [discriminate |].
    destruct B as [_ [[_ ->] | [_ ->]]]; [left | right]; reflexivity.
  - destruct (set_int_enable 0 w) as [r0 w0].
    destruct (i2c_write_byte FIFO_EN 0 w0) as [r2 w2].
    destruct (mpu_reset_fifo g w2) as [r4 w4].
    split; [reflexivity |]. split; [reflexivity | right; reflexivity].
Qed.

(** X16.  Once [fix_mag_scales] has run, none of the three scales is zero: a
    scale of zero is replaced by one, any other scale is kept. *)
Theorem fix_mag_scales_nonzero (s : list F) (k : nat) :
  F_eqb (F_of_Z 1) (F_of_Z 0) = false ->
  length s = 3%nat -> (k < 3)%nat ->
  F_eqb (fnth k (fix_mag_scales s)) (F_of_Z 0) = false /\
  (F_eqb (fnth k s) (F_of_Z 0) = false -> fnth k (fix_mag_scales s) = fnth k s)
  /\ length (fix_mag_scales s) = 3%nat.
Proof.
  intros One L K.
  destruct s as [| a [| b [| c [| ? ?]]]]; try discriminate.
  unfold fix_mag_scales, fnth.
  destruct k as [| [| [| k]]]; [| | | lia]; cbn [nth fset];
    destruct (F_eqb a (F_of_Z 0)) eqn:A; cbn [nth fset];
    destruct (F_eqb b (F_of_Z 0)) eqn:B; cbn [nth fset];
    destruct (F_eqb c (F_of_Z 0)) eqn:C; cbn [nth fset length];
    repeat apply conj; try reflexivity; try assumption;
    intros; congruence.
Qed.

End StateFacts.

Lemma fix_mag_scales_nonzero_witness :
  F_eqb (FloatOps := Bench.q_float)
    (fnth (fl := Bench.q_float) 1
       (fix_mag_scales (fl := Bench.q_float)
          [inject_Z 0; inject_Z 0; inject_Z 2]))
    (inject_Z 0) = false /\
  (F_eqb (FloatOps := Bench.q_float)
     (fnth (fl := Bench.q_float) 1 [inject_Z 0; inject_Z 0; inject_Z 2])
     (inject_Z 0) = false ->
   fnth (fl := Bench.q_float) 1
     (fix_mag_scales (fl := Bench.q_float)
        [inject_Z 0; inject_Z 0; inject_Z 2])
   = fnth (fl := Bench.q_float) 1 [inject_Z 0; inject_Z 0; inject_Z 2])
  /\ length (fix_mag_scales (fl := Bench.q_float)
               [inject_Z 0; inject_Z 0; inject_Z 2]) = 3%nat.
Proof.
  apply (fix_mag_scales_nonzero (fl := Bench.q_float)
           [inject_Z 0; inject_Z 0; inject_Z 2] 1).
  - reflexivity.
  - reflexivity.
  - lia.
Defined.

(** ** Writing the offsets, and a calibration without samples *)

Section DiskFacts.
Context {F : Type} {fl : FloatOps F} {ml : MathLib F} {hdr : Header}.

(** X17.  [write_gyro_offets_to_disk], from the answers of the file system
    (an answer that is missing counts as a failure).

    - The first [fopen] succeeds: the offsets are printed and the file is
      closed, with no [mkdir]; the result is 0 when the print succeeded and
      -1 when it failed, and the file is closed in both cases.
    - The first [fopen] fails: the directory is made and [fopen] is tried
      once more.  When that succeeds, the offsets are printed and the file
      is closed as before.  When it fails too, the result is -1 and there
      is neither a print nor a close. *)
Theorem write_gyro_offets_to_disk_closes (offsets : list Z) (w : world) :
  let '(ret, w') := write_gyro_offets_to_disk offsets w in
  match replies w with
  | Ack _ :: printed =>
      log w' = Fclose :: Fprintf offsets :: Fopen :: log w /\
      replies w' = tl printed /\
      ret = match printed with Ack _ :: _ => 0 | _ => -1 end
  | Nak :: Ack _ :: printed =>
      log w'
      = Fclose :: Fprintf offsets :: Fopen :: Mkdir :: Fopen :: log w /\
      replies w' = tl printed /\
      ret = match printed with Ack _ :: _ => 0 | _ => -1 end
  | rs =>
      log w' = Fopen :: Mkdir :: Fopen :: log w /\
      replies w' = tl (tl rs) /\ ret = -1
  end.
Proof.
  unfold write_gyro_offets_to_disk, ask, tell.
  destruct (replies w) as [| [| p1] [| [| p2] [| [| p3] rs]]];
    cbn; repeat apply conj; reflexivity.
Qed.

(** X18.  When the count read from the FIFO is below 6 bytes (as a signed
    16-bit value, above -6), no sample is read, and unless the deviation
    the library reports for an empty vector is above the threshold, the
    routine divides the sums by a sample count of zero. *)
Theorem calibration_without_samples_divides_by_zero
  (fuel : nat) (data : list Z) (w : world) (r0 r1 r2 : reply)
  (hi lo : Z) (tail : list Z) (rs : list reply) :
  replies w = r0 :: r1 :: r2 :: Ack (hi :: lo :: tail) :: rs ->
  - 6 < be16 [CInt.uint8_t hi; CInt.uint8_t lo] 0 < 6 ->
  F_ltb (F_of_Z GYRO_CAL_THRESH) (standard_deviation []) = false ->
  exists w', calibrate_from_COLLECT_DATA (S fuel) data w
             = Some (DividesByZero w').
Proof.
  intros R C Q. cbn [calibrate_from_COLLECT_DATA].
  assert (Z0 : Z.quot (be16 [CInt.uint8_t hi; CInt.uint8_t lo] 0) 6 = 0).
  { destruct (Z.le_gt_cases 0 (be16 [CInt.uint8_t hi; CInt.uint8_t lo] 0)).
    - apply Z.quot_small. lia.
    - rewrite <- (Z.opp_involutive (be16 _ 0)), Z.quot_opp_l by lia.
      rewrite Z.quot_small by lia. reflexivity. }
  unfold collect_data, i2c_write_byte, i2c_read_bytes, ask, tell.
  rewrite R. cbn [replies log].
  destruct r0, r1, r2; cbn [replies log];
    change (Z.to_nat 2) with 2%nat; cbn [firstn];
    change (CInt.int16_t
              (Z.lor (Z.shiftl (raw_at (buf_store data [hi; lo]) 0) 8)
                 (raw_at (buf_store data [hi; lo]) 1)))
      with (be16 [CInt.uint8_t hi; CInt.uint8_t lo] 0);
    rewrite Z0; cbn [Z.to_nat read_samples];
    unfold too_noisy, deviations; cbn [vx vy vz rev map existsb samples];
    rewrite Q; cbn [orb];
    change (CInt.int32_t 0 =? 0) with true; cbn iota;
    eexists; reflexivity.
Qed.

End DiskFacts.

(** A device that reports an empty FIFO. *)
Lemma calibration_without_samples_divides_by_zero_witness :
  exists w',
    calibrate_from_COLLECT_DATA (fl := Bench.q_float) (ml := Bench.q_math)
      (hdr := Bench.header) 1 (repeat 0 6)
      (mkWorld [Ack []; Ack []; Ack []; Ack [0; 0]] [])
    = Some (DividesByZero w').
Proof.
  apply (calibration_without_samples_divides_by_zero (fl := Bench.q_float)
           (ml := Bench.q_math) (hdr := Bench.header) 0 (repeat 0 6)
           (mkWorld [Ack []; Ack []; Ack []; Ack [0; 0]] [])
           (Ack []) (Ack []) (Ack []) 0 0 [] []).
  - reflexivity.
  - vm_compute. split; reflexivity.
  - reflexivity.
Defined.

(** ** Completeness of the firmware load *)


Section LoaderFacts.
Context {hdr : Header}.

Lemma firstn_add_skipn (A : Type) (a b : nat) (l : list A) :
  firstn (a + b) l = firstn a l ++ firstn b (skipn a l).
Proof.
  revert l. induction a as [| a IH]; intros l; [reflexivity |].
  destruct l as [| x l]; cbn; [destruct b; reflexivity |].
  rewrite IH. reflexivity.
Qed.

(** What a verified chunk adds to the bytes written to the memory
    register. *)
Lemma firmware_chunk_written (ii : Z) (cur cur' : list Z) (w w' : world) :
  MPU6500_BANK_SEL <> MPU6500_MEM_R_W ->
  firmware_chunk ii cur w = ChunkVerified cur' w' ->
  written_to MPU6500_MEM_R_W (log w')
  = written_to MPU6500_MEM_R_W (log w)
    ++ firstn (Z.to_nat (this_write ii)) (firmware_from ii).
Proof.
  intros NB. unfold firmware_chunk.
  destruct (mpu_write_mem ii _ _ w) as [r w1] eqn:W.
  destruct (truthy r) eqn:T; [discriminate |].
  destruct (mpu_read_mem ii _ cur w1) as [[r2 c2] w2] eqn:R.
  destruct (truthy r2) eqn:T2; [discriminate |].
  destruct (truthy (memcmp _ _ _)); [discriminate |].
  intros E. injection E as _ <-.
  rewrite (mpu_read_mem_ok _ _ _ _ _ _ _ R T2),
    (mpu_write_mem_ok _ _ _ _ _ _ W T).
  cbn [written_to].
  replace (MPU6500_BANK_SEL =? MPU6500_MEM_R_W) with false
    by (symmetry; apply Z.eqb_neq; exact NB).
  rewrite Z.eqb_refl. reflexivity.
Qed.

Lemma firmware_loop_written (fuel : nat) :
  0 < DMP_LOAD_CHUNK -> DMP_CODE_SIZE < 2 ^ 16 ->
  MPU6500_BANK_SEL <> MPU6500_MEM_R_W ->
  forall (ii : Z) (cur : list Z) (w w' : world) (res : Z + unit),
    0 <= ii ->
    firmware_loop fuel ii cur w = Some (res, w') ->
    match res with
    | inl r => r = -1 \/ r = -2
    | inr _ =>
        written_to MPU6500_MEM_R_W (log w')
        = written_to MPU6500_MEM_R_W (log w)
          ++ firstn (Z.to_nat (DMP_CODE_SIZE - ii)) (firmware_from ii)
    end.
Proof.
  intros HC HS NB.
  induction fuel as [| fuel IH]; intros ii cur w w' res I E; [discriminate |].
  cbn [firmware_loop] in E.
  destruct (Z.ltb_spec ii DMP_CODE_SIZE) as [Lt | Ge].
  - destruct (firmware_chunk ii cur w) as [x | x | x | c x] eqn:K;
      try (injection E as <- <-; auto).
    destruct (this_write_bounds ii HC HS (conj I Lt)) as (B1 & B2 & B3).
    rewrite B3 in E.
    assert (P : 0 <= ii + this_write ii) by lia.
    specialize (IH _ _ _ _ _ P E).
    destruct res as [r | u]; [exact IH |].
    rewrite IH, (firmware_chunk_written _ _ _ _ _ NB K), <- app_assoc.
    f_equal.
    replace (Z.to_nat (DMP_CODE_SIZE - ii))
      with (Z.to_nat (this_write ii)
            + Z.to_nat (DMP_CODE_SIZE - (ii + this_write ii)))%nat by lia.
    rewrite firstn_add_skipn. f_equal. f_equal.
    unfold firmware_from. rewrite skipn_skipn. f_equal. lia.
  - injection E as <- <-.
    replace (Z.to_nat (DMP_CODE_SIZE - ii)) with 0%nat by lia.
    cbn [firstn]. rewrite app_nil_r. reflexivity.
Qed.

(** X19.  A load of the firmware that returns 0 has written to the memory
    register, chunk after chunk and in order, the first [DMP_CODE_SIZE]
    bytes of the image and nothing else. *)
Theorem firmware_load_writes_the_image (w w' : world) :
  0 < DMP_LOAD_CHUNK -> DMP_CODE_SIZE < 2 ^ 16 ->
  MPU6500_BANK_SEL <> MPU6500_MEM_R_W ->
  MPU6500_PRGM_START_H <> MPU6500_MEM_R_W ->
  dmp_load_motion_driver_firmware w = Some (0, w') ->
  written_to MPU6500_MEM_R_W (log w')
  = written_to MPU6500_MEM_R_W (log w)
    ++ firstn (Z.to_nat DMP_CODE_SIZE) dmp_firmware.
Proof.
  intros HC HS NB NP.
  unfold dmp_load_motion_driver_firmware,
    dmp_load_motion_driver_firmware_fuel.
  destruct (firmware_loop _ 0 _ _) as [[res w1] |] eqn:L; [| discriminate].
  pose proof (firmware_loop_written _ HC HS NB _ _ _ _ _ (Z.le_refl 0) L) as W.
  destruct res as [r | u].
  - intros E. injection E as -> _. lia.
  - rewrite Z.sub_0_r in W. change (firmware_from 0) with dmp_firmware in W.
    cbn [tell log written_to] in W.
    match goal with
    | |- context [i2c_write_bytes MPU6500_PRGM_START_H ?d w1] =>
        pose proof (i2c_write_bytes_log MPU6500_PRGM_START_H d w1) as L2;
        destruct (i2c_write_bytes MPU6500_PRGM_START_H d w1) as [r w2]
    end.
    cbn [snd] in L2.
    destruct (truthy r); [discriminate |].
    intros E. injection E as <-. rewrite L2. cbn [written_to].
    replace (MPU6500_PRGM_START_H =? MPU6500_MEM_R_W) with false
      by (symmetry; apply Z.eqb_neq; exact NP).
    exact W.
Qed.

End LoaderFacts.

(** The 40-byte image of the bench, loaded in chunks of 16, 16 and 8. *)
Lemma firmware_load_writes_the_image_witness :
  let w := Bench.loader_world 0 0 in
  written_to 111
    (log (match dmp_load_motion_driver_firmware (hdr := Bench.header) w with
          | Some (_, w') => w'
          | None => w
          end))
  = written_to 111 (log w) ++ firstn 40 Bench.image.
Proof.
  intros w.
  apply (firmware_load_writes_the_image (hdr := Bench.header) w).
  - reflexivity.
  - reflexivity.
  - discriminate.
  - discriminate.
  - reflexivity.
Defined.

(** ** The bus claim during calibration *)



Section BusFacts.
Context {F : Type} {fl : FloatOps F} {ml : MathLib F} {hdr : Header}.

Lemma ask_bus (e : event) (w : world) :
  is_hold e = false -> bus_events (snd (ask e w)) = bus_events w.
Proof.
  intros D. unfold ask, bus_events.
  destruct (replies w); cbn; rewrite D; reflexivity.
Qed.

Lemma tell_bus (e : event) (w : world) :
  is_hold e = false -> bus_events (tell e w) = bus_events w.
Proof. intros D. unfold tell, bus_events. cbn. rewrite D. reflexivity. Qed.

Lemma i2c_write_byte_bus (reg val : Z) (w : world) :
  bus_events (snd (i2c_write_byte reg val w)) = bus_events w.
Proof.
  unfold i2c_write_byte.
  pose proof (ask_bus (I2cWriteByte reg val) w eq_refl) as A.
  destruct (ask _ w) as [[| p] w']; exact A.
Qed.

Lemma i2c_read_bytes_bus (reg len : Z) (w : world) :
  bus_events (snd (i2c_read_bytes reg len w)) = bus_events w.
Proof.
  unfold i2c_read_bytes.
  pose proof (ask_bus (I2cReadBytes reg len) w eq_refl) as A.
  destruct (ask _ w) as [[| p] w']; exact A.
Qed.

Lemma query_bus (e : event) (w : world) :
  is_hold e = false -> bus_events (snd (query e w)) = bus_events w.
Proof.
  intros D. unfold query. pose proof (ask_bus e w D) as A.
  destruct (ask e w) as [[| p] w']; exact A.
Qed.

Ltac hold_steps :=
  repeat first
    [ match goal with
      | |- context [i2c_write_byte ?r ?v ?x] =>
          let H := fresh "D" in
          pose proof (i2c_write_byte_bus r v x) as H;
          destruct (i2c_write_byte r v x) as [? ?]; cbn [snd] in H
      | |- context [i2c_read_bytes ?r ?n ?x] =>
          let H := fresh "D" in
          pose proof (i2c_read_bytes_bus r n x) as H;
          destruct (i2c_read_bytes r n x) as [[? ?] ?]; cbn [snd] in H
      | |- context [query ?e ?x] =>
          let H := fresh "D" in
          pose proof (query_bus e x eq_refl) as H;
          destruct (query e x) as [? ?]; cbn [snd] in H
      end
    | match goal with
      | |- context [if truthy ?x then _ else _] => destruct (truthy x)
      | |- context [if ?x <? 0 then _ else _] => destruct (x <? 0)
      end ].

Ltac chain_bus :=
  repeat match goal with
    | H : bus_events ?a = _ |- bus_events ?a = _ => rewrite H; clear H
    end;
  reflexivity.

Lemma reset_mpu9250_bus (w : world) :
  bus_events (snd (reset_mpu9250 w)) = bus_events w.
Proof.
  unfold reset_mpu9250. hold_steps; cbn [snd];
    rewrite ?tell_bus in * by reflexivity; chain_bus.
Qed.

Lemma read_samples_bus (n : nat) :
  forall (ds : dataset) (data : list Z) (w : world),
    bus_events (snd (read_samples n ds data w)) = bus_events w.
Proof.
  induction n as [| n IH]; intros ds data w; cbn [read_samples];
    [reflexivity |].
  pose proof (i2c_read_bytes_bus FIFO_R_W 6 w) as D.
  destruct (i2c_read_bytes FIFO_R_W 6 w) as [[r got] w']. cbn [snd] in D.
  destruct (r <? 0); [exact D |]. rewrite IH. exact D.
Qed.

Lemma collect_data_bus (data : list Z) (w : world) :
  bus_events (snd (collect_data data w)) = bus_events w.
Proof.
  unfold collect_data. hold_steps. rewrite read_samples_bus.
  rewrite ?tell_bus in * by reflexivity. chain_bus.
Qed.

Lemma write_gyro_offets_to_disk_bus (offsets : list Z) (w : world) :
  bus_events (snd (write_gyro_offets_to_disk offsets w)) = bus_events w.
Proof.
  unfold write_gyro_offets_to_disk, ask, tell, bus_events.
  destruct (replies w) as [| [| p1] [| [| p2] [| [| p3] rs]]]; reflexivity.
Qed.

(** What the set-up does to the bus: nothing when it returns before the
    claim, one claim otherwise. *)
Lemma calibration_setup_bus (w : world) :
  let '(early, w') := calibration_setup w in
  match early with
  | Some r => r = -1 /\
              (bus_events w' = bus_events w \/
               bus_events w' = I2cClaimBus :: bus_events w)
  | None => bus_events w' = I2cClaimBus :: bus_events w
  end.
Proof.
  unfold calibration_setup.
  pose proof (query_bus I2cGetInUseState w eq_refl) as D0.
  destruct (query I2cGetInUseState w) as [r0 w0]. cbn [snd] in D0.
  destruct (truthy r0); [split; [reflexivity | left; exact D0] |].
  pose proof (query_bus (I2cInit IMU_ADDR) w0 eq_refl) as D1.
  destruct (query (I2cInit IMU_ADDR) w0) as [r1 w1]. cbn [snd] in D1.
  destruct (truthy r1); [split; [reflexivity | left; chain_bus] |].
  pose proof (reset_mpu9250_bus (tell I2cClaimBus w1)) as D2.
  destruct (reset_mpu9250 (tell I2cClaimBus w1)) as [r2 w2]. cbn [snd] in D2.
  change (bus_events (tell I2cClaimBus w1))
    with (I2cClaimBus :: bus_events w1) in D2.
  destruct (r2 <? 0);
    [split; [reflexivity | right; rewrite D2, D1, D0; reflexivity] |].
  hold_steps. rewrite ?tell_bus in * by reflexivity.
  repeat match goal with
    | H : bus_events ?a = _ |- bus_events ?a = _ => rewrite H; clear H
    end.
  rewrite D1, D0. reflexivity.
Qed.

(** The routine from [COLLECT_DATA] on: the pass that ended it, after the
    passes whose datasets were discarded. *)
Lemma calibrate_from_COLLECT_DATA_ends (fuel : nat) :
  forall (data : list Z) (w : world) (res : c_result),
    calibrate_from_COLLECT_DATA fuel data w = Some res ->
    exists (data1 : list Z) (w4 : world) (pass : option dataset)
           (data2 : list Z) (w5 : world),
      resamples (data, w) (data1, w4) /\
      collect_data data1 w4 = (pass, data2, w5) /\
      bus_events w5 = bus_events w /\
      disk_events w5 = disk_events w /\
      match pass with
      | None => res = Returns (-1) w5
      | Some ds =>
          quiet ds /\
          if CInt.int32_t (samples ds) =? 0
          then res = DividesByZero w5
          else
            centred ds /\
            let '(written, w6) :=
              write_gyro_offets_to_disk (mean_offsets ds)
                (tell I2cReleaseBus w5) in
            res = Returns (if written <? 0 then -1 else 0) w6 /\
            bus_events w6 = I2cReleaseBus :: bus_events w
      end.
Proof.
  induction fuel as [| fuel IH]; intros data w res E; [discriminate |].
  cbn [calibrate_from_COLLECT_DATA] in E.
  pose proof (collect_data_bus data w) as D.
  pose proof (collect_data_disk data w) as K.
  destruct (collect_data data w) as [[[ds |] data'] w'] eqn:C;
    cbn [snd] in D, K.
  2: { injection E as <-. exists data, w, None, data', w'.
       repeat apply conj; try assumption; try reflexivity.
       apply resamples_here. }
  assert (Again : resampled ds = true ->
            calibrate_from_COLLECT_DATA fuel data' w' = Some res ->
            exists (data1 : list Z) (w4 : world) (pass : option dataset)
                   (data2 : list Z) (w5 : world),
              resamples (data, w) (data1, w4) /\
              collect_data data1 w4 = (pass, data2, w5) /\
              bus_events w5 = bus_events w /\
              disk_events w5 = disk_events w /\
              match pass with
              | None => res = Returns (-1) w5
              | Some ds =>
                  quiet ds /\
                  if CInt.int32_t (samples ds) =? 0
                  then res = DividesByZero w5
                  else
                    centred ds /\
                    let '(written, w6) :=
                      write_gyro_offets_to_disk (mean_offsets ds)
                        (tell I2cReleaseBus w5) in
                    res = Returns (if written <? 0 then -1 else 0) w6 /\
                    bus_events w6 = I2cReleaseBus :: bus_events w
              end).
  { intros R E'.
    destruct (IH _ _ _ E') as (d1 & w4 & pass & d2 & w5 & A & B & P & Q & M).
    exists d1, w4, pass, d2, w5.
    split; [apply (resamples_again data w ds data' w' _ C R A) |].
    split; [exact B |]. split; [congruence |]. split; [congruence |].
    rewrite D in M. exact M. }
  destruct (too_noisy ds) eqn:N.
  { apply Again; [unfold resampled; rewrite N; reflexivity | exact E]. }
  destruct (CInt.int32_t (samples ds) =? 0) eqn:Z0.
  { injection E as <-. exists data, w, (Some ds), data', w'.
    split; [apply resamples_here |]. split; [exact C |].
    split; [exact D |]. split; [exact K |].
    split; [apply too_noisy_false, N |]. rewrite Z0. reflexivity. }
  destruct (out_of_bounds (mean_offsets ds)) eqn:O.
  { apply Again; [unfold resampled; rewrite N, Z0, O; reflexivity | exact E]. }
  exists data, w, (Some ds), data', w'.
  split; [apply resamples_here |]. split; [exact C |].
  split; [exact D |]. split; [exact K |].
  split; [apply too_noisy_false, N |]. rewrite Z0.
  split; [apply out_of_bounds_false, O |].
  pose proof (write_gyro_offets_to_disk_bus (mean_offsets ds)
                (tell I2cReleaseBus w')) as B.
  destruct (write_gyro_offets_to_disk _ _) as [r wd]. cbn [snd] in B.
  change (bus_events (tell I2cReleaseBus w'))
    with (I2cReleaseBus :: bus_events w') in B. rewrite D in B.
  split; [| exact B].
  destruct (r <? 0); injection E as <-; reflexivity.
Qed.

(** X20.  Every run of [calibrate_gyro_routine] that ends went one of
    these ways.  The bus is in use, or cannot be initialised: -1, before
    any claim.  The reset fails: -1 with the bus claimed and not released.
    A read of a sample fails: -1 with the bus claimed and not released.  A
    dataset that is quiet has no sample: a division by zero, with the bus
    claimed and not released.  A dataset is quiet and centred: the bus is
    released, then the offsets are written, and the result is 0 or, when
    the write failed, -1.  On every way but the last the disk is as it
    was; datasets that fail a test are discarded before any of this. *)
Theorem calibration_releases_bus_only_to_write
  (fuel : nat) (data : list Z) (w : world) (res : c_result) :
  calibrate_gyro_routine fuel data w = Some res ->
  calibration_outcome data w res.
Proof.
  unfold calibrate_gyro_routine, calibration_outcome. intros E.
  pose proof (calibration_setup_bus w) as B.
  pose proof (calibration_setup_disk w) as K.
  destruct (calibration_setup w) as [early w0] eqn:S0. cbn [snd] in K.
  unfold calibration_setup in S0.
  pose proof (query_bus I2cGetInUseState w eq_refl) as Q0.
  destruct (query I2cGetInUseState w) as [in_use w1]. cbn [snd] in Q0.
  destruct (truthy in_use).
  { injection S0 as <- <-. injection E as <-. split; [reflexivity | exact Q0]. }
  pose proof (query_bus (I2cInit IMU_ADDR) w1 eq_refl) as Q1.
  destruct (query (I2cInit IMU_ADDR) w1) as [init w2]. cbn [snd] in Q1.
  destruct (truthy init).
  { injection S0 as <- <-. injection E as <-.
    split; [reflexivity | congruence]. }
  pose proof (reset_mpu9250_bus (tell I2cClaimBus w2)) as Q2.
  pose proof (reset_mpu9250_disk (tell I2cClaimBus w2)) as K2.
  destruct (reset_mpu9250 (tell I2cClaimBus w2)) as [reset w3].
  cbn [snd] in Q2, K2.
  destruct (reset <? 0).
  { injection S0 as <- <-. injection E as <-.
    split; [reflexivity |]. destruct B as [_ [B | B]].
    - exfalso. change (bus_events (tell I2cClaimBus w2))
        with (I2cClaimBus :: bus_events w2) in Q2.
      rewrite Q2, Q1, Q0 in B.
      apply (f_equal (@length event)) in B. cbn in B. lia.
    - split; [exact B | exact K]. }
  destruct early as [r |].
  { exfalso.
    repeat match type of S0 with
      | context [i2c_write_byte ?r ?v ?x] =>
          destruct (i2c_write_byte r v x) as [? ?]
      end.
    discriminate S0. }
  destruct (calibrate_from_COLLECT_DATA_ends _ _ _ _ E)
    as (d1 & w4 & pass & d2 & w5 & A & C & P & Q & M).
  exists w0, d1, w4, pass, d2, w5.
  split; [reflexivity |]. split; [exact A |]. split; [exact C |].
  split; [congruence |]. split; [congruence |].
  destruct pass as [ds |]; [| exact M].
  destruct M as [Qt M]. split; [exact Qt |].
  destruct (CInt.int32_t (samples ds) =? 0); [exact M |].
  destruct M as [Ce M]. split; [exact Ce |].
  destruct (write_gyro_offets_to_disk _ _) as [r w6].
  destruct M as [R M]. split; [exact R |]. rewrite M, B. reflexivity.
Qed.

End BusFacts.

(** A device whose FIFO cannot be read: the run ends with the bus claimed. *)
Lemma calibration_releases_bus_only_to_write_witness :
  let w := mkWorld ([Ack [0]; Ack [0]] ++ repeat (Ack []) 14
                    ++ [Ack []; Ack []; Ack []; Ack [0; 12]; Nak]) [] in
  calibration_outcome (fl := Bench.q_float) (ml := Bench.q_math)
    (hdr := Bench.header) (repeat 0 6) w
    (Returns (-1)
       (snd (collect_data (hdr := Bench.header) (repeat 0 6)
               (snd (calibration_setup (hdr := Bench.header) w))))).
Proof.
  intros w.
  exact (calibration_releases_bus_only_to_write (fl := Bench.q_float)
           (ml := Bench.q_math) (hdr := Bench.header) 5 (repeat 0 6) w
           (Returns (-1)
              (snd (collect_data (hdr := Bench.header) (repeat 0 6)
                      (snd (calibration_setup (hdr := Bench.header) w)))))
           eq_refl).
Defined.

(** ** Low-pass filter settings *)

Section FilterFacts.
Context {hdr : Header} {hdr2 : Header2}.

(** The low three bits of a register value made of a base that has none of
    them set and a filter code. *)
Lemma low_bits_of_code (c k : Z) :
  Z.land c 7 = 0 -> 0 <= k < 8 ->
  Z.land (CInt.uint8_t (Z.lor (CInt.uint8_t c) k)) 7 = k.
Proof.
  intros C K. unfold CInt.uint8_t, CInt.unsigned.
  rewrite <- !Z.land_ones by lia.
  rewrite <- Z.land_assoc. change (Z.land (Z.ones 8) 7) with 7.
  rewrite Z.land_lor_distr_l, <- Z.land_assoc.
  change (Z.land (Z.ones 8) 7) with 7. rewrite C, Z.lor_0_l.
  change 7 with (Z.ones 3). rewrite Z.land_ones by lia.
  apply Z.mod_small. change (2 ^ 3) with 8. lia.
Qed.

(** X21.  [set_accel_dlpf] makes one write to [ACCEL_CONFIG_2] for each of
    its seven settings, whatever the bus answers, and returns what the
    write returned; two different settings write two different values.  A
    value that is no setting gives -1 and no write. *)
Theorem set_accel_dlpf_distinct (d1 d2 : accel_dlpf_t) (w : world) :
  Z.land (Z.lor ACCEL_FCHOICE_1KHZ BIT_FIFO_SIZE_1024) 7 = 0 ->
  (forall x, d1 <> ACCEL_DLPF_other x) ->
  (forall x, d2 <> ACCEL_DLPF_other x) ->
  (exists v1 v2,
     set_accel_dlpf d1 w = i2c_write_byte ACCEL_CONFIG_2 v1 w /\
     set_accel_dlpf d2 w = i2c_write_byte ACCEL_CONFIG_2 v2 w /\
     log (snd (set_accel_dlpf d1 w))
       = I2cWriteByte ACCEL_CONFIG_2 v1 :: log w /\
     log (snd (set_accel_dlpf d2 w))
       = I2cWriteByte ACCEL_CONFIG_2 v2 :: log w /\
     1 <= Z.land v1 7 <= 7 /\ 1 <= Z.land v2 7 <= 7 /\
     (v1 = v2 <-> d1 = d2)) /\
  (forall x, set_accel_dlpf (ACCEL_DLPF_other x) w = (-1, w)).
Proof.
  intros B S1 S2. split; [| reflexivity].
  destruct d1; try (exfalso; eapply S1; reflexivity);
    destruct d2; try (exfalso; eapply S2; reflexivity);
    unfold set_accel_dlpf;
    eexists; eexists;
    (split; [reflexivity |]); (split; [reflexivity |]);
    rewrite !i2c_write_byte_log;
    (split; [reflexivity |]); (split; [reflexivity |]);
    rewrite !low_bits_of_code by (try exact B; lia);
    (split; [lia |]); (split; [lia |]);
    (split; [intros E | intros E; try reflexivity; discriminate E]);
    try reflexivity;
    apply (f_equal (fun x => Z.land x 7)) in E;
    rewrite !low_bits_of_code in E by (try exact B; lia);
    exfalso; lia.
Qed.

(** X22.  [set_gyro_dlpf] makes one write to [CONFIG] for each of its
    seven settings, whatever the bus answers, and returns what the write
    returned.  The settings [GYRO_DLPF_OFF] and [GYRO_DLPF_184] write the
    same value; any other two different settings write two different
    values.  A value that is no setting gives -1 and no write. *)
Theorem set_gyro_dlpf_distinct (d1 d2 : gyro_dlpf_t) (w : world) :
  Z.land FIFO_MODE_REPLACE_OLD 7 = 0 ->
  (forall x, d1 <> GYRO_DLPF_other x) ->
  (forall x, d2 <> GYRO_DLPF_other x) ->
  (exists v1 v2,
     set_gyro_dlpf d1 w = i2c_write_byte CONFIG v1 w /\
     set_gyro_dlpf d2 w = i2c_write_byte CONFIG v2 w /\
     log (snd (set_gyro_dlpf d1 w)) = I2cWriteByte CONFIG v1 :: log w /\
     log (snd (set_gyro_dlpf d2 w)) = I2cWriteByte CONFIG v2 :: log w /\
     1 <= Z.land v1 7 <= 6 /\ 1 <= Z.land v2 7 <= 6 /\
     (v1 = v2 <->
      d1 = d2 \/
      (In d1 [GYRO_DLPF_OFF; GYRO_DLPF_184] /\
       In d2 [GYRO_DLPF_OFF; GYRO_DLPF_184]))) /\
  (forall x, set_gyro_dlpf (GYRO_DLPF_other x) w = (-1, w)).
Proof.
  intros B S1 S2. split; [| reflexivity].
  destruct d1; try (exfalso; eapply S1; reflexivity);
    destruct d2; try (exfalso; eapply S2; reflexivity);
    unfold set_gyro_dlpf;
    eexists; eexists;
    (split; [reflexivity |]); (split; [reflexivity |]);
    rewrite !i2c_write_byte_log;
    (split; [reflexivity |]); (split; [reflexivity |]);
    rewrite !low_bits_of_code by (try exact B; lia);
    (split; [lia |]); (split; [lia |]);
    (split;
     [ intros E
     | intros [E | [E1 E2]]; try reflexivity; try discriminate E;
       cbn [In] in E1, E2;
       repeat match goal with
         | H : _ \/ _ |- _ => destruct H as [H | H]
         | H : False |- _ => destruct H
         end; try discriminate; reflexivity ]);
    try (left; reflexivity);
    try (right; cbn [In]; split; auto; fail);
    apply (f_equal (fun x => Z.land x 7)) in E;
    rewrite !low_bits_of_code in E by (try exact B; lia);
    exfalso; lia.
Qed.

End FilterFacts.

(** The 92 Hz and the 41 Hz setting of the accelerometer: 66 and 67. *)
Lemma set_accel_dlpf_distinct_witness :
  let w := mkWorld [Ack []] [] in
  (exists v1 v2,
     set_accel_dlpf (hdr2 := Bench2.header2) ACCEL_DLPF_92 w
       = i2c_write_byte 29 v1 w /\
     set_accel_dlpf (hdr2 := Bench2.header2) ACCEL_DLPF_41 w
       = i2c_write_byte 29 v2 w /\
     log (snd (set_accel_dlpf (hdr2 := Bench2.header2) ACCEL_DLPF_92 w))
       = I2cWriteByte 29 v1 :: log w /\
     log (snd (set_accel_dlpf (hdr2 := Bench2.header2) ACCEL_DLPF_41 w))
       = I2cWriteByte 29 v2 :: log w /\
     1 <= Z.land v1 7 <= 7 /\ 1 <= Z.land v2 7 <= 7 /\
     (v1 = v2 <-> ACCEL_DLPF_92 = ACCEL_DLPF_41)) /\
  (forall x,
     set_accel_dlpf (hdr2 := Bench2.header2) (ACCEL_DLPF_other x) w = (-1, w)).
Proof.
  intros w.
  apply (set_accel_dlpf_distinct (hdr2 := Bench2.header2)
           ACCEL_DLPF_92 ACCEL_DLPF_41 w).
  - reflexivity.
  - discriminate.
  - discriminate.
Defined.

(** The off setting and the 92 Hz setting of the gyroscope: 1 and 2. *)
Lemma set_gyro_dlpf_distinct_witness :
  let w := mkWorld [Ack []] [] in
  (exists v1 v2,
     set_gyro_dlpf (hdr := Bench.header) (hdr2 := Bench2.header2)
       GYRO_DLPF_OFF w = i2c_write_byte 26 v1 w /\
     set_gyro_dlpf (hdr := Bench.header) (hdr2 := Bench2.header2)
       GYRO_DLPF_92 w = i2c_write_byte 26 v2 w /\
     log (snd (set_gyro_dlpf (hdr := Bench.header) (hdr2 := Bench2.header2)
                 GYRO_DLPF_OFF w)) = I2cWriteByte 26 v1 :: log w /\
     log (snd (set_gyro_dlpf (hdr := Bench.header) (hdr2 := Bench2.header2)
                 GYRO_DLPF_92 w)) = I2cWriteByte 26 v2 :: log w /\
     1 <= Z.land v1 7 <= 6 /\ 1 <= Z.land v2 7 <= 6 /\
     (v1 = v2 <->
      GYRO_DLPF_OFF = GYRO_DLPF_92 \/
      (In GYRO_DLPF_OFF [GYRO_DLPF_OFF; GYRO_DLPF_184] /\
       In GYRO_DLPF_92 [GYRO_DLPF_OFF; GYRO_DLPF_184]))) /\
  (forall x,
     set_gyro_dlpf (hdr := Bench.header) (hdr2 := Bench2.header2)
       (GYRO_DLPF_other x) w = (-1, w)).
Proof.
  intros w.
  apply (set_gyro_dlpf_distinct (hdr := Bench.header)
           (hdr2 := Bench2.header2) GYRO_DLPF_OFF GYRO_DLPF_92 w).
  - reflexivity.
  - discriminate.
  - discriminate.
Defined.

(** ** The bus claim around a drain *)

Section DrainFacts.
Context {F : Type} {fl : FloatOps F} {ml : MathLib F} {hdr : Header}.

Lemma i2c_read_word_bus (reg : Z) (w : world) :
  bus_events (snd (i2c_read_word reg w)) = bus_events w.
Proof.
  unfold i2c_read_word, ask, bus_events.
  destruct (replies w) as [| [| p] rs]; reflexivity.
Qed.

Lemma mpu_reset_fifo_bus (g : globals F) (w : world) :
  bus_events (snd (mpu_reset_fifo g w)) = bus_events w.
Proof.
  unfold mpu_reset_fifo.
  repeat first
    [ match goal with
      | |- context [i2c_write_byte ?r ?v ?x] =>
          let H := fresh "D" in
          pose proof (i2c_write_byte_bus r v x) as H;
          destruct (i2c_write_byte r v x) as [? ?]; cbn [snd] in H
      end
    | match goal with
      | |- context [if truthy ?x then _ else _] => destruct (truthy x)
      end ];
    cbn [snd]; rewrite ?tell_bus in * by reflexivity;
    repeat match goal with
      | H : bus_events ?a = _ |- bus_events ?a = _ => rewrite H; clear H
      end;
    reflexivity.
Qed.

Lemma read_dmp_fifo_bus (g : globals F) (w : world) :
  bus_events (snd (read_dmp_fifo g w)) = bus_events w.
Proof.
  unfold read_dmp_fifo.
  destruct (negb (truthy (dmp_en g))); [reflexivity |].
  destruct (_ && _); [reflexivity |].
  pose proof (i2c_read_word_bus FIFO_COUNTH
                (tell (I2cSetDeviceAddress IMU_ADDR) w)) as C.
  destruct (i2c_read_word FIFO_COUNTH _) as [[r n] w1]. cbn [snd] in C.
  change (bus_events (tell (I2cSetDeviceAddress IMU_ADDR) w))
    with (bus_events w) in C.
  destruct (r <? 0); [exact C |].
  destruct (classify_fifo_count n) as [| i m d |]; [exact C | |].
  - unfold READ_FIFO, fetch_fifo.
    pose proof (i2c_read_bytes_bus FIFO_R_W n w1) as R1.
    destruct (i2c_read_bytes FIFO_R_W n w1) as [[ret got] w2].
    cbn [snd] in R1.
    assert (K : forall ret raw w3, bus_events w3 = bus_events w ->
              bus_events
                (snd (if negb (ret =? n) then (-1, g, w3)
                      else match
                             (if d then locate_dmp g raw i else DmpAt 0 i)
                           with
                           | DmpAt j i0 =>
                               let '(ret0, g0) := parse_packet g raw j i0 m d in
                               (ret0, g0, w3)
                           | DmpOutOfBounds =>
                               let '(_, w4) := mpu_reset_fifo g w3 in
                               (-1, g, w4)
                           end)) = bus_events w).
    { intros ret' raw w3 E. destruct (negb (ret' =? n)); [exact E |].
      destruct (if d then locate_dmp g raw i else DmpAt 0 i) as [j i' |].
      - destruct (parse_packet g raw j i' m d). exact E.
      - pose proof (mpu_reset_fifo_bus g w3) as M.
        destruct (mpu_reset_fifo g w3). cbn [snd] in *. congruence. }
    destruct (ret <? 0).
    + pose proof (i2c_read_bytes_bus FIFO_R_W n w2) as R2.
      destruct (i2c_read_bytes FIFO_R_W n w2) as [[ret2 got2] w3].
      cbn [snd] in R2. apply K. congruence.
    + apply K. congruence.
  - pose proof (mpu_reset_fifo_bus g w1) as M.
    destruct (mpu_reset_fifo g w1). cbn [snd] in *. congruence.
Qed.

(** X24.  The interrupt loop claims the bus before every drain of the FIFO and
    releases it after, also when the drain fails: the claims and releases
    it adds are one pair per drain. *)
Theorem interrupt_loop_brackets_drains (ticks : list tick) :
  forall (first_run l : Z) (g : globals F) (w : world),
    let '(turns, _, _, w') := interrupt_loop ticks first_run l g w in
    bus_events w'
    = flat_map (fun _ => [I2cReleaseBus; I2cClaimBus]) (rev (drains turns))
      ++ bus_events w.
Proof.
  assert (Step : forall (ds : list (Z * Z * bool)) (x : Z * Z * bool)
                        (base : list event),
            flat_map (fun _ => [I2cReleaseBus; I2cClaimBus]) (rev (x :: ds))
              ++ base
            = flat_map (fun _ => [I2cReleaseBus; I2cClaimBus]) (rev ds)
              ++ I2cReleaseBus :: I2cClaimBus :: base).
  { intros ds x base. cbn [rev]. rewrite flat_map_app, <- app_assoc.
    reflexivity. }
  induction ticks as [| t ts IH]; intros fr l g w; cbn [interrupt_loop].
  - reflexivity.
  - destruct (stop_at_loop_test t); [reflexivity |].
    destruct (stop_after_poll t); [reflexivity |].
    destruct (revents_POLLPRI t).
    + pose proof (query_bus I2cGetInUseState w eq_refl) as Q.
      destruct (query I2cGetInUseState w) as [u w0]. cbn [snd] in Q.
      pose proof (read_dmp_fifo_bus g (tell I2cClaimBus w0)) as R.
      destruct (read_dmp_fifo g (tell I2cClaimBus w0)) as [[ret g1] w1].
      cbn [snd] in R.
      change (bus_events (tell I2cClaimBus w0))
        with (I2cClaimBus :: bus_events w0) in R. rewrite Q in R.
      set (last := if ret =? 0 then 1 else 0).
      destruct (fr =? 1).
      * specialize (IH 0 last g1 (tell I2cReleaseBus w1)).
        destruct (interrupt_loop ts 0 last g1 _) as [[[rest l'] g'] w'].
        cbn [drains]. rewrite Step, IH.
        change (bus_events (tell I2cReleaseBus w1))
          with (I2cReleaseBus :: bus_events w1). rewrite R. reflexivity.
      * destruct (truthy (interrupt_func_set t) && truthy last).
        -- specialize (IH fr last g1
                         (tell UserCallback (tell I2cReleaseBus w1))).
           destruct (interrupt_loop ts fr last g1 _) as [[[rest l'] g'] w'].
           cbn [drains]. rewrite Step, IH.
           change (bus_events (tell UserCallback (tell I2cReleaseBus w1)))
             with (I2cReleaseBus :: bus_events w1). rewrite R. reflexivity.
        -- specialize (IH fr last g1 (tell I2cReleaseBus w1)).
           destruct (interrupt_loop ts fr last g1 _) as [[[rest l'] g'] w'].
           cbn [drains]. rewrite Step, IH.
           change (bus_events (tell I2cReleaseBus w1))
             with (I2cReleaseBus :: bus_events w1). rewrite R. reflexivity.
    + specialize (IH fr l g w).
      destruct (interrupt_loop ts fr l g w) as [[[rest l'] g'] w'].
      exact IH.
Qed.

End DrainFacts.

(** ** Where the parser reads *)

Section ExtentFacts.
Context {F : Type} {fl : FloatOps F} {ml : MathLib F} {hdr : Header}.

Lemma nth_zeros (l : list Z) :
  Forall (fun x => x = 0) l -> forall k, nth k l 0 = 0.
Proof.
  induction 1 as [| x l X _ IH]; intros k; destruct k; cbn; auto.
Qed.

Lemma Forall_skipn_zero (a : nat) :
  forall l : list Z,
    Forall (fun x => x = 0) l -> Forall (fun x => x = 0) (skipn a l).
Proof.
  induction a as [| a IH]; intros l H; [exact H |].
  destruct l as [| x l]; [constructor |]. cbn. apply IH.
  inversion H; assumption.
Qed.

(** Past the bytes received, the cleared buffer reads as 0. *)
Lemma raw_at_past (N : nat) (got : list Z) (k : Z) :
  Z.of_nat (length got) <= k -> raw_at (buf_store (repeat 0 N) got) k = 0.
Proof.
  intros L. unfold raw_at, buf_store.
  rewrite app_nth2 by (rewrite length_map; lia).
  apply nth_zeros, Forall_skipn_zero, Forall_forall.
  intros x I. apply (repeat_spec _ _ _ I).
Qed.

Lemma be16_past (N : nat) (got : list Z) (k : Z) :
  Z.of_nat (length got) <= k -> be16 (buf_store (repeat 0 N) got) k = 0.
Proof.
  intros L. unfold be16. rewrite !raw_at_past by lia. reflexivity.
Qed.

(** The counts that are read, with the offset and the flags of each. *)
Lemma classify_fifo_count_table (n i : Z) (m d : bool) :
  classify_fifo_count n = FifoRead i m d ->
  In (n, i, m, d)
    [(28, 0, false, true); (35, 0, true, true); (42, 7, false, true);
     (63, 28, false, true); (77, 42, false, true); (56, 28, false, true);
     (70, 35, true, true); (7, 0, true, false); (14, 7, true, false);
     (21, 14, true, false)].
Proof.
  unfold classify_fifo_count, FIFO_LEN_NO_MAG, FIFO_LEN_MAG.
  repeat match goal with
    | |- context [?a =? ?b] =>
        destruct (Z.eqb_spec a b);
        [ subst; cbn; intros E;
          first [ discriminate E
                | injection E as <- <- <-; cbn; tauto ] |]
    end.
  cbn. discriminate.
Qed.

(** X23.  Where [read_dmp_fifo] parses, against the bytes the FIFO held.
    For every count that is read: the magnetometer bytes, when flagged, lie
    within the bytes counted.  The DMP packet is parsed at the offset the
    count gives, and then lies within the bytes counted, or, with the
    magnetometer enabled and a quaternion that passes the check 7 bytes
    on, at that offset plus 7.  There it still lies within the bytes
    counted, except for the counts 28 and 56: the packet then ends 7 bytes
    past the count, in the part of the buffer that was cleared, and the
    raw gyroscope values stored are three zeros. *)
Theorem parsed_packet_extent (g : globals F) (got : list Z)
  (n i j i' : Z) (m d : bool) :
  let raw := buf_store (repeat 0 (Z.to_nat MAX_FIFO_BUFFER)) got in
  Z.of_nat (length got) = n ->
  classify_fifo_count n = FifoRead i m d ->
  (if d then locate_dmp g raw i else DmpAt 0 i) = DmpAt j i' ->
  n <= 77 /\ 0 <= i /\
  (m = true -> 0 <= i' /\ i' + 7 <= n) /\
  (d = true ->
   0 <= j /\
   ((j = i /\ i' = i + FIFO_LEN_NO_MAG /\ j + FIFO_LEN_NO_MAG <= n) \/
    (j = i + 7 /\ i' = i /\
     truthy (enable_magnetometer (config g)) = true /\
     check_quaternion_validity raw (i + 7) <> 0 /\
     (j + FIFO_LEN_NO_MAG <= n \/
      ((n = 28 \/ n = 56) /\ j + FIFO_LEN_NO_MAG = n + 7 /\
       forall d0, raw_gyro (store_dmp_data raw j d0) = [0; 0; 0]))))).
Proof.
  intros raw L C.
  apply classify_fifo_count_table in C. cbn [In] in C.
  assert (G : forall d0 k, n + 1 <= k ->
            raw_gyro (store_dmp_data raw (k - 22) d0) = [0; 0; 0]).
  { intros d0 k K.
    destruct (store_dmp_data_frame raw (k - 22) d0) as (_ & _ & -> & _).
    unfold be16_triplet, raw. rewrite !be16_past by lia. reflexivity. }
  assert (T : forall x, truthy x = true -> x <> 0).
  { intros x H E. subst x. discriminate H. }
  unfold locate_dmp, FIFO_LEN_NO_MAG.
  repeat match goal with
    | H : _ \/ _ |- _ => destruct H as [H | H]
    | H : False |- _ => destruct H
    end;
    injection C as <- <- <- <-; cbn [andb].
  all: try (intros E; injection E as <- <-;
            repeat apply conj; try lia; intros; try discriminate; lia).
  all: destruct (truthy (enable_magnetometer (config g))) eqn:M; cbn [andb].
  all: try match goal with
         | |- context [truthy (check_quaternion_validity ?r (?a + 7))] =>
             destruct (truthy (check_quaternion_validity r (a + 7))) eqn:V1
         end.
  all: try match goal with
         | |- context [truthy (check_quaternion_validity ?r ?a)] =>
             destruct (truthy (check_quaternion_validity r a)) eqn:V0
         end.
  all: intros E; try discriminate E; injection E as <- <-.
  all: split; [lia |]; split; [lia |];
       (split; [intros H; first [discriminate H | lia] |]); intros _;
       (split; [lia |]).
  all: first
         [ left; repeat apply conj; lia
         | right; split; [lia |]; split; [lia |]; split; [reflexivity |];
           split; [apply T; exact V1 |];
           first
             [ left; lia
             | right; split; [first [left; reflexivity | right; reflexivity] |];
               split; [lia |]; intros d0;
               first [ exact (G d0 29 ltac:(lia))
                     | exact (G d0 57 ltac:(lia)) ] ] ].
Qed.

End ExtentFacts.

(** A count of 28 with the magnetometer enabled, and 28 bytes that hold a
    quaternion of norm one 7 bytes on: the packet is parsed at offset 7 and
    ends at byte 35. *)
Lemma parsed_packet_extent_witness :
  let g := Bench.globals0 1 in
  let got := repeat 0 7 ++ 64 :: repeat 0 20 in
  let raw := buf_store (repeat 0 (Z.to_nat 128)) got in
  28 <= 77 /\ 0 <= 0 /\
  (false = true -> 0 <= 0 /\ 0 + 7 <= 28) /\
  (true = true ->
   0 <= 7 /\
   ((7 = 0 /\ 0 = 0 + FIFO_LEN_NO_MAG /\ 7 + FIFO_LEN_NO_MAG <= 28) \/
    (7 = 0 + 7 /\ 0 = 0 /\
     truthy (enable_magnetometer (config g)) = true /\
     check_quaternion_validity raw (0 + 7) <> 0 /\
     (7 + FIFO_LEN_NO_MAG <= 28 \/
      ((28 = 28 \/ 28 = 56) /\ 7 + FIFO_LEN_NO_MAG = 28 + 7 /\
       forall d0,
         raw_gyro (store_dmp_data (fl := Bench.q_float)
                     (ml := Bench.q_math) raw 7 d0)
         = [0; 0; 0]))))).
Proof.
  intros g got raw.
  apply (parsed_packet_extent (fl := Bench.q_float) (hdr := Bench.header)
           g got 28 0 7 0 false true).
  - reflexivity.
  - reflexivity.
  - reflexivity.
Defined.
